(** * Document-Vectorization-System: the indexing pipeline

    A shallow embedding of [text_splitter.py] and [strategy_evaluator.py]
    together with the properties of the natural-language specification
    that concern them, followed by the functions around them:
    the text assembly of [file_reader.py], the batch loop of
    [embedding_generator.py], [save_chunks] of [database.py] and [main]
    of [index_documents.py].

    Conventions of the embedding.
    - A Python [str] is a list of Unicode code points ([N]).
    - A Python [int] is a [Z]; [len] yields a [nat] that is injected
      with [Z.of_nat] wherever the source does integer arithmetic.
    - A raised exception is the [Err] case of [result]; the exception
      classes that the modelled code can raise are listed in [exn].
    - The [while] loop of the fixed-size strategy is run with fuel; that
      enough fuel always exists is a theorem, not an assumption.
    - Floating-point values are idealised: the quotient computed by the
      splitter is an exact rational, the numbers of the evaluator are
      real numbers extended with the not-a-number value that numpy
      returns for the mean of an empty list. Rounding is not modelled,
      so a computed score or similarity agrees with the program's value
      up to rounding only; the statements about such values are bounds
      with slack, orderings of the values the program compares, and
      values that are exact in float64.
    - Console output is not modelled: the [print] calls are left out,
      and a statement describes the runs in which they succeed. The one
      exception is the report that [save_chunks] prints after its
      commit, whose failure changes what the caller learns about the
      stored rows. *)

From Stdlib Require Import String Ascii.
From Stdlib Require Import ZArith NArith QArith Reals Lra Lia Bool List.
Import ListNotations.

Close Scope R_scope.
Close Scope Q_scope.
Close Scope string_scope.
Open Scope nat_scope.

(* ================================================================== *)
(** * Python preliminaries *)
(* ================================================================== *)

Module Py.

(** Exceptions raised by the modelled code paths. *)
Inductive exn : Type :=
| ValueError
| ZeroDivisionError
| KeyError
| OverflowError.

(** Outcome of a call: a returned value or a raised exception. *)
Inductive result (A : Type) : Type :=
| Ok (a : A)
| Err (e : exn).

Arguments Ok {A} a.
Arguments Err {A} e.

Definition bind {A B : Type} (r : result A) (k : A -> result B) : result B :=
  match r with
  | Ok a => k a
  | Err e => Err e
  end.

Definition is_ok {A : Type} (r : result A) : bool :=
  match r with Ok _ => true | Err _ => false end.

(** ** Strings *)

Definition char : Type := N.
Definition str : Type := list char.

(** Embedding of an ASCII literal. *)
Definition str_of (s : string) : str :=
  List.map N_of_ascii (list_ascii_of_string s).

(** [str.isspace] on one code point (CPython's [_PyUnicode_IsWhitespace]);
    the same predicate decides [\s] in a [str] regular expression and the
    characters removed by [str.strip()]. *)
Definition is_space (c : char) : bool :=
  ((9 <=? c) && (c <=? 13)
   || (28 <=? c) && (c <=? 32)
   || (c =? 133) || (c =? 160) || (c =? 5760)
   || (8192 <=? c) && (c <=? 8202)
   || (c =? 8232) || (c =? 8233) || (c =? 8239) || (c =? 8287)
   || (c =? 12288))%N.

(** Truth value of a string or a list: non-emptiness. *)
Definition truthy {A : Type} (l : list A) : bool :=
  match l with [] => false | _ :: _ => true end.

Fixpoint dropwhile {A : Type} (p : A -> bool) (l : list A) : list A :=
  match l with
  | [] => []
  | x :: l' => if p x then dropwhile p l' else l
  end.

Definition lstrip (s : str) : str := dropwhile is_space s.
Definition rstrip (s : str) : str := rev (dropwhile is_space (rev s)).

(** [s.strip()] *)
Definition strip (s : str) : str := rstrip (lstrip s).

Definition SPACE : char := 32%N.
Definition NEWLINE : char := 10%N.

(** [" ".join(l)] *)
Fixpoint join_space (l : list str) : str :=
  match l with
  | [] => []
  | [s] => s
  | s :: l' => s ++ SPACE :: join_space l'
  end.

(** ** Slices and ranges *)

(** Index adjustment of a slice bound for a sequence of length [n]
    (step 1): a negative bound counts from the end, then the bound is
    clipped to [0..n]. *)
Definition adjust_index (n i : Z) : Z :=
  if (i <? 0)%Z then Z.max (i + n) 0 else Z.min i n.

(** [l[start:stop]] *)
Definition slice {A : Type} (l : list A) (start stop : Z) : list A :=
  let n := Z.of_nat (length l) in
  let lo := adjust_index n start in
  let hi := adjust_index n stop in
  firstn (Z.to_nat (hi - lo)) (skipn (Z.to_nat lo) l).

(** Number of elements of [range(start, stop, step)], [step <> 0]. *)
Definition range_len (start stop step : Z) : nat :=
  if (0 <? step)%Z then
    if (start <? stop)%Z then Z.to_nat ((stop - start - 1) / step + 1) else 0
  else
    if (stop <? start)%Z then Z.to_nat ((start - stop - 1) / (- step) + 1) else 0.

(** [range(start, stop, step)]; a zero step raises [ValueError]. *)
Definition range (start stop step : Z) : result (list Z) :=
  if (step =? 0)%Z then Err ValueError
  else Ok (List.map (fun k => (start + Z.of_nat k * step)%Z)
                    (seq 0 (range_len start stop step))).

(** [sum(len(c) for c in chunks)] *)
Definition total_len (chunks : list str) : nat :=
  fold_right (fun c acc => (length c + acc)%nat) 0%nat chunks.

(** ** Regular-expression splitting

    [re.split(pattern, s)] for a pattern that never matches the empty
    string. The pattern is given by its matcher: [m prev rest] is the
    text that remains after the (unique, longest-preferred) match that
    starts at the head of [rest], where [prev] is the character just
    before it, or [None] when the pattern does not match there.
    The scan keeps the piece under construction in [cur] (reversed) and
    skips the [skip] characters still covered by the last match. *)
Fixpoint re_split_aux (m : option char -> str -> option str)
    (skip : nat) (prev : option char) (cur : str) (s : str) : list str :=
  match s with
  | [] => [rev cur]
  | c :: s' =>
    match skip with
    | S k => re_split_aux m k (Some c) cur s'
    | O =>
      match m prev s with
      | Some r => rev cur :: re_split_aux m (length s' - length r) (Some c) [] s'
      | None => re_split_aux m 0 (Some c) (c :: cur) s'
      end
    end
  end.

Definition re_split (m : option char -> str -> option str) (s : str) : list str :=
  re_split_aux m 0 None [] s.

End Py.

Import Py.

Notation "x <- c1 ;; c2" := (Py.bind c1 (fun x => c2))
  (at level 61, c1 at next level, right associativity).

(* ================================================================== *)
(** * text_splitter.py *)
(* ================================================================== *)

Module TextSplitter.

(** [ChunkResult] *)
Record ChunkResult : Type := mkChunkResult {
  chunks : list str;
  strategy : string;
  num_chunks : nat;
  avg_chunk_size : Q
}.

(** [sum(len(c) for c in chunks) / len(chunks) if chunks else 0] *)
Definition avg_size (chunks : list str) : Q :=
  if truthy chunks
  then (inject_Z (Z.of_nat (total_len chunks)) / inject_Z (Z.of_nat (length chunks)))%Q
  else 0%Q.

(** [if chunk: chunks.append(chunk)] *)
Definition append_if_truthy (chunks : list str) (chunk : str) : list str :=
  if truthy chunk then chunks ++ [chunk] else chunks.

(** ** Fixed size with overlap *)

(** The [while start < text_length] loop. [None] means that the fuel
    ran out before the loop condition became false. *)
Fixpoint fixed_size_loop (fuel : nat) (text : str) (chunk_size overlap : Z)
    (start : Z) (chunks : list str) : option (list str) :=
  if (start <? Z.of_nat (length text))%Z then
    match fuel with
    | O => None
    | S fuel' =>
      let end_ := (start + chunk_size)%Z in
      let chunk := strip (slice text start end_) in
      let chunks := append_if_truthy chunks chunk in
      fixed_size_loop fuel' text chunk_size overlap
        (start + (chunk_size - overlap))%Z chunks
    end
  else Some chunks.

(** Variant of the loop: the number of characters between the window
    start and the end of the text. *)
Definition remaining (text : str) (start : Z) : nat :=
  Z.to_nat (Z.of_nat (length text) - start).

Definition fixed_size_with_overlap_fuel (fuel : nat) (text : str)
    (chunk_size overlap : Z) : option (result ChunkResult) :=
  if (overlap >=? chunk_size)%Z then Some (Err ValueError)
  else
    match fixed_size_loop fuel text chunk_size overlap 0%Z [] with
    | None => None
    | Some chunks =>
      Some (Ok {| chunks := chunks;
                  strategy := "fixed_size_with_overlap";
                  num_chunks := length chunks;
                  avg_chunk_size := avg_size chunks |})
    end.

(** The loop body runs at most [len(text)] times when the parameters
    are valid (lemma [fixed_size_fuel_enough]), so this fuel is enough. *)
Definition fixed_size_with_overlap (text : str) (chunk_size overlap : Z)
    : option (result ChunkResult) :=
  fixed_size_with_overlap_fuel (length text) text chunk_size overlap.

(** ** Sentence based *)

Definition is_sentence_end (c : char) : bool :=
  ((c =? 46) || (c =? 33) || (c =? 63))%N.   (* . ! ? *)

(** Matcher of [(?<=[.!?])\s+]: the previous character ends a sentence
    and the match takes the whole run of whitespace. *)
Definition sentence_pattern (prev : option char) (rest : str) : option str :=
  match prev, rest with
  | Some p, c :: _ =>
    if is_sentence_end p && is_space c then Some (dropwhile is_space rest) else None
  | _, _ => None
  end.

(** [[s.strip() for s in sentences if s.strip()]] *)
Definition clean_sentences (sentences : list str) : list str :=
  List.map strip (List.filter (fun s => truthy (strip s)) sentences).

(** Body of [for i in range(0, len(sentences), sentences_per_chunk)]. *)
Definition sentence_step (sentences : list str) (sentences_per_chunk : Z)
    (chunks : list str) (i : Z) : list str :=
  let chunk_sentences := slice sentences i (i + sentences_per_chunk)%Z in
  let chunk := join_space chunk_sentences in
  append_if_truthy chunks chunk.

Definition sentence_based_splitting (text : str) (sentences_per_chunk : Z)
    : result ChunkResult :=
  let sentences := re_split sentence_pattern text in
  let sentences := clean_sentences sentences in
  idx <- range 0 (Z.of_nat (length sentences)) sentences_per_chunk ;;
  let chunks := fold_left (sentence_step sentences sentences_per_chunk) idx [] in
  Ok {| chunks := chunks;
        strategy := "sentence_based";
        num_chunks := length chunks;
        avg_chunk_size := avg_size chunks |}.

(** ** Paragraph based *)

(** After a first newline: the text that follows the last newline of the
    whitespace run at the head of [s], if that run has a newline. *)
Fixpoint after_last_newline (s : str) : option str :=
  match s with
  | [] => None
  | c :: s' =>
    if is_space c then
      match after_last_newline s' with
      | Some r => Some r
      | None => if (c =? NEWLINE)%N then Some s' else None
      end
    else None
  end.

(** Matcher of [\n\s*\n] (greedy [\s*] with backtracking). *)
Definition paragraph_pattern (prev : option char) (rest : str) : option str :=
  match rest with
  | c :: s' => if (c =? NEWLINE)%N then after_last_newline s' else None
  | [] => None
  end.

(** [chunks[-1] += " " + para], for a non-empty [chunks]. *)
Definition append_to_last (chunks : list str) (para : str) : list str :=
  removelast chunks ++ [last chunks [] ++ SPACE :: para].

(** Body of [for para in paragraphs]. *)
Definition paragraph_step (min_paragraph_length : Z) (chunks : list str)
    (para : str) : list str :=
  let para := strip para in
  if (Z.of_nat (length para) >=? min_paragraph_length)%Z then chunks ++ [para]
  else if truthy chunks then append_to_last chunks para
  else chunks.

Definition paragraph_based_splitting (text : str) (min_paragraph_length : Z)
    : ChunkResult :=
  let paragraphs := re_split paragraph_pattern text in
  let chunks := fold_left (paragraph_step min_paragraph_length) paragraphs [] in
  let chunks :=
    if negb (truthy chunks) && truthy (strip text) then [strip text] else chunks in
  {| chunks := chunks;
     strategy := "paragraph_based";
     num_chunks := length chunks;
     avg_chunk_size := avg_size chunks |}.

(** ** All strategies *)

(** An insertion-ordered [dict] with string keys. *)
Definition dict (V : Type) : Type := list (string * V).

Definition dict_keys {V : Type} (d : dict V) : list string := List.map fst d.

(** [d[k]] *)
Fixpoint dict_get {V : Type} (d : dict V) (k : string) : result V :=
  match d with
  | [] => Err KeyError
  | (k', v) :: d' => if String.eqb k' k then Ok v else dict_get d' k
  end.

(** [d[k] = v]: an existing key keeps its place, a new key goes last. *)
Fixpoint dict_set {V : Type} (d : dict V) (k : string) (v : V) : dict V :=
  match d with
  | [] => [(k, v)]
  | (k', v') :: d' =>
    if String.eqb k' k then (k', v) :: d' else (k', v') :: dict_set d' k v
  end.

Definition split_all_strategies (text : str) : option (result (dict ChunkResult)) :=
  let results := [] in
  match fixed_size_with_overlap text 500 50 with
  | None => None
  | Some (Err e) => Some (Err e)
  | Some (Ok fixed_result) =>
    let results := dict_set results "fixed_size" fixed_result in
    Some (sentence_result <- sentence_based_splitting text 5 ;;
          let results := dict_set results "sentence_based" sentence_result in
          let paragraph_result := paragraph_based_splitting text 100 in
          let results := dict_set results "paragraph_based" paragraph_result in
          Ok results)
  end.

End TextSplitter.

(* ================================================================== *)
(** * embedding_generator.py (data only) *)
(* ================================================================== *)

Module EmbeddingGenerator.

(** [EmbeddingResult]; an embedding vector is a list of (finite) reals. *)
Record EmbeddingResult : Type := mkEmbeddingResult {
  embeddings : list (list R);
  chunks : list str;
  strategy : string;
  dimension : nat;
  total_chunks : nat
}.

End EmbeddingGenerator.

(* ================================================================== *)
(** * strategy_evaluator.py *)
(* ================================================================== *)

Module StrategyEvaluator.

Import TextSplitter.

Local Open Scope R_scope.

(** ** Floating-point values

    A Python or numpy float is a real number or not-a-number.
    Arithmetic is exact on real arguments and propagates [NaN]; every
    comparison with [NaN] is false. A numpy division by zero (which
    gives an infinity or nan and never raises) is mapped to the single
    non-finite value; the evaluator divides numpy scalars only behind
    the test [avg_size > 0] and by [1 + std / avg]. *)
Inductive pyfloat : Type :=
| NaN
| Fin (x : R).

Definition lift2 (f : R -> R -> R) (a b : pyfloat) : pyfloat :=
  match a, b with
  | Fin x, Fin y => Fin (f x y)
  | _, _ => NaN
  end.

Definition fadd : pyfloat -> pyfloat -> pyfloat := lift2 Rplus.
Definition fsub : pyfloat -> pyfloat -> pyfloat := lift2 Rminus.
Definition fmul : pyfloat -> pyfloat -> pyfloat := lift2 Rmult.

Definition fabs (a : pyfloat) : pyfloat :=
  match a with
  | Fin x => Fin (Rabs x)
  | NaN => NaN
  end.

(** Division of numpy scalars. *)
Definition np_div (a b : pyfloat) : pyfloat :=
  match a, b with
  | Fin x, Fin y => if Req_dec_T y 0 then NaN else Fin (x / y)
  | _, _ => NaN
  end.

(** [a < b] *)
Definition fltb (a b : pyfloat) : bool :=
  match a, b with
  | Fin x, Fin y => if Rlt_dec x y then true else false
  | _, _ => false
  end.

(** [a > b] *)
Definition fgtb (a b : pyfloat) : bool := fltb b a.

(** [min(a, b)]: the first argument unless the second is smaller. *)
Definition py_min (a b : pyfloat) : pyfloat := if fltb b a then b else a.

(** [a / b] on Python integers: true division. *)
Definition truediv (a b : Z) : result pyfloat :=
  if (b =? 0)%Z then Err ZeroDivisionError else Ok (Fin (IZR a / IZR b)).

Definition Rsum (l : list R) : R := fold_right Rplus 0 l.

(** [np.mean]: nan on an empty list. *)
Definition np_mean (l : list R) : pyfloat :=
  match l with
  | [] => NaN
  | _ :: _ => Fin (Rsum l / INR (length l))
  end.

(** [np.std] (population standard deviation): nan on an empty list. *)
Definition np_std (l : list R) : pyfloat :=
  match l with
  | [] => NaN
  | _ :: _ =>
    let mu := Rsum l / INR (length l) in
    Fin (sqrt (Rsum (List.map (fun x => Rsqr (Rabs (x - mu))) l) / INR (length l)))
  end.

(** ** sklearn.metrics.pairwise.cosine_similarity

    The function of the scikit-learn library that the evaluator imports,
    as the library defines it, applied to two arrays of shape (1, d):
    both rows are L2-normalised by [sklearn.preprocessing.normalize],
    which replaces every norm below ten machine epsilons by one
    ([_handle_zeros_in_scale]: [scale < 10 * np.finfo(dtype).eps]), and
    the result is the dot product of the normalised rows. The input
    validation ([check_pairwise_arrays]) rejects a row without features
    and two rows of different widths with [ValueError].

    The components are real numbers: a vector holds finite values only
    (the library rejects nan and infinities with [ValueError]), and the
    sums, products, quotients and square roots are those of the reals.
    The rounding and the overflow of float64 are not modelled, so the
    computed cosine agrees with the library's value only up to rounding;
    it is exact where every intermediate value is representable, as for
    zero vectors and for the vectors [[1]] and [[-1]]. The theorems
    below state about a similarity value only what does not depend on
    its last digits. *)
Definition row_norm (v : list R) : R := sqrt (Rsum (List.map Rsqr v)).

(** [np.finfo(np.float64).eps], that is 2 ^ -52. *)
Definition eps : R := / 4503599627370496.

Definition handle_zeros_in_scale (n : R) : R :=
  if Rlt_dec n (10 * eps) then 1 else n.

Definition normalize (v : list R) : list R :=
  let n := handle_zeros_in_scale (row_norm v) in
  List.map (fun x => x / n) v.

Definition dot (u v : list R) : R :=
  Rsum (List.map (fun p => fst p * snd p) (combine u v)).

Definition cosine_similarity (emb1 emb2 : list R) : result R :=
  if (length emb1 =? 0)%nat || (length emb2 =? 0)%nat then Err ValueError
  else if negb (length emb1 =? length emb2)%nat then Err ValueError
  else Ok (dot (normalize emb1) (normalize emb2)).

(** ** StrategyEvaluator *)

(** [StrategyMetrics] *)
Record StrategyMetrics : Type := mkStrategyMetrics {
  strategy_name : string;
  num_chunks : nat;
  avg_chunk_size : pyfloat;
  chunk_size_std : pyfloat;
  avg_similarity : pyfloat;
  coverage_score : pyfloat;
  total_score : pyfloat
}.

Definition calculate_chunk_statistics (chunks : list str) : pyfloat * pyfloat :=
  let sizes := List.map (fun chunk => INR (length chunk)) chunks in
  let avg_size := np_mean sizes in
  let std_size := np_std sizes in
  (avg_size, std_size).

(** The loop [for i in range(len(embeddings) - 1)] over consecutive
    pairs; the first failing call aborts it. *)
Fixpoint consecutive_similarities (embeddings : list (list R)) : result (list R) :=
  match embeddings with
  | emb1 :: ((emb2 :: _) as rest) =>
    sim <- cosine_similarity emb1 emb2 ;;
    similarities <- consecutive_similarities rest ;;
    Ok (sim :: similarities)
  | _ => Ok []
  end.

Definition calculate_embedding_similarity (embeddings : list (list R)) : result pyfloat :=
  if (length embeddings <? 2)%nat then Ok (Fin 0)
  else
    similarities <- consecutive_similarities embeddings ;;
    Ok (np_mean similarities).

Definition calculate_coverage_score (original_text : str) (chunks : list str)
    : result pyfloat :=
  let original_length := Z.of_nat (length original_text) in
  let total_chunk_length := Z.of_nat (total_len chunks) in
  ratio <- truediv total_chunk_length original_length ;;
  let coverage := py_min (Fin 1) ratio in
  Ok coverage.

Definition evaluate_strategy (strategy_name : string) (chunks : list str)
    (embeddings : list (list R)) (original_text : str) : result StrategyMetrics :=
  let '(avg_size, std_size) := calculate_chunk_statistics chunks in
  avg_similarity <- calculate_embedding_similarity embeddings ;;
  coverage <- calculate_coverage_score original_text chunks ;;
  let size_consistency :=
    if fgtb avg_size (Fin 0)
    then np_div (Fin 1) (fadd (Fin 1) (np_div std_size avg_size))
    else Fin 0 in
  let similarity_score :=
    fsub (Fin 1) (fmul (fabs (fsub avg_similarity (Fin (5 / 10)))) (Fin 2)) in
  count_ratio <- truediv 50 (Z.of_nat (length chunks)) ;;
  let total_score :=
    fadd (fadd (fadd (fmul (Fin (3 / 10)) coverage)
                     (fmul (Fin (3 / 10)) similarity_score))
               (fmul (Fin (2 / 10)) size_consistency))
         (fmul (Fin (2 / 10)) (py_min (Fin 1) count_ratio)) in
  Ok {| strategy_name := strategy_name;
        num_chunks := length chunks;
        avg_chunk_size := avg_size;
        chunk_size_std := std_size;
        avg_similarity := avg_similarity;
        coverage_score := coverage;
        total_score := total_score |}.

(** [max(items, key=key)]: the first item is kept until a later one has
    a strictly greater key; [ValueError] on an empty sequence. *)
Fixpoint max_from {A : Type} (key : A -> pyfloat) (best : A) (l : list A) : A :=
  match l with
  | [] => best
  | x :: l' => if fgtb (key x) (key best) then max_from key x l' else max_from key best l'
  end.

Definition py_max {A : Type} (key : A -> pyfloat) (l : list A) : result A :=
  match l with
  | [] => Err ValueError
  | x :: l' => Ok (max_from key x l')
  end.

(** Body of [for strategy_name in strategy_results.keys()]. *)
Definition select_step (strategy_results : dict ChunkResult)
    (embedding_results : dict EmbeddingGenerator.EmbeddingResult)
    (original_text : str)
    (all_metrics : dict StrategyMetrics) (strategy_name : string)
    : result (dict StrategyMetrics) :=
  chunk_result <- dict_get strategy_results strategy_name ;;
  let chunks := TextSplitter.chunks chunk_result in
  embedding_result <- dict_get embedding_results strategy_name ;;
  let embeddings := EmbeddingGenerator.embeddings embedding_result in
  metrics <- evaluate_strategy strategy_name chunks embeddings original_text ;;
  Ok (dict_set all_metrics strategy_name metrics).

(** A [for] loop whose body may raise. *)
Fixpoint for_each {S A : Type} (body : S -> A -> result S) (l : list A) (s : S)
    : result S :=
  match l with
  | [] => Ok s
  | x :: l' => s' <- body s x ;; for_each body l' s'
  end.

Definition select_best_strategy (strategy_results : dict ChunkResult)
    (embedding_results : dict EmbeddingGenerator.EmbeddingResult)
    (original_text : str)
    : result (string * StrategyMetrics * dict StrategyMetrics) :=
  all_metrics <- for_each (select_step strategy_results embedding_results original_text)
                          (dict_keys strategy_results) [] ;;
  best_strategy <- py_max (fun x => total_score (snd x)) all_metrics ;;
  let '(best_name, best_metrics) := best_strategy in
  Ok (best_name, best_metrics, all_metrics).

End StrategyEvaluator.

(* ================================================================== *)
(** * index_documents.py (input gate only) *)
(* ================================================================== *)

Module IndexDocuments.

(** The test [not text or len(text) < 100] with which [main] rejects a
    document before any splitting or evaluation. *)
Definition too_short (text : str) : bool :=
  negb (truthy text) || (Z.of_nat (length text) <? 100)%Z.

End IndexDocuments.

(* ================================================================== *)
(** * Auxiliary notions used in the statements *)
(* ================================================================== *)

Module Aux.

Import TextSplitter.

(** The pattern [(?<=[.!?])\s+] matches at a character [c] preceded by [prev]. *)
Definition boundary (prev : option char) (c : char) : bool :=
  match prev with
  | Some p => is_sentence_end p && is_space c
  | None => false
  end.

(** No position of [s] (whose predecessor is [prev]) starts a match. *)
Fixpoint no_boundary (prev : option char) (s : str) : bool :=
  match s with
  | [] => true
  | c :: s' => negb (boundary prev c) && no_boundary (Some c) s'
  end.

(** Order on scores: both are numbers and the first is smaller. *)
Definition score_lt (a b : StrategyEvaluator.pyfloat) : Prop :=
  match a, b with
  | StrategyEvaluator.Fin x, StrategyEvaluator.Fin y => (x < y)%R
  | _, _ => False
  end.

Definition score_le (a b : StrategyEvaluator.pyfloat) : Prop :=
  match a, b with
  | StrategyEvaluator.Fin x, StrategyEvaluator.Fin y => (x <= y)%R
  | _, _ => False
  end.

(** Embedding vectors as the data model has them: all of one
    dimension [D]. *)
Definition well_shaped (D : nat) (embeddings : list (list R)) : Prop :=
  Forall (fun v => length v = D) embeddings.

(** A vector whose components are all zero. *)
Definition all_zero (v : list R) : Prop := Forall (fun x => x = 0%R) v.

(** The strategy keys in the order in which [split_all_strategies]
    inserts them. *)
Definition strategy_order : list string :=
  ["fixed_size"; "sentence_based"; "paragraph_based"]%string.

(** The record [m] is what [evaluate_strategy] returns for the chunks
    and embeddings stored under [name]. *)
Definition evaluated (strategy_results : dict ChunkResult)
    (embedding_results : dict EmbeddingGenerator.EmbeddingResult)
    (original_text : str) (name : string) (m : StrategyEvaluator.StrategyMetrics) : Prop :=
  exists chunk_result embedding_result,
    dict_get strategy_results name = Ok chunk_result /\
    dict_get embedding_results name = Ok embedding_result /\
    StrategyEvaluator.evaluate_strategy name (chunks chunk_result)
      (EmbeddingGenerator.embeddings embedding_result) original_text = Ok m.

End Aux.

(** Sample input: the three strategies produce the same two chunks with
    the same embeddings, so their total scores tie. *)
Module Sample.

Definition text : str := str_of "One. Two.".

Definition chunk_result (strategy : string) : TextSplitter.ChunkResult :=
  {| TextSplitter.chunks := [str_of "One."; str_of "Two."];
     TextSplitter.strategy := strategy;
     TextSplitter.num_chunks := 2;
     TextSplitter.avg_chunk_size := 4%Q |}.

Definition embedding_result (strategy : string) : EmbeddingGenerator.EmbeddingResult :=
  {| EmbeddingGenerator.embeddings := [[1; 0]; [0; 1]]%R;
     EmbeddingGenerator.chunks := [str_of "One."; str_of "Two."];
     EmbeddingGenerator.strategy := strategy;
     EmbeddingGenerator.dimension := 2;
     EmbeddingGenerator.total_chunks := 2 |}.

Definition strategy_results : TextSplitter.dict TextSplitter.ChunkResult :=
  [("fixed_size", chunk_result "fixed_size_with_overlap");
   ("sentence_based", chunk_result "sentence_based");
   ("paragraph_based", chunk_result "paragraph_based")]%string.

Definition embedding_results : TextSplitter.dict EmbeddingGenerator.EmbeddingResult :=
  [("fixed_size", embedding_result "fixed_size_with_overlap");
   ("sentence_based", embedding_result "sentence_based");
   ("paragraph_based", embedding_result "paragraph_based")]%string.

End Sample.


(* ================================================================== *)
(** * Further notions used in the statements *)
(* ================================================================== *)

Module Shape.

(** [c] occurs in [text] as a contiguous piece. *)
Definition is_factor (c text : str) : Prop :=
  exists a b, text = a ++ c ++ b.

(** A text of whitespace only (the empty text included). *)
Definition blank (s : str) : Prop := Forall (fun c => is_space c = true) s.

(** The test for [blank]. *)
Definition is_blank (s : str) : bool := forallb is_space s.

(** [c] is not empty and neither starts nor ends with whitespace. *)
Definition trimmed (c : str) : Prop :=
  match c with
  | [] => False
  | x :: _ => is_space x = false /\ is_space (last c x) = false
  end.

(** [c] is the trimmed form of [p]: [p] is [c] between two runs of
    whitespace. *)
Definition trim_of (p c : str) : Prop :=
  trimmed c /\ exists a b, p = a ++ c ++ b /\ blank a /\ blank b.

(** Number of windows of width [k >= 1] needed to cover [n] items. *)
Definition num_groups (n : nat) (k : Z) : nat :=
  Z.to_nat ((Z.of_nat n + k - 1) / k).

(** The consecutive groups of [k] items of [l] (the last one may be
    shorter). *)
Definition groups {A : Type} (k : Z) (l : list A) : list (list A) :=
  List.map (fun j => firstn (Z.to_nat k) (skipn (j * Z.to_nat k) l))
           (seq 0 (num_groups (length l) k)).

(** No position of [s] starts a match of [\n\s*\n]. *)
Fixpoint no_blank_line (s : str) : bool :=
  match s with
  | [] => true
  | _ :: s' =>
    match TextSplitter.paragraph_pattern None s with
    | Some _ => false
    | None => no_blank_line s'
    end
  end.

End Shape.

Module Outcome.

(** The iteration of [select_best_strategy] for the key [name] raises
    [e]: the embeddings of that strategy are missing, or its evaluation
    raises. *)
Definition step_fails
    (strategy_results : TextSplitter.dict TextSplitter.ChunkResult)
    (embedding_results : TextSplitter.dict EmbeddingGenerator.EmbeddingResult)
    (original_text : str) (name : string) (e : exn) : Prop :=
  exists chunk_result,
    TextSplitter.dict_get strategy_results name = Ok chunk_result /\
    (TextSplitter.dict_get embedding_results name = Err e \/
     exists embedding_result,
       TextSplitter.dict_get embedding_results name = Ok embedding_result /\
       StrategyEvaluator.evaluate_strategy name
         (TextSplitter.chunks chunk_result)
         (EmbeddingGenerator.embeddings embedding_result) original_text = Err e).

End Outcome.

(* ================================================================== *)
(** * embedding_generator.py *)
(* ================================================================== *)

Module Embedder.

Import TextSplitter.

(** The remote embedding service behind [genai.embed_content]: its
    answer to the [n]-th call, on the given text; [None] when the call
    raises. *)
Definition api : Type := nat -> str -> option (list R).

(** [generate_embedding]: the vector of the service, or an exception;
    the second component counts the calls made so far. *)
Definition generate_embedding (service : api) (calls : nat) (text : str)
    : option (list R) * nat :=
  (service calls text, S calls).

(** [[0.0] * 768] *)
Definition zero_vector : list R := repeat 0%R 768.

(** The [try] / [except] around one chunk: a failed call is replaced by
    the zero vector. *)
Definition embed_chunk (service : api) (st : list (list R) * nat) (chunk : str)
    : list (list R) * nat :=
  let '(embeddings, calls) := st in
  match generate_embedding service calls chunk with
  | (Some embedding, calls') => (embeddings ++ [embedding], calls')
  | (None, calls') => (embeddings ++ [zero_vector], calls')
  end.

(** [time.sleep(delay)] for a finite [delay]. The interpreter first
    converts the delay to a signed 64-bit count of nanoseconds and
    raises [OverflowError] when it does not fit; a negative delay then
    raises [ValueError]; otherwise the call returns after the delay. *)
Definition sleep (delay : Q) : result unit :=
  let nanoseconds := (delay * 1000000000)%Q in
  if negb (Qle_bool (- 9223372036854775808) nanoseconds)
     || negb (Qle_bool nanoseconds 9223372036854775807)
  then Err OverflowError
  else if Qle_bool 0 delay then Ok tt else Err ValueError.

(** Body of [for i in range(0, total, batch_size)]. *)
Definition batch_step (service : api) (chunks : list str) (batch_size : Z)
    (delay : Q) (st : list (list R) * nat) (i : Z)
    : result (list (list R) * nat) :=
  let total := Z.of_nat (length chunks) in
  let batch := slice chunks i (i + batch_size)%Z in
  let st := fold_left (embed_chunk service) batch st in
  if (i + batch_size <? total)%Z
  then (_ <- sleep delay ;; Ok st)
  else Ok st.

Definition generate_embeddings_batch (service : api) (calls : nat)
    (chunks : list str) (strategy : string) (batch_size : Z) (delay : Q)
    : result (EmbeddingGenerator.EmbeddingResult * nat) :=
  let total := Z.of_nat (length chunks) in
  idx <- range 0 total batch_size ;;
  st <- StrategyEvaluator.for_each
          (batch_step service chunks batch_size delay) idx ([], calls) ;;
  let '(embeddings, calls) := st in
  let dimension :=
    match embeddings with
    | e :: _ => length e
    | [] => 0
    end in
  Ok ({| EmbeddingGenerator.embeddings := embeddings;
         EmbeddingGenerator.chunks := chunks;
         EmbeddingGenerator.strategy := strategy;
         EmbeddingGenerator.dimension := dimension;
         EmbeddingGenerator.total_chunks := length chunks |}, calls).

(** Body of [for strategy_name, chunk_result in strategy_results.items()]. *)
Definition strategy_step (service : api)
    (st : dict EmbeddingGenerator.EmbeddingResult * nat)
    (item : string * ChunkResult)
    : result (dict EmbeddingGenerator.EmbeddingResult * nat) :=
  let '(all_embeddings, calls) := st in
  let '(strategy_name, chunk_result) := item in
  r <- generate_embeddings_batch service calls
         (TextSplitter.chunks chunk_result) (TextSplitter.strategy chunk_result)
         10 (1 # 2) ;;
  let '(embedding_result, calls) := r in
  Ok (dict_set all_embeddings strategy_name embedding_result, calls).

Definition generate_for_all_strategies (service : api) (calls : nat)
    (strategy_results : dict ChunkResult)
    : result (dict EmbeddingGenerator.EmbeddingResult * nat) :=
  StrategyEvaluator.for_each (strategy_step service) strategy_results ([], calls).

(** What the batch loop stores for the [j]-th chunk when the service
    has been called [calls] times before. *)
Definition embedding_of (service : api) (calls : nat) (j : nat) (chunk : str)
    : list R :=
  match service (calls + j) chunk with
  | Some embedding => embedding
  | None => zero_vector
  end.

Fixpoint embeddings_from (service : api) (calls : nat) (chunks : list str)
    : list (list R) :=
  match chunks with
  | [] => []
  | chunk :: rest =>
    embedding_of service calls 0 chunk :: embeddings_from service (S calls) rest
  end.

End Embedder.

(* ================================================================== *)
(** * file_reader.py (text assembly) *)
(* ================================================================== *)

Module FileReader.

(** [sep.join(parts)] *)
Fixpoint join (sep : str) (parts : list str) : str :=
  match parts with
  | [] => []
  | [s] => s
  | s :: rest => s ++ sep ++ join sep rest
  end.

(** [read_docx] on the paragraph texts of the opened document: the
    paragraphs that are not blank, joined by newlines. *)
Definition read_docx (paragraph_texts : list str) : str :=
  let text_parts := List.filter (fun text => truthy (strip text)) paragraph_texts in
  join [NEWLINE] text_parts.

(** [read_pdf] on the extracted page texts: the non-empty ones, joined
    by newlines. *)
Definition read_pdf (page_texts : list str) : str :=
  let text_parts := List.filter (fun page_text => truthy page_text) page_texts in
  join [NEWLINE] text_parts.

End FileReader.

(* ================================================================== *)
(** * database.py (save_chunks) *)
(* ================================================================== *)

Module Database.

(** The columns that [save_chunks] supplies for one row. *)
Record Row : Type := mkRow {
  filename : string;
  chunk_text : str;
  chunk_index : nat;
  embedding_vector : list R;
  split_strategy : string;
  chunk_size : nat
}.

(** The errors of [save_chunks]: the [ValueError] that reports both
    counts, and the [RuntimeError] that wraps any database failure. *)
Inductive error : Type :=
| CountMismatch (chunks_count embeddings_count : nat)
| RuntimeError.

(** The database server as [save_chunks] meets it: whether a connection
    can be opened, whether it executes a given insert, whether the
    commit succeeds. *)
Record Server : Type := mkServer {
  connects : bool;
  executes : Row -> bool;
  commits : bool
}.

(** [enumerate(zip(chunks, embeddings))], turned into the parameter
    tuples of the insert statement. *)
Fixpoint rows_from (idx : nat) (filename strategy : string)
    (chunks : list str) (embeddings : list (list R)) : list Row :=
  match chunks, embeddings with
  | chunk :: chunks', embedding :: embeddings' =>
    {| filename := filename;
       chunk_text := chunk;
       chunk_index := idx;
       embedding_vector := embedding;
       split_strategy := strategy;
       chunk_size := length chunk |}
    :: rows_from (S idx) filename strategy chunks' embeddings'
  | _, _ => []
  end.

(** [save_chunks] on a table of committed rows: the outcome and the
    table afterwards. A failure up to the commit leaves the transaction
    uncommitted, so the table is unchanged. What follows the commit is
    still inside the [try] block: leaving the two [with] blocks (which
    closes the cursor and the connection) and printing the report;
    [finishes] tells whether these succeed. When they do not, the
    [RuntimeError] is raised although the rows are stored. *)
Definition save_chunks (server : Server) (finishes : bool) (table : list Row)
    (filename : string) (chunks : list str) (embeddings : list (list R))
    (strategy : string) : (nat + error) * list Row :=
  if negb (length chunks =? length embeddings)%nat
  then (inr (CountMismatch (length chunks) (length embeddings)), table)
  else
    let rows := rows_from 0 filename strategy chunks embeddings in
    if connects server && forallb (executes server) rows && commits server
    then
      if finishes
      then (inl (length rows), table ++ rows)
      else (inr RuntimeError, table ++ rows)
    else (inr RuntimeError, table).

(** The server opens the connection, executes the insert of every one
    of the rows and commits. *)
Definition accepted (server : Server) (rows : list Row) : Prop :=
  connects server = true /\
  Forall (fun row => executes server row = true) rows /\
  commits server = true.

End Database.

(* ================================================================== *)
(** * index_documents.py (main) *)
(* ================================================================== *)

Module Main.

Import TextSplitter.

(** What [main] meets outside the core: the file reader, the
    environment of the two constructors, the embedding service and the
    database server. *)
Record World : Type := mkWorld {
  read_file : string -> option (str * string);
  api_key_set : bool;
  service : Embedder.api;
  database_reachable : bool;
  server : Database.Server
}.

(** The exit code of [main] and the table of the database afterwards,
    for a run in which every write to the console succeeds: the [print]
    calls of [main] and of the functions it calls are not modelled, and
    the steps after the commit in [save_chunks] are taken to succeed.
    Under this assumption every exception is raised inside the [try]
    block and turned into exit code 1. (A failing [print] before the
    [try] block, or inside a handler, would leave [main] as an
    exception; such runs are outside the model.) The outer [option] is
    the fuel of the fixed-size loop. *)
Definition main (world : World) (table : list Database.Row) (filepath : string)
    : option (Z * list Database.Row) :=
  match read_file world filepath with
  | None => Some (1%Z, table)
  | Some (text, filename) =>
    if IndexDocuments.too_short text then Some (1%Z, table)
    else
      match split_all_strategies text with
      | None => None
      | Some (Err _) => Some (1%Z, table)
      | Some (Ok strategy_results) =>
        if negb (api_key_set world) then Some (1%Z, table)
        else
          match Embedder.generate_for_all_strategies (service world) 0
                  strategy_results with
          | Err _ => Some (1%Z, table)
          | Ok (embedding_results, _) =>
            match StrategyEvaluator.select_best_strategy strategy_results
                    embedding_results text with
            | Err _ => Some (1%Z, table)
            | Ok (best_strategy, best_metrics, all_metrics) =>
              if negb (database_reachable world) then Some (1%Z, table)
              else
                match dict_get strategy_results best_strategy,
                      dict_get embedding_results best_strategy with
                | Ok chunk_result, Ok embedding_result =>
                  let best_chunks := TextSplitter.chunks chunk_result in
                  let best_embeddings :=
                    EmbeddingGenerator.embeddings embedding_result in
                  match Database.save_chunks (server world) true table filename
                          best_chunks best_embeddings best_strategy with
                  | (inl saved_count, table') => Some (0%Z, table')
                  | (inr _, table') => Some (1%Z, table')
                  end
                | _, _ => Some (1%Z, table)
                end
            end
          end
      end
  end.

End Main.

(** A world in which every collaborator works, except that every call
    of the embedding service fails: the reader returns one hundred
    letters for any path. *)
Module SampleWorld.

Definition text : str := repeat 120%N 100.

Definition world : Main.World :=
  {| Main.read_file := fun _ => Some (text, "doc.pdf"%string);
     Main.api_key_set := true;
     Main.service := fun _ _ => None;
     Main.database_reachable := true;
     Main.server := {| Database.connects := true;
                       Database.executes := fun _ => true;
                       Database.commits := true |} |}.

End SampleWorld.
(* ================================================================== *)
(** * Properties of the splitter *)
(* ================================================================== *)

Section FixedSize.

Import TextSplitter.

Variables (text : str) (chunk_size overlap : Z).

Lemma fixed_size_loop_unfold (fuel : nat) (start : Z) (acc : list str) :
  fixed_size_loop fuel text chunk_size overlap start acc =
  if (start <? Z.of_nat (length text))%Z then
    match fuel with
    | O => None
    | S fuel' =>
      fixed_size_loop fuel' text chunk_size overlap
        (start + (chunk_size - overlap))%Z
        (append_if_truthy acc (strip (slice text start (start + chunk_size)%Z)))
    end
  else Some acc.
Proof. destruct fuel; reflexivity. Qed.

Hypothesis valid : (overlap < chunk_size)%Z.

Lemma fixed_size_loop_enough (fuel : nat) :
  forall start acc, remaining text start <= fuel ->
    exists out, fixed_size_loop fuel text chunk_size overlap start acc = Some out.
Proof using valid.
  unfold remaining.
  induction fuel as [|fuel IH]; intros start acc Hfuel;
    rewrite fixed_size_loop_unfold;
    destruct (Z.ltb_spec start (Z.of_nat (length text))) as [Hlt|Hge];
    try (eexists; reflexivity).
  - lia.
  - apply IH. lia.
Qed.

Lemma fixed_size_loop_fuel_irrelevant (fuel1 : nat) :
  forall fuel2 start acc, remaining text start <= fuel1 -> remaining text start <= fuel2 ->
    fixed_size_loop fuel1 text chunk_size overlap start acc =
    fixed_size_loop fuel2 text chunk_size overlap start acc.
Proof using valid.
  unfold remaining.
  induction fuel1 as [|fuel1 IH]; intros fuel2 start acc H1 H2;
    rewrite (fixed_size_loop_unfold fuel2), fixed_size_loop_unfold;
    destruct (Z.ltb_spec start (Z.of_nat (length text))) as [Hlt|Hge];
    try reflexivity.
  - lia.
  - destruct fuel2 as [|fuel2]; [lia|].
    apply IH; lia.
Qed.

End FixedSize.

(** With [overlap < chunk_size] the loop started at 0 needs at most
    [len(text)] iterations, and more fuel does not change its result. *)
Lemma fixed_size_fuel_enough (text : str) (chunk_size overlap : Z) :
  (overlap < chunk_size)%Z ->
  exists r : TextSplitter.ChunkResult,
    forall fuel, length text <= fuel ->
      TextSplitter.fixed_size_with_overlap_fuel fuel text chunk_size overlap
      = Some (Ok r).
Proof.
  intros Hvalid.
  assert (Hrem : TextSplitter.remaining text 0 = length text)
    by (unfold TextSplitter.remaining; lia).
  destruct (fixed_size_loop_enough text chunk_size overlap Hvalid (length text) 0%Z [])
    as [out Hout]; [lia|].
  eexists. intros fuel Hfuel.
  unfold TextSplitter.fixed_size_with_overlap_fuel.
  destruct (Z.geb_spec overlap chunk_size) as [Hge|_]; [lia|].
  rewrite (fixed_size_loop_fuel_irrelevant text chunk_size overlap Hvalid fuel (length text) 0%Z [])
    by lia.
  rewrite Hout. reflexivity.
Qed.

(** C9. Whenever [overlap < chunk_size] (the configuration error is not
    raised), [fixed_size_with_overlap] terminates: every iteration moves
    the window start forward by [chunk_size - overlap >= 1], so
    [len(text)] iterations are enough, and any larger budget gives the
    same result. *)
Theorem fixed_size_with_overlap_terminates :
  forall (text : str) (chunk_size overlap : Z),
    (overlap < chunk_size)%Z ->
    exists r : TextSplitter.ChunkResult,
      forall fuel, length text <= fuel ->
        TextSplitter.fixed_size_with_overlap_fuel fuel text chunk_size overlap
        = Some (Ok r).
Proof.
  intros text chunk_size overlap Hvalid.
  destruct (Z.geb_spec overlap chunk_size) as [Hge|Hlt]; [lia|].
  destruct (fixed_size_loop_enough text chunk_size overlap Hvalid (length text) 0%Z [])
    as [out Hout]; [unfold TextSplitter.remaining; lia|].
  exists {| TextSplitter.chunks := out;
            TextSplitter.strategy := "fixed_size_with_overlap";
            TextSplitter.num_chunks := length out;
            TextSplitter.avg_chunk_size := TextSplitter.avg_size out |}.
  intros fuel Hfuel.
  unfold TextSplitter.fixed_size_with_overlap_fuel.
  destruct (Z.geb_spec overlap chunk_size) as [Hge|_]; [lia|].
  rewrite (fixed_size_loop_fuel_irrelevant text chunk_size overlap Hvalid
             fuel (length text) 0%Z [])
    by (unfold TextSplitter.remaining; lia).
  rewrite Hout. reflexivity.
Qed.

Lemma fixed_size_with_overlap_terminates_witness :
  (50 < 500)%Z /\
  exists r : TextSplitter.ChunkResult,
    forall fuel, length (str_of "abc def") <= fuel ->
      TextSplitter.fixed_size_with_overlap_fuel fuel (str_of "abc def") 500 50
      = Some (Ok r).
Proof.
  split; [lia|].
  apply (fixed_size_with_overlap_terminates (str_of "abc def") 500 50). lia.
Defined.

(** The configuration error of the fixed-size strategy. *)
Lemma fixed_size_with_overlap_config_error :
  forall fuel text chunk_size overlap,
    (chunk_size <= overlap)%Z ->
    TextSplitter.fixed_size_with_overlap_fuel fuel text chunk_size overlap
    = Some (Err ValueError).
Proof.
  intros fuel text chunk_size overlap H.
  unfold TextSplitter.fixed_size_with_overlap_fuel.
  destruct (Z.geb_spec overlap chunk_size); [reflexivity|lia].
Qed.

(** The wrapper that runs the loop with [len(text)] units of fuel always
    returns for valid parameters. *)
Lemma fixed_size_with_overlap_returns :
  forall text chunk_size overlap,
    (overlap < chunk_size)%Z ->
    exists r, TextSplitter.fixed_size_with_overlap text chunk_size overlap = Some (Ok r).
Proof.
  intros text chunk_size overlap H.
  destruct (fixed_size_fuel_enough text chunk_size overlap H) as [r Hr].
  exists r. apply Hr. lia.
Qed.

(** ** Whitespace trimming *)

Section Strip.

Lemma dropwhile_suffix {A : Type} (p : A -> bool) (l : list A) :
  exists a, l = a ++ dropwhile p l /\ forallb p a = true.
Proof.
  induction l as [|x l [a [Ha Hp]]]; simpl.
  - exists []. split; reflexivity.
  - destruct (p x) eqn:Hx.
    + exists (x :: a). simpl. rewrite Hx, Hp. split; [f_equal; exact Ha|reflexivity].
    + exists []. split; reflexivity.
Qed.

Lemma dropwhile_head {A : Type} (p : A -> bool) (l : list A) x l' :
  dropwhile p l = x :: l' -> p x = false.
Proof.
  induction l as [|y l IH]; simpl; [discriminate|].
  destruct (p y) eqn:Hy; [exact IH|].
  intros H. inversion H; subst. exact Hy.
Qed.

Lemma dropwhile_fixed {A : Type} (p : A -> bool) (l : list A) :
  dropwhile p (dropwhile p l) = dropwhile p l.
Proof.
  destruct (dropwhile p l) as [|x l'] eqn:E; [reflexivity|].
  simpl. rewrite (dropwhile_head p l x l' E). reflexivity.
Qed.

(** A trimmed string is a factor of the original. *)
Lemma strip_factor (s : str) :
  exists a b, s = a ++ strip s ++ b.
Proof.
  unfold strip, rstrip, lstrip.
  destruct (dropwhile_suffix is_space s) as [a [Ha _]].
  destruct (dropwhile_suffix is_space (rev (dropwhile is_space s))) as [b [Hb _]].
  exists a, (rev b).
  rewrite <- rev_app_distr, <- Hb, rev_involutive. exact Ha.
Qed.

(** Trimming never leaves whitespace at the front. *)
Lemma strip_head (s : str) c s' : strip s = c :: s' -> is_space c = false.
Proof.
  unfold strip, rstrip, lstrip. intros H.
  destruct (dropwhile_suffix is_space (rev (dropwhile is_space s))) as [b [Hb _]].
  apply (f_equal (@rev char)) in Hb. rewrite rev_involutive, rev_app_distr, H in Hb.
  simpl in Hb.
  eapply dropwhile_head. exact Hb.
Qed.

(** [strip] is idempotent. *)
Lemma strip_idempotent (s : str) : strip (strip s) = strip s.
Proof.
  assert (Hl : lstrip (strip s) = strip s).
  { destruct (strip s) as [|c s'] eqn:E; [reflexivity|].
    unfold lstrip. simpl. rewrite (strip_head s c s' E). reflexivity. }
  unfold strip at 1. rewrite Hl.
  unfold strip, rstrip. rewrite rev_involutive, dropwhile_fixed. reflexivity.
Qed.

Lemma strip_blank s : Forall (fun c => is_space c = true) s -> strip s = [].
Proof.
  intros H. unfold strip, lstrip.
  assert (Hd : dropwhile is_space s = []).
  { induction H as [|c s Hc _ IH]; simpl; [reflexivity|]. rewrite Hc. exact IH. }
  rewrite Hd. reflexivity.
Qed.

Lemma truthy_nonempty {A : Type} (l : list A) : truthy l = true <-> l <> [].
Proof. destruct l; simpl; split; intros; congruence. Qed.

Lemma dropwhile_nil_blank (s : str) : dropwhile is_space s = [] -> Shape.blank s.
Proof.
  intros H. destruct (dropwhile_suffix is_space s) as [a [Ha Hp]].
  rewrite H, app_nil_r in Ha. subst a.
  apply Forall_forall. apply forallb_forall. exact Hp.
Qed.

(** Trimming leaves nothing exactly for whitespace-only strings. *)
Lemma strip_nil_blank (s : str) : strip s = [] -> Shape.blank s.
Proof.
  unfold strip, rstrip, lstrip. intros H.
  apply (f_equal (@rev char)) in H. rewrite rev_involutive in H. simpl in H.
  apply dropwhile_nil_blank in H.
  assert (Hl : Shape.blank (dropwhile is_space s)).
  { unfold Shape.blank in *. apply Forall_forall. intros c Hc.
    rewrite Forall_forall in H. apply H. apply in_rev in Hc. exact Hc. }
  destruct (dropwhile is_space s) as [|c s'] eqn:E.
  - apply dropwhile_nil_blank. exact E.
  - inversion Hl as [|? ? Hc _]; subst.
    rewrite (dropwhile_head is_space s c s' E) in Hc. discriminate.
Qed.

Lemma strip_blank_iff (s : str) : strip s = [] <-> Shape.blank s.
Proof. split; [apply strip_nil_blank|apply strip_blank]. Qed.

(** Trimming never leaves whitespace at the end. *)
Lemma strip_last (s : str) c s' d :
  strip s = c :: s' -> is_space (last (c :: s') d) = false.
Proof.
  unfold strip, rstrip. intros H.
  destruct (dropwhile is_space (rev (lstrip s))) as [|y l] eqn:E;
    [discriminate|].
  rewrite <- H. cbn [rev]. rewrite last_last.
  eapply dropwhile_head. exact E.
Qed.

(** Trimming removes a run of whitespace at either end and nothing
    else. *)
Lemma strip_between_blanks (s : str) :
  exists a b, s = a ++ strip s ++ b /\ Shape.blank a /\ Shape.blank b.
Proof.
  unfold strip, rstrip, lstrip.
  destruct (dropwhile_suffix is_space s) as [a [Ha Hpa]].
  destruct (dropwhile_suffix is_space (rev (dropwhile is_space s))) as [b [Hb Hpb]].
  exists a, (rev b). split; [|split].
  - rewrite <- rev_app_distr, <- Hb, rev_involutive. exact Ha.
  - apply Forall_forall. apply forallb_forall. exact Hpa.
  - apply Forall_forall. intros x Hx. apply in_rev in Hx.
    rewrite forallb_forall in Hpb. apply Hpb. exact Hx.
Qed.

Lemma is_blank_spec (s : str) : Shape.is_blank s = true <-> Shape.blank s.
Proof.
  unfold Shape.is_blank, Shape.blank. rewrite forallb_forall, Forall_forall.
  reflexivity.
Qed.

(** The test of the sentence filter keeps what is not blank. *)
Lemma truthy_strip (s : str) : truthy (strip s) = negb (Shape.is_blank s).
Proof.
  destruct (Shape.is_blank s) eqn:E.
  - apply is_blank_spec in E. rewrite (strip_blank s E). reflexivity.
  - destruct (strip s) eqn:Hs; [|reflexivity].
    apply strip_nil_blank in Hs. apply is_blank_spec in Hs. congruence.
Qed.

(** What trimming returns for a string that is not blank is the trimmed
    form of that string. *)
Lemma strip_trim_of (s : str) :
  Shape.is_blank s = false -> Shape.trim_of s (strip s).
Proof.
  intros Hnb. unfold Shape.trim_of.
  pose proof (truthy_strip s) as Ht. rewrite Hnb in Ht.
  destruct (strip s) as [|c s'] eqn:Hs; [discriminate|].
  split.
  - split; [eapply strip_head; exact Hs|eapply strip_last; exact Hs].
  - rewrite <- Hs. apply strip_between_blanks.
Qed.

(** A string has one trimmed form. *)
Lemma blank_prefix_unique (a a' : str) :
  forall x r x' r',
    Shape.blank a -> Shape.blank a' ->
    is_space x = false -> is_space x' = false ->
    a ++ x :: r = a' ++ x' :: r' -> a = a'.
Proof.
  revert a'. induction a as [|y a IH]; intros a' x r x' r' Ha Ha' Hx Hx' H.
  - destruct a' as [|y' a']; [reflexivity|].
    cbn [app] in H. injection H as Hy _.
    inversion Ha' as [|? ? Hy' _]. congruence.
  - destruct a' as [|y' a'].
    + cbn [app] in H. injection H as Hy _.
      inversion Ha as [|? ? Hy' _]. congruence.
    + cbn [app] in H. injection H as Hy H. subst y'.
      unfold Shape.blank in Ha, Ha'.
      apply Forall_inv_tail in Ha. apply Forall_inv_tail in Ha'.
      f_equal. exact (IH a' x r x' r' Ha Ha' Hx Hx' H).
Qed.

Lemma trim_of_unique (p c c' : str) :
  Shape.trim_of p c -> Shape.trim_of p c' -> c = c'.
Proof.
  intros [Hc [a [b [Hp [Ha Hb]]]]] [Hc' [a' [b' [Hp' [Ha' Hb']]]]].
  destruct c as [|x r]; [destruct Hc|].
  destruct c' as [|x' r']; [destruct Hc'|].
  destruct Hc as [Hx Hl]. destruct Hc' as [Hx' Hl'].
  assert (Haa : a = a').
  { apply (blank_prefix_unique a a' x (r ++ b) x' (r' ++ b') Ha Ha' Hx Hx').
    rewrite Hp in Hp'. exact Hp'. }
  subst a'. rewrite Hp in Hp'. apply app_inv_head in Hp'.
  assert (Hbb : rev b = rev b').
  { destruct (exists_last (l := x :: r) ltac:(discriminate)) as [m [z Hm]].
    destruct (exists_last (l := x' :: r') ltac:(discriminate)) as [m' [z' Hm']].
    rewrite Hm in Hl. rewrite last_last in Hl.
    rewrite Hm' in Hl'. rewrite last_last in Hl'.
    apply (f_equal (@rev char)) in Hp'.
    rewrite !rev_app_distr, Hm, Hm', !rev_app_distr in Hp'. cbn [rev app] in Hp'.
    apply (blank_prefix_unique (rev b) (rev b') z (rev m) z' (rev m')).
    - apply Forall_forall. intros y Hy. apply in_rev in Hy.
      unfold Shape.blank in Hb. rewrite Forall_forall in Hb. apply Hb. exact Hy.
    - apply Forall_forall. intros y Hy. apply in_rev in Hy.
      unfold Shape.blank in Hb'. rewrite Forall_forall in Hb'. apply Hb'. exact Hy.
    - exact Hl.
    - exact Hl'.
    - exact Hp'. }
  apply (f_equal (@rev char)) in Hbb. rewrite !rev_involutive in Hbb. subst b'.
  apply app_inv_tail in Hp'. exact Hp'.
Qed.

End Strip.


(** ** Sentence segmentation *)

Section Sentences.

Import TextSplitter Aux.

Lemma sentence_pattern_boundary prev c rest :
  sentence_pattern prev (c :: rest) =
  if boundary prev c then Some (dropwhile is_space (c :: rest)) else None.
Proof. destruct prev; reflexivity. Qed.

Lemma no_boundary_weaken prev s :
  no_boundary prev s = true -> no_boundary None s = true.
Proof.
  destruct s as [|c s]; simpl; [reflexivity|].
  intros H. apply andb_prop in H. apply H.
Qed.

Lemma no_boundary_app prev a b :
  no_boundary prev (a ++ b) = true ->
  no_boundary prev a = true /\ no_boundary None b = true.
Proof.
  revert prev. induction a as [|c a IH]; simpl; intros prev H.
  - split; [reflexivity|]. eapply no_boundary_weaken; exact H.
  - apply andb_prop in H. destruct H as [Hc H].
    destruct (IH _ H) as [Ha Hb]. rewrite Hc, Ha. split; [reflexivity|exact Hb].
Qed.

(** A text without a match position is a single piece. *)
Lemma re_split_no_boundary s :
  forall prev cur, no_boundary prev s = true ->
    re_split_aux sentence_pattern 0 prev cur s = [rev cur ++ s].
Proof.
  induction s as [|c s IH]; intros prev cur H.
  - simpl. rewrite app_nil_r. reflexivity.
  - cbn [re_split_aux]. rewrite sentence_pattern_boundary.
    simpl in H. apply andb_prop in H. destruct H as [Hc H].
    apply negb_true_iff in Hc. rewrite Hc.
    rewrite (IH _ _ H). simpl. rewrite <- app_assoc. reflexivity.
Qed.

(** No piece returned by the split contains a match position. *)
Lemma re_split_aux_pieces s :
  forall skip prev cur,
    (skip <> 0 -> cur = []) ->
    (forall t, no_boundary prev t = true -> no_boundary None (rev cur ++ t) = true) ->
    Forall (fun p => no_boundary None p = true)
           (re_split_aux sentence_pattern skip prev cur s).
Proof.
  induction s as [|c s IH]; intros skip prev cur Hskip Hext.
  - simpl. constructor; [|constructor].
    rewrite <- (app_nil_r (rev cur)). apply Hext. reflexivity.
  - cbn [re_split_aux]. destruct skip as [|k].
    + rewrite sentence_pattern_boundary.
      destruct (boundary prev c) eqn:Hb.
      * constructor.
        -- rewrite <- (app_nil_r (rev cur)). apply Hext. reflexivity.
        -- apply IH; [reflexivity|]. intros t Ht. simpl.
           eapply no_boundary_weaken; exact Ht.
      * apply IH; [congruence|]. intros t Ht.
        simpl. rewrite <- app_assoc. simpl. apply Hext.
        simpl. rewrite Hb, Ht. reflexivity.
    + rewrite (Hskip ltac:(discriminate)).
      apply IH; [reflexivity|]. intros t Ht. simpl.
      eapply no_boundary_weaken; exact Ht.
Qed.

Lemma re_split_pieces text :
  Forall (fun p => no_boundary None p = true) (re_split sentence_pattern text).
Proof.
  apply re_split_aux_pieces; [congruence|]. intros t Ht. exact Ht.
Qed.

Lemma strip_no_boundary s :
  no_boundary None s = true -> no_boundary None (strip s) = true.
Proof.
  intros H. destruct (strip_factor s) as [a [b Hs]].
  rewrite Hs in H. apply no_boundary_app in H. destruct H as [_ H].
  apply no_boundary_app in H. apply H.
Qed.

(** Every cleaned sentence is trimmed, non-empty and free of match
    positions. *)
Lemma clean_sentences_spec pieces c :
  Forall (fun p => no_boundary None p = true) pieces ->
  In c (clean_sentences pieces) ->
  strip c = c /\ truthy c = true /\ no_boundary None c = true.
Proof.
  intros Hp Hin. unfold clean_sentences in Hin.
  apply in_map_iff in Hin. destruct Hin as [p [Hc Hin]].
  apply filter_In in Hin. destruct Hin as [Hin Ht].
  rewrite Forall_forall in Hp. subst c.
  split; [apply strip_idempotent|]. split; [exact Ht|].
  apply strip_no_boundary. apply Hp. exact Hin.
Qed.

Lemma clean_sentences_truthy pieces :
  Forall (fun s => truthy s = true) (clean_sentences pieces).
Proof.
  unfold clean_sentences. apply Forall_forall. intros c Hin.
  apply in_map_iff in Hin. destruct Hin as [p [Hc Hin]].
  apply filter_In in Hin. subst c. apply Hin.
Qed.

(** The cleaning step keeps the pieces that are not blank, each in its
    trimmed form. *)
Lemma clean_sentences_trim_of pieces :
  Forall2 Shape.trim_of
    (List.filter (fun p => negb (Shape.is_blank p)) pieces)
    (clean_sentences pieces).
Proof.
  unfold clean_sentences. induction pieces as [|p pieces IH]; [constructor|].
  cbn [List.filter]. rewrite truthy_strip.
  destruct (Shape.is_blank p) eqn:Hp; cbn [negb]; [exact IH|].
  cbn [List.map]. constructor; [apply strip_trim_of; exact Hp|exact IH].
Qed.

(** ** Grouping with one sentence per chunk *)

Lemma range_step_one n :
  range 0 (Z.of_nat n) 1 = Ok (List.map Z.of_nat (seq 0 n)).
Proof.
  unfold range. simpl. f_equal.
  assert (Hlen : range_len 0 (Z.of_nat n) 1 = n).
  { unfold range_len. simpl.
    destruct (Z.ltb_spec 0 (Z.of_nat n)).
    - rewrite Z.div_1_r. lia.
    - lia. }
  rewrite Hlen. apply map_ext. intros k. lia.
Qed.

Lemma slice_one {A : Type} (l : list A) (k : nat) :
  slice l (Z.of_nat k) (Z.of_nat k + 1) = firstn 1 (skipn k l).
Proof.
  unfold slice, adjust_index.
  destruct (Z.ltb_spec (Z.of_nat k) 0); [lia|].
  destruct (Z.ltb_spec (Z.of_nat k + 1) 0); [lia|].
  destruct (Nat.le_gt_cases (length l) k) as [Hle|Hgt].
  - rewrite (skipn_all2 l Hle).
    replace (Z.to_nat (Z.min (Z.of_nat k) (Z.of_nat (length l)))) with (length l) by lia.
    rewrite skipn_all. rewrite !firstn_nil. reflexivity.
  - replace (Z.to_nat (Z.min (Z.of_nat k) (Z.of_nat (length l)))) with k by lia.
    f_equal. lia.
Qed.

Lemma sentence_loop_one (sentences : list str) m :
  Forall (fun s => truthy s = true) sentences ->
  forall k acc, k + m <= length sentences ->
    fold_left (sentence_step sentences 1) (List.map Z.of_nat (seq k m)) acc
    = acc ++ firstn m (skipn k sentences).
Proof.
  intros Hall. induction m as [|m IH]; intros k acc Hk.
  - simpl. rewrite app_nil_r. reflexivity.
  - cbn [seq List.map fold_left]. rewrite IH by lia.
    unfold sentence_step. rewrite slice_one.
    destruct (skipn k sentences) as [|x rest] eqn:E.
    + apply (f_equal (@length str)) in E. rewrite length_skipn in E. simpl in E. lia.
    + assert (Hx : truthy x = true).
      { rewrite Forall_forall in Hall. apply Hall.
        rewrite <- (firstn_skipn k sentences), E. apply in_or_app. right. left. reflexivity. }
      assert (Hrest : skipn (S k) sentences = rest).
      { replace (S k) with (1 + k) by lia. rewrite <- skipn_skipn, E. reflexivity. }
      rewrite Hrest. cbn [firstn join_space]. rewrite ?E.
      unfold append_if_truthy. cbn [join_space]. rewrite Hx.
      rewrite <- app_assoc. reflexivity.
Qed.

Lemma sentence_based_one text :
  sentence_based_splitting text 1 =
  let sentences := clean_sentences (re_split sentence_pattern text) in
  Ok {| chunks := sentences;
        strategy := "sentence_based";
        num_chunks := length sentences;
        avg_chunk_size := avg_size sentences |}.
Proof.
  unfold sentence_based_splitting. rewrite range_step_one. cbn [Py.bind].
  rewrite (sentence_loop_one _ (length _) (clean_sentences_truthy _) 0 []) by lia.
  simpl. rewrite firstn_all. reflexivity.
Qed.

End Sentences.

(** C7. With one sentence per chunk the chunk list is the list of the
    sentences of the text, in order, without the blank ones and each in
    its trimmed form: a chunk is not empty, neither starts nor ends with
    whitespace, and is its sentence up to whitespace at the two ends.
    Here the sentences are the pieces into which [re.split] cuts the
    text at the whitespace that follows ".", "!" or "?". Splitting any
    one of these chunks again with one sentence per chunk gives back
    that chunk alone. *)
Theorem sentence_based_one_per_chunk :
  forall text : str,
    exists r : TextSplitter.ChunkResult,
      TextSplitter.sentence_based_splitting text 1 = Ok r /\
      Forall2 Shape.trim_of
        (List.filter (fun p => negb (Shape.is_blank p))
                     (re_split TextSplitter.sentence_pattern text))
        (TextSplitter.chunks r) /\
      TextSplitter.num_chunks r = length (TextSplitter.chunks r) /\
      forall c, In c (TextSplitter.chunks r) ->
        exists r' : TextSplitter.ChunkResult,
          TextSplitter.sentence_based_splitting c 1 = Ok r' /\
          TextSplitter.chunks r' = [c] /\
          TextSplitter.num_chunks r' = 1.
Proof.
  intros text. rewrite sentence_based_one. cbn zeta.
  eexists. split; [reflexivity|]. cbn [TextSplitter.chunks TextSplitter.num_chunks].
  split; [apply clean_sentences_trim_of|]. split; [reflexivity|].
  intros c Hin.
  destruct (clean_sentences_spec _ c (re_split_pieces text) Hin) as [Hs [Ht Hb]].
  rewrite sentence_based_one. cbn zeta.
  assert (Hc : TextSplitter.clean_sentences (re_split TextSplitter.sentence_pattern c) = [c]).
  { unfold re_split. rewrite (re_split_no_boundary c None [] Hb). simpl.
    unfold TextSplitter.clean_sentences. simpl. rewrite Hs, Ht. simpl.
    rewrite Hs. reflexivity. }
  rewrite Hc. eexists. split; [reflexivity|]. split; reflexivity.
Qed.

Lemma sentence_based_one_per_chunk_witness :
  exists r : TextSplitter.ChunkResult,
    TextSplitter.sentence_based_splitting
      (str_of "  Hi there. How are you?   Fine, thanks  ") 1 = Ok r /\
    TextSplitter.chunks r
    = [str_of "Hi there."; str_of "How are you?"; str_of "Fine, thanks"] /\
    Forall2 Shape.trim_of
      [str_of "  Hi there."; str_of "How are you?"; str_of "Fine, thanks  "]
      (TextSplitter.chunks r) /\
    exists r' : TextSplitter.ChunkResult,
      TextSplitter.sentence_based_splitting (str_of "Fine, thanks") 1 = Ok r' /\
      TextSplitter.chunks r' = [str_of "Fine, thanks"] /\
      TextSplitter.num_chunks r' = 1.
Proof.
  destruct (sentence_based_one_per_chunk
              (str_of "  Hi there. How are you?   Fine, thanks  "))
    as [r [Hr [Htrim [_ Hre]]]].
  exists r. split; [exact Hr|].
  assert (Hchunks : TextSplitter.chunks r
                    = [str_of "Hi there."; str_of "How are you?";
                       str_of "Fine, thanks"]).
  { vm_compute in Hr. injection Hr as <-. vm_compute. reflexivity. }
  split; [exact Hchunks|]. split.
  - exact Htrim.
  - apply Hre. rewrite Hchunks. right. right. left. reflexivity.
Defined.

(** C10. [sentence_based_splitting] validates nothing: a zero
    [sentences_per_chunk] raises the [ValueError] of [range] for every
    text, and a negative one silently yields the empty result (no chunks,
    count 0, average 0) for every text; the fixed-size strategy, by
    contrast, rejects [overlap >= chunk_size] with its own [ValueError]. *)
Theorem sentence_based_splitting_unvalidated :
  (forall text : str,
     TextSplitter.sentence_based_splitting text 0 = Err ValueError) /\
  (forall (text : str) (sentences_per_chunk : Z),
     (sentences_per_chunk < 0)%Z ->
     TextSplitter.sentence_based_splitting text sentences_per_chunk =
     Ok {| TextSplitter.chunks := [];
           TextSplitter.strategy := "sentence_based";
           TextSplitter.num_chunks := 0;
           TextSplitter.avg_chunk_size := 0%Q |}) /\
  (forall fuel (text : str) (chunk_size overlap : Z),
     (overlap >= chunk_size)%Z ->
     TextSplitter.fixed_size_with_overlap_fuel fuel text chunk_size overlap
     = Some (Err ValueError)).
Proof.
  split; [|split].
  - intros text. reflexivity.
  - intros text spc Hneg. unfold TextSplitter.sentence_based_splitting, range.
    destruct (Z.eqb_spec spc 0) as [H0|_]; [lia|].
    assert (Hlen : forall n, range_len 0 (Z.of_nat n) spc = 0).
    { intros n. unfold range_len.
      destruct (Z.ltb_spec 0 spc); [lia|].
      destruct (Z.ltb_spec (Z.of_nat n) 0); [lia|reflexivity]. }
    rewrite Hlen. reflexivity.
  - intros fuel text chunk_size overlap H.
    apply fixed_size_with_overlap_config_error. lia.
Qed.

Lemma sentence_based_splitting_unvalidated_witness :
  TextSplitter.sentence_based_splitting (str_of "One. Two.") 0 = Err ValueError /\
  TextSplitter.sentence_based_splitting (str_of "One. Two.") (-3) =
    Ok {| TextSplitter.chunks := [];
          TextSplitter.strategy := "sentence_based";
          TextSplitter.num_chunks := 0;
          TextSplitter.avg_chunk_size := 0%Q |} /\
  TextSplitter.fixed_size_with_overlap_fuel 9 (str_of "One. Two.") 5 5
    = Some (Err ValueError).
Proof.
  destruct sentence_based_splitting_unvalidated as [H0 [Hneg Hcfg]].
  split; [apply H0|]. split; [apply Hneg; lia|apply Hcfg; lia].
Defined.

(** ** Paragraph grouping *)

Section Paragraphs.

Import TextSplitter.

Lemma paragraph_loop_all_short (min_paragraph_length : Z) (paragraphs : list str) :
  (forall p, In p paragraphs ->
     (Z.of_nat (length (strip p)) < min_paragraph_length)%Z) ->
  fold_left (paragraph_step min_paragraph_length) paragraphs [] = [].
Proof.
  induction paragraphs as [|p ps IH]; intros Hshort; [reflexivity|].
  simpl. unfold paragraph_step at 2.
  destruct (Z.geb_spec (Z.of_nat (length (strip p))) min_paragraph_length) as [Hge|_].
  - specialize (Hshort p (or_introl eq_refl)). lia.
  - simpl. apply IH. intros q Hq. apply Hshort. right. exact Hq.
Qed.

Lemma paragraph_chunks_unfold text min_paragraph_length :
  chunks (paragraph_based_splitting text min_paragraph_length) =
  let chunks :=
    fold_left (paragraph_step min_paragraph_length)
              (re_split paragraph_pattern text) [] in
  if negb (truthy chunks) && truthy (strip text) then [strip text] else chunks.
Proof. reflexivity. Qed.

(** Every piece of a split is made of characters of the text. *)
Lemma re_split_aux_chars (P : char -> Prop) m s :
  forall skip prev cur,
    Forall P cur -> Forall P s ->
    Forall (Forall P) (re_split_aux m skip prev cur s).
Proof.
  induction s as [|c s IH]; intros skip prev cur Hcur Hs.
  - simpl. constructor; [|constructor]. apply Forall_rev. exact Hcur.
  - inversion Hs as [|? ? Hc Hs']; subst. cbn [re_split_aux].
    destruct skip as [|k]; [destruct (m prev (c :: s))|].
    + constructor; [apply Forall_rev; exact Hcur|]. apply IH; [constructor|exact Hs'].
    + apply IH; [constructor; assumption|exact Hs'].
    + apply IH; assumption.
Qed.

(** A text of whitespace only yields no chunk when the minimum
    paragraph length is positive. *)
Lemma paragraph_based_blank text min_paragraph_length :
  Forall (fun c => is_space c = true) text ->
  (0 < min_paragraph_length)%Z ->
  chunks (paragraph_based_splitting text min_paragraph_length) = [].
Proof.
  intros Hblank Hmin. rewrite paragraph_chunks_unfold. cbn zeta.
  rewrite paragraph_loop_all_short.
  - rewrite (strip_blank text Hblank). reflexivity.
  - intros p Hp.
    assert (Hpieces : Forall (Forall (fun c => is_space c = true))
                        (re_split paragraph_pattern text))
      by (apply re_split_aux_chars; [constructor|exact Hblank]).
    rewrite Forall_forall in Hpieces.
    rewrite (strip_blank p (Hpieces p Hp)). simpl. lia.
Qed.

End Paragraphs.

(** C8, counterexample. A text that consists of one blank is not empty,
    yet [paragraph_based_splitting] returns no chunk for it. *)
Lemma paragraph_based_blank_text_no_chunks :
  str_of " " <> [] /\
  TextSplitter.chunks (TextSplitter.paragraph_based_splitting (str_of " ") 100) = [] /\
  TextSplitter.num_chunks (TextSplitter.paragraph_based_splitting (str_of " ") 100) = 0.
Proof.
  split; [discriminate|]. split; vm_compute; reflexivity.
Qed.

(** C8, amended. For every text that is non-empty after trimming,
    [paragraph_based_splitting] returns a non-empty chunk list; if no
    paragraph meets the minimum length, the result is the single chunk
    holding the whole trimmed text. *)
Theorem paragraph_based_nonempty :
  forall (text : str) (min_paragraph_length : Z),
    strip text <> [] ->
    TextSplitter.chunks
      (TextSplitter.paragraph_based_splitting text min_paragraph_length) <> [] /\
    ((forall p, In p (re_split TextSplitter.paragraph_pattern text) ->
        (Z.of_nat (length (strip p)) < min_paragraph_length)%Z) ->
     TextSplitter.chunks
       (TextSplitter.paragraph_based_splitting text min_paragraph_length)
     = [strip text]).
Proof.
  intros text mpl Htext.
  assert (Ht : truthy (strip text) = true)
    by (destruct (strip text); [congruence|reflexivity]).
  rewrite paragraph_chunks_unfold. cbn zeta. split.
  - destruct (fold_left _ _ _) as [|c cs]; simpl.
    + rewrite Ht. discriminate.
    + discriminate.
  - intros Hshort. rewrite (paragraph_loop_all_short _ _ Hshort). simpl.
    rewrite Ht. reflexivity.
Qed.

Lemma paragraph_based_nonempty_witness :
  strip (str_of " short text ") <> [] /\
  TextSplitter.chunks
    (TextSplitter.paragraph_based_splitting (str_of " short text ") 100) <> [].
Proof.
  assert (H : strip (str_of " short text ") <> []) by (vm_compute; discriminate).
  split; [exact H|].
  apply (paragraph_based_nonempty (str_of " short text ") 100 H).
Defined.

(* ================================================================== *)
(** * Properties of the evaluator *)
(* ================================================================== *)

Section EvaluatorBasics.

Import TextSplitter StrategyEvaluator Aux.
Local Open Scope R_scope.

Lemma fltb_fin x y : fltb (Fin x) (Fin y) = true <-> x < y.
Proof.
  unfold fltb. destruct (Rlt_dec x y); split; intros; try assumption;
    try reflexivity; try discriminate; contradiction.
Qed.

Lemma fltb_fin_false x y : fltb (Fin x) (Fin y) = false <-> y <= x.
Proof.
  unfold fltb. destruct (Rlt_dec x y); split; intros; try reflexivity;
    try discriminate; lra.
Qed.

Lemma py_min_fin a b : py_min (Fin a) (Fin b) = Fin (Rmin a b).
Proof.
  unfold py_min, fltb, Rmin.
  destruct (Rlt_dec b a); destruct (Rle_dec a b); try reflexivity; f_equal; lra.
Qed.

Lemma truediv_zero a : truediv a 0 = Err ZeroDivisionError.
Proof. reflexivity. Qed.

Lemma truediv_nonzero a b :
  b <> 0%Z -> truediv a b = Ok (Fin (IZR a / IZR b)).
Proof.
  intros Hb. unfold truediv. destruct (Z.eqb_spec b 0); [contradiction|reflexivity].
Qed.

Lemma length_zero_iff {A : Type} (l : list A) : Z.of_nat (length l) = 0%Z <-> l = [].
Proof.
  destruct l; simpl; split; intros H; try reflexivity; try discriminate; lia.
Qed.

(** ** Coverage *)

Lemma calculate_coverage_score_empty_text chunks :
  calculate_coverage_score [] chunks = Err ZeroDivisionError.
Proof. reflexivity. Qed.

Lemma calculate_coverage_score_value original_text chunks :
  original_text <> [] ->
  calculate_coverage_score original_text chunks =
  Ok (Fin (Rmin 1 (IZR (Z.of_nat (total_len chunks))
                   / IZR (Z.of_nat (length original_text))))).
Proof.
  intros Ht. unfold calculate_coverage_score.
  rewrite truediv_nonzero by (rewrite length_zero_iff; exact Ht).
  cbn [Py.bind]. rewrite py_min_fin. reflexivity.
Qed.

Lemma coverage_bounds (total len : nat) :
  (0 < len)%nat ->
  0 <= Rmin 1 (IZR (Z.of_nat total) / IZR (Z.of_nat len)) <= 1.
Proof.
  intros Hlen. split.
  - apply Rmin_glb; [lra|].
    apply Rmult_le_pos.
    + apply IZR_le. lia.
    + left. apply Rinv_0_lt_compat. apply IZR_lt. lia.
  - apply Rmin_l.
Qed.

(** ** Chunk size statistics *)

Lemma Rsum_nonneg l : Forall (fun x => 0 <= x) l -> 0 <= Rsum l.
Proof.
  induction 1 as [|x l Hx _ IH]; simpl; lra.
Qed.

Lemma INR_length_pos {A : Type} (x : A) l : 0 < INR (length (x :: l)).
Proof. apply lt_0_INR. simpl. lia. Qed.

Lemma np_mean_cons x l :
  np_mean (x :: l) = Fin (Rsum (x :: l) / INR (length (x :: l))).
Proof. reflexivity. Qed.

Lemma mean_nonneg l :
  Forall (fun x => 0 <= x) l -> 0 <= Rsum l / INR (length l).
Proof.
  intros H. destruct l as [|x l].
  - simpl. lra.
  - apply Rmult_le_pos; [apply Rsum_nonneg; exact H|].
    left. apply Rinv_0_lt_compat. apply INR_length_pos.
Qed.

Lemma calculate_chunk_statistics_nonempty c chunks :
  exists avg std,
    calculate_chunk_statistics (c :: chunks) = (Fin avg, Fin std) /\
    0 <= avg /\ 0 <= std.
Proof.
  unfold calculate_chunk_statistics. cbn [List.map np_mean np_std].
  eexists. eexists. split; [reflexivity|]. split.
  - apply (mean_nonneg (INR (length c) :: List.map (fun chunk => INR (length chunk)) chunks)).
    constructor; [apply pos_INR|].
    apply Forall_forall. intros x Hx. apply in_map_iff in Hx.
    destruct Hx as [ch [<- _]]. apply pos_INR.
  - apply sqrt_pos.
Qed.

Lemma calculate_chunk_statistics_empty :
  calculate_chunk_statistics [] = (NaN, NaN).
Proof. reflexivity. Qed.

(** The size-consistency term of the score is a number in [0, 1]. *)
Lemma size_consistency_bounds avg std :
  0 <= avg -> 0 <= std ->
  exists sc,
    (if fgtb (Fin avg) (Fin 0)
     then np_div (Fin 1) (fadd (Fin 1) (np_div (Fin std) (Fin avg)))
     else Fin 0) = Fin sc /\ 0 <= sc <= 1.
Proof.
  intros Havg Hstd. unfold fgtb.
  destruct (fltb (Fin 0) (Fin avg)) eqn:Hpos.
  - apply fltb_fin in Hpos.
    unfold np_div at 2. destruct (Req_dec_T avg 0) as [H0|_]; [lra|].
    cbn [fadd lift2]. unfold np_div.
    assert (Hq : 0 <= std / avg).
    { apply Rmult_le_pos; [exact Hstd|]. left. apply Rinv_0_lt_compat. exact Hpos. }
    destruct (Req_dec_T (1 + std / avg) 0) as [H0|_]; [lra|].
    eexists. split; [reflexivity|].
    split.
    + apply Rmult_le_pos; [lra|]. left. apply Rinv_0_lt_compat. lra.
    + apply (Rmult_le_reg_r (1 + std / avg)); [lra|].
      unfold Rdiv at 1. rewrite Rmult_assoc, Rinv_l by lra. lra.
  - exists 0. split; [reflexivity|lra].
Qed.

(** ** Chunk-count term *)

Lemma chunk_count_term (n : nat) :
  (0 < n)%nat ->
  exists cc, truediv 50 (Z.of_nat n) = Ok (Fin (IZR 50 / IZR (Z.of_nat n))) /\
             py_min (Fin 1) (Fin (IZR 50 / IZR (Z.of_nat n))) = Fin cc /\
             0 < cc <= 1.
Proof.
  intros Hn. rewrite truediv_nonzero by lia.
  exists (Rmin 1 (IZR 50 / IZR (Z.of_nat n))).
  split; [reflexivity|]. split; [apply py_min_fin|].
  split; [|apply Rmin_l].
  apply Rmin_glb_lt; [lra|].
  apply Rmult_lt_0_compat; [lra|].
  apply Rinv_0_lt_compat. apply IZR_lt. lia.
Qed.

End EvaluatorBasics.

(** ** Embedding similarity *)

Section Similarity.

Import TextSplitter StrategyEvaluator Aux.
Local Open Scope R_scope.

Lemma cosine_similarity_shaped (D : nat) emb1 emb2 :
  (0 < D)%nat -> length emb1 = D -> length emb2 = D ->
  cosine_similarity emb1 emb2 = Ok (dot (normalize emb1) (normalize emb2)).
Proof.
  intros HD H1 H2. unfold cosine_similarity. rewrite H1, H2.
  destruct (Nat.eqb_spec D 0) as [H0|_]; [lia|].
  rewrite Nat.eqb_refl. reflexivity.
Qed.

(** A row without features, or two rows of different widths, are
    rejected. *)
Lemma cosine_similarity_rejects emb1 emb2 :
  emb1 = [] \/ emb2 = [] \/ length emb1 <> length emb2 ->
  cosine_similarity emb1 emb2 = Err ValueError.
Proof.
  intros H. unfold cosine_similarity.
  destruct (length emb1 =? 0)%nat eqn:E1; [reflexivity|].
  destruct (length emb2 =? 0)%nat eqn:E2; [reflexivity|].
  apply Nat.eqb_neq in E1, E2.
  destruct H as [-> | [-> | H]]; try (simpl in *; congruence).
  apply Nat.eqb_neq in H. rewrite H. reflexivity.
Qed.

Lemma consecutive_similarities_step emb1 emb2 rest :
  consecutive_similarities (emb1 :: emb2 :: rest) =
  (sim <- cosine_similarity emb1 emb2 ;;
   similarities <- consecutive_similarities (emb2 :: rest) ;;
   Ok (sim :: similarities)).
Proof. reflexivity. Qed.

(** On well-shaped vectors the loop over consecutive pairs succeeds,
    yields one similarity per pair, and each similarity is the cosine
    of two vectors of the list. *)
Lemma consecutive_similarities_shaped (D : nat) (P : R -> Prop) embeddings :
  (0 < D)%nat -> well_shaped D embeddings ->
  (forall a b, In a embeddings -> In b embeddings ->
     P (dot (normalize a) (normalize b))) ->
  exists sims,
    consecutive_similarities embeddings = Ok sims /\
    length sims = pred (length embeddings) /\
    Forall P sims.
Proof.
  intros HD Hshape HP.
  induction embeddings as [|e1 rest IH].
  - exists []. repeat split. constructor.
  - destruct rest as [|e2 rest'].
    + exists []. repeat split. constructor.
    + inversion Hshape as [|? ? H1 Hrest]; subst.
      inversion Hrest as [|? ? H2 _]; subst.
      destruct (IH Hrest) as [sims [Hs [Hl Hall]]].
      { intros a b Ha Hb. apply HP; right; assumption. }
      rewrite consecutive_similarities_step.
      rewrite (cosine_similarity_shaped (length e1) e1 e2 HD eq_refl H2).
      cbn [Py.bind]. rewrite Hs. cbn [Py.bind].
      eexists. split; [reflexivity|]. split.
      * simpl. rewrite Hl. reflexivity.
      * constructor; [|exact Hall].
        apply HP; [left; reflexivity|right; left; reflexivity].
Qed.

Lemma calculate_embedding_similarity_short embeddings :
  (length embeddings < 2)%nat ->
  calculate_embedding_similarity embeddings = Ok (Fin 0).
Proof.
  intros H. unfold calculate_embedding_similarity.
  destruct (Nat.ltb_spec (length embeddings) 2); [reflexivity|lia].
Qed.

Lemma calculate_embedding_similarity_long embeddings :
  (2 <= length embeddings)%nat ->
  calculate_embedding_similarity embeddings =
  (similarities <- consecutive_similarities embeddings ;; Ok (np_mean similarities)).
Proof.
  intros H. unfold calculate_embedding_similarity.
  destruct (Nat.ltb_spec (length embeddings) 2); [lia|reflexivity].
Qed.

Lemma Rsum_bounds (lo hi : R) l :
  Forall (fun x => lo <= x <= hi) l ->
  lo * INR (length l) <= Rsum l <= hi * INR (length l).
Proof.
  induction 1 as [|x l Hx _ IH].
  - simpl. lra.
  - change (length (x :: l)) with (S (length l)). rewrite S_INR. simpl. lra.
Qed.

Lemma mean_bounds (lo hi : R) x l :
  Forall (fun y => lo <= y <= hi) (x :: l) ->
  lo <= Rsum (x :: l) / INR (length (x :: l)) <= hi.
Proof.
  intros H. pose proof (Rsum_bounds lo hi _ H) as Hs.
  pose proof (INR_length_pos x l) as Hn.
  split.
  - apply (Rmult_le_reg_r (INR (length (x :: l)))); [exact Hn|].
    unfold Rdiv. rewrite Rmult_assoc, Rinv_l by lra. lra.
  - apply (Rmult_le_reg_r (INR (length (x :: l)))); [exact Hn|].
    unfold Rdiv. rewrite Rmult_assoc, Rinv_l by lra. lra.
Qed.

(** On well-shaped vectors [calculate_embedding_similarity] returns a
    number; it lies in every interval that contains 0 and all the
    pairwise cosines. *)
Lemma calculate_embedding_similarity_shaped (D : nat) (lo hi : R) embeddings :
  (0 < D)%nat -> well_shaped D embeddings ->
  lo <= 0 <= hi ->
  (forall a b, In a embeddings -> In b embeddings ->
     lo <= dot (normalize a) (normalize b) <= hi) ->
  exists s, calculate_embedding_similarity embeddings = Ok (Fin s) /\ lo <= s <= hi.
Proof.
  intros HD Hshape H0 Hcos.
  destruct (Nat.lt_ge_cases (length embeddings) 2) as [Hshort|Hlong].
  - exists 0. split; [apply calculate_embedding_similarity_short; exact Hshort|exact H0].
  - rewrite calculate_embedding_similarity_long by exact Hlong.
    destruct (consecutive_similarities_shaped D (fun x => lo <= x <= hi)
                embeddings HD Hshape Hcos) as [sims [Hs [Hl Hall]]].
    rewrite Hs. cbn [Py.bind].
    destruct sims as [|x sims]; [simpl in Hl; lia|].
    rewrite np_mean_cons. eexists. split; [reflexivity|].
    apply mean_bounds. exact Hall.
Qed.

(** ** Zero vectors *)

Lemma Rsum_all_zero l : all_zero l -> Rsum l = 0.
Proof.
  induction 1 as [|x l Hx _ IH]; simpl; [reflexivity|]. rewrite Hx, IH. lra.
Qed.

Lemma row_norm_all_zero v : all_zero v -> row_norm v = 0.
Proof.
  intros H. unfold row_norm.
  rewrite Rsum_all_zero.
  - apply sqrt_0.
  - induction H as [|x l Hx _ IH]; simpl; constructor; [|exact IH].
    rewrite Hx. unfold Rsqr. lra.
Qed.

(** The zero-norm rule: a zero row is scaled by one. *)
Lemma handle_zeros_all_zero v :
  all_zero v -> handle_zeros_in_scale (row_norm v) = 1.
Proof.
  intros H. rewrite (row_norm_all_zero _ H). unfold handle_zeros_in_scale, eps.
  destruct (Rlt_dec 0 (10 * / 4503599627370496)); [reflexivity|lra].
Qed.

Lemma normalize_all_zero v : all_zero v -> normalize v = v.
Proof.
  intros H. unfold normalize. rewrite (handle_zeros_all_zero _ H).
  induction H as [|x l Hx _ IH]; simpl; [reflexivity|].
  rewrite IH, Hx. f_equal. lra.
Qed.

Lemma dot_all_zero_l u v : all_zero u -> dot u v = 0.
Proof.
  intros H. revert v. unfold dot.
  induction H as [|x l Hx _ IH]; intros v; [reflexivity|].
  destruct v as [|y v]; [reflexivity|].
  simpl. rewrite IH, Hx. lra.
Qed.

End Similarity.

(** C5. For every list of at least two embedding vectors (of one
    dimension [D >= 1]) that are all zero, [calculate_embedding_similarity]
    returns the number 0: every norm is zero and is replaced by one, so
    each cosine is 0, and so is their mean; nothing is raised and the
    result is not nan. *)
Theorem all_zero_embeddings_similarity :
  forall (D : nat) (embeddings : list (list R)),
    (2 <= length embeddings)%nat ->
    (0 < D)%nat ->
    Aux.well_shaped D embeddings ->
    Forall Aux.all_zero embeddings ->
    StrategyEvaluator.calculate_embedding_similarity embeddings
      = Ok (StrategyEvaluator.Fin 0) /\
    Forall (fun v => StrategyEvaluator.row_norm v = 0%R /\
                     StrategyEvaluator.handle_zeros_in_scale
                       (StrategyEvaluator.row_norm v) = 1%R) embeddings.
Proof.
  intros D embeddings Hlen HD Hshape Hzero. split.
  - rewrite calculate_embedding_similarity_long by exact Hlen.
    destruct (consecutive_similarities_shaped D (fun x => x = 0%R)
                embeddings HD Hshape) as [sims [Hs [Hl Hall]]].
    { intros a b Ha _. rewrite Forall_forall in Hzero.
      rewrite (normalize_all_zero _ (Hzero a Ha)).
      apply dot_all_zero_l. apply Hzero. exact Ha. }
    rewrite Hs. cbn [Py.bind].
    destruct sims as [|x sims]; [simpl in Hl; lia|].
    rewrite np_mean_cons. do 2 f_equal.
    rewrite (Rsum_all_zero _ Hall). unfold Rdiv. apply Rmult_0_l.
  - apply Forall_forall. intros v Hv. rewrite Forall_forall in Hzero.
    split; [apply row_norm_all_zero|apply handle_zeros_all_zero]; apply Hzero; exact Hv.
Qed.

Lemma all_zero_embeddings_similarity_witness :
  StrategyEvaluator.calculate_embedding_similarity
    [[0; 0; 0]; [0; 0; 0]; [0; 0; 0]]%R
  = Ok (StrategyEvaluator.Fin 0).
Proof.
  apply (all_zero_embeddings_similarity 3 [[0; 0; 0]; [0; 0; 0]; [0; 0; 0]]%R).
  - simpl. lia.
  - lia.
  - repeat constructor.
  - repeat constructor.
Defined.

(** ** evaluate_strategy *)

Section Evaluate.

Import TextSplitter StrategyEvaluator Aux.
Local Open Scope R_scope.

(** Shape of the result on a non-empty chunk list, a non-empty text and
    an embedding list whose similarity is a number: a record is
    returned, and its total score is the weighted sum of four numbers
    with the stated ranges. The chunk and embedding counts are not
    related by any hypothesis. *)
Lemma evaluate_strategy_value name chunks embeddings original_text s :
  chunks <> [] -> original_text <> [] ->
  calculate_embedding_similarity embeddings = Ok (Fin s) ->
  exists avg std sc cc,
    let cov := Rmin 1 (IZR (Z.of_nat (total_len chunks))
                       / IZR (Z.of_nat (length original_text))) in
    evaluate_strategy name chunks embeddings original_text =
      Ok {| strategy_name := name;
            num_chunks := length chunks;
            avg_chunk_size := Fin avg;
            chunk_size_std := Fin std;
            avg_similarity := Fin s;
            coverage_score := Fin cov;
            total_score :=
              Fin (3 / 10 * cov + 3 / 10 * (1 - Rabs (s - 5 / 10) * 2)
                   + 2 / 10 * sc + 2 / 10 * cc) |} /\
    calculate_chunk_statistics chunks = (Fin avg, Fin std) /\
    0 <= cov <= 1 /\ 0 <= sc <= 1 /\ 0 < cc <= 1.
Proof.
  intros Hchunks Htext Hsim.
  destruct chunks as [|c chunks]; [congruence|].
  destruct (calculate_chunk_statistics_nonempty c chunks)
    as [avg [std [Hstat [Havg Hstd]]]].
  destruct (size_consistency_bounds avg std Havg Hstd) as [sc [Hsc Hscb]].
  destruct (chunk_count_term (length (c :: chunks))) as [cc [Hdiv [Hcc Hccb]]];
    [simpl; lia|].
  exists avg, std, sc, cc. cbn zeta.
  split; [|split; [exact Hstat|split; [|split; assumption]]].
  - unfold evaluate_strategy. rewrite Hstat, Hsim. cbn [Py.bind].
    rewrite (calculate_coverage_score_value _ _ Htext). cbn [Py.bind].
    rewrite Hsc, Hdiv. cbn [Py.bind]. rewrite Hcc. reflexivity.
  - apply coverage_bounds. destruct original_text; [congruence|simpl; lia].
Qed.

(** The errors of [evaluate_strategy], in the order in which the code
    can raise them: the similarity computation first, then the division
    by the text length, then the division by the chunk count. *)
Lemma evaluate_strategy_similarity_error name chunks embeddings original_text e :
  calculate_embedding_similarity embeddings = Err e ->
  evaluate_strategy name chunks embeddings original_text = Err e.
Proof.
  intros H. unfold evaluate_strategy.
  destruct (calculate_chunk_statistics chunks). rewrite H. reflexivity.
Qed.

Lemma evaluate_strategy_empty_text name chunks embeddings s :
  calculate_embedding_similarity embeddings = Ok s ->
  evaluate_strategy name chunks embeddings [] = Err ZeroDivisionError.
Proof.
  intros H. unfold evaluate_strategy.
  destruct (calculate_chunk_statistics chunks). rewrite H. reflexivity.
Qed.

Lemma evaluate_strategy_empty_chunks name embeddings original_text s :
  calculate_embedding_similarity embeddings = Ok s ->
  evaluate_strategy name [] embeddings original_text = Err ZeroDivisionError.
Proof.
  intros H. unfold evaluate_strategy.
  rewrite calculate_chunk_statistics_empty, H. cbn [Py.bind].
  destruct original_text as [|c t].
  - reflexivity.
  - rewrite calculate_coverage_score_value by discriminate. reflexivity.
Qed.

Lemma evaluate_strategy_never_ok_on_empty name embeddings original_text :
  exists e, evaluate_strategy name [] embeddings original_text = Err e.
Proof.
  destruct (calculate_embedding_similarity embeddings) as [s|e] eqn:H.
  - exists ZeroDivisionError. eapply evaluate_strategy_empty_chunks; exact H.
  - exists e. apply evaluate_strategy_similarity_error; exact H.
Qed.

Lemma calculate_embedding_similarity_shaped_ok (D : nat) embeddings :
  (0 < D)%nat -> well_shaped D embeddings ->
  exists s, calculate_embedding_similarity embeddings = Ok (Fin s).
Proof.
  intros HD Hshape.
  destruct (Nat.lt_ge_cases (length embeddings) 2) as [Hshort|Hlong].
  - exists 0. apply calculate_embedding_similarity_short; exact Hshort.
  - rewrite calculate_embedding_similarity_long by exact Hlong.
    destruct (consecutive_similarities_shaped D (fun _ => True)
                embeddings HD Hshape) as [sims [Hs [Hl _]]]; [trivial|].
    rewrite Hs. cbn [Py.bind].
    destruct sims as [|x sims]; [simpl in Hl; lia|].
    rewrite np_mean_cons. eexists. reflexivity.
Qed.

End Evaluate.

(** ** Count mismatch, empty chunk list, empty text *)

(** C2, counterexample. One chunk with two embedding vectors: the counts
    differ, and [evaluate_strategy] returns a metrics record instead of
    failing. *)
Lemma evaluate_strategy_accepts_count_mismatch :
  length [str_of "a"] <> length [[1%R]; [1%R]] /\
  exists m,
    StrategyEvaluator.evaluate_strategy "fixed_size"
      [str_of "a"] [[1%R]; [1%R]] (str_of "a") = Ok m /\
    StrategyEvaluator.num_chunks m = 1.
Proof.
  split; [simpl; lia|].
  destruct (calculate_embedding_similarity_shaped_ok 1 [[1%R]; [1%R]])
    as [s Hs]; [lia|repeat constructor|].
  destruct (evaluate_strategy_value "fixed_size" [str_of "a"] [[1%R]; [1%R]]
              (str_of "a") s) as [avg [std [sc [cc [Hm _]]]]];
    [discriminate|discriminate|exact Hs|].
  eexists. split; [exact Hm|reflexivity].
Qed.

(** C2, amended. [evaluate_strategy] never compares the chunk count with
    the embedding count and has no data-integrity error: for every
    non-empty chunk list, non-empty original text and every list of
    embedding vectors of one dimension [D >= 1], whatever its length, it
    returns a metrics record for that strategy; the size statistics come
    from the chunks alone and the similarity from the embeddings alone. *)
Theorem evaluate_strategy_no_integrity_check :
  forall (D : nat) (name : string) (chunks : list str)
         (embeddings : list (list R)) (original_text : str),
    chunks <> [] -> original_text <> [] ->
    (0 < D)%nat -> Aux.well_shaped D embeddings ->
    exists m,
      StrategyEvaluator.evaluate_strategy name chunks embeddings original_text = Ok m /\
      StrategyEvaluator.strategy_name m = name /\
      StrategyEvaluator.num_chunks m = length chunks /\
      StrategyEvaluator.calculate_chunk_statistics chunks =
        (StrategyEvaluator.avg_chunk_size m, StrategyEvaluator.chunk_size_std m) /\
      StrategyEvaluator.calculate_embedding_similarity embeddings =
        Ok (StrategyEvaluator.avg_similarity m) /\
      StrategyEvaluator.calculate_coverage_score original_text chunks =
        Ok (StrategyEvaluator.coverage_score m).
Proof.
  intros D name chunks embeddings original_text Hc Ht HD Hshape.
  destruct (calculate_embedding_similarity_shaped_ok D embeddings HD Hshape) as [s Hs].
  destruct (evaluate_strategy_value name chunks embeddings original_text s Hc Ht Hs)
    as [avg [std [sc [cc [Hm [Hstat _]]]]]].
  cbn zeta in Hm.
  eexists. split; [exact Hm|]. cbn.
  repeat split; try assumption.
  apply calculate_coverage_score_value. exact Ht.
Qed.

Lemma evaluate_strategy_no_integrity_check_witness :
  exists m,
    StrategyEvaluator.evaluate_strategy "sentence_based"
      [str_of "One."; str_of "Two."; str_of "Three."]
      [[1; 0]%R; [0; 1]%R] (str_of "One. Two. Three.") = Ok m /\
    StrategyEvaluator.strategy_name m = "sentence_based"%string /\
    StrategyEvaluator.num_chunks m = 3.
Proof.
  destruct (evaluate_strategy_no_integrity_check 2 "sentence_based"
              [str_of "One."; str_of "Two."; str_of "Three."]
              [[1; 0]%R; [0; 1]%R] (str_of "One. Two. Three."))
    as [m [Hm [Hn [Hk _]]]].
  - discriminate.
  - discriminate.
  - lia.
  - repeat constructor.
  - exists m. split; [exact Hm|]. split; [exact Hn|exact Hk].
Defined.

(** C3, the code at the failing input. With an empty chunk list
    [evaluate_strategy] never returns a record: the term
    [50 / len(chunks)] divides by zero. With the empty embedding list
    that belongs to an empty chunk list and a non-empty text the raised
    error is that [ZeroDivisionError]; the mean chunk size is nan there
    and the coverage is 0, neither of which raises. *)
Theorem evaluate_strategy_empty_chunks_raises :
  (forall (name : string) (embeddings : list (list R)) (original_text : str),
     exists e,
       StrategyEvaluator.evaluate_strategy name [] embeddings original_text = Err e) /\
  (forall (name : string) (original_text : str),
     StrategyEvaluator.evaluate_strategy name [] [] original_text
       = Err ZeroDivisionError) /\
  StrategyEvaluator.calculate_chunk_statistics []
    = (StrategyEvaluator.NaN, StrategyEvaluator.NaN) /\
  StrategyEvaluator.truediv 50 (Z.of_nat (length (@nil str))) = Err ZeroDivisionError.
Proof.
  split; [|split; [|split]].
  - intros. apply evaluate_strategy_never_ok_on_empty.
  - intros. apply (evaluate_strategy_empty_chunks name [] original_text
                     (StrategyEvaluator.Fin 0)).
    reflexivity.
  - reflexivity.
  - reflexivity.
Qed.

(** A document of one hundred blanks passes the length gate of the
    pipeline, and each of the three strategies returns an empty chunk
    list for it: the empty chunk list does reach the evaluator. *)
Lemma blank_document_reaches_evaluator :
  let text := repeat SPACE 100 in
  IndexDocuments.too_short text = false /\
  exists results,
    TextSplitter.split_all_strategies text = Some (Ok results) /\
    TextSplitter.dict_keys results = Aux.strategy_order /\
    Forall (fun kv => TextSplitter.chunks (snd kv) = []) results.
Proof.
  cbn zeta. split; [vm_compute; reflexivity|].
  eexists. split; [vm_compute; reflexivity|].
  split; [reflexivity|]. repeat constructor.
Qed.

(** C4, counterexample. On the empty text the coverage computation
    divides by zero, and the error leaves [evaluate_strategy]. *)
Lemma coverage_empty_text_divides_by_zero :
  StrategyEvaluator.calculate_coverage_score [] [str_of "chunk"]
    = Err ZeroDivisionError /\
  StrategyEvaluator.evaluate_strategy "fixed_size" [str_of "chunk"] [[1%R]] []
    = Err ZeroDivisionError.
Proof.
  split; [reflexivity|].
  apply (evaluate_strategy_empty_text "fixed_size" [str_of "chunk"] [[1%R]]
           (StrategyEvaluator.Fin 0)).
  reflexivity.
Qed.

(** C4, amended. The evaluator has no guard for an empty text: on it
    [calculate_coverage_score] raises [ZeroDivisionError] for every chunk
    list and [evaluate_strategy] never returns a record. The guard is
    the length gate of the pipeline driver, which rejects the empty
    text; for every text that passes the gate the coverage is a number
    in [0, 1]. *)
Theorem coverage_guarded_upstream_only :
  forall chunks : list str,
    StrategyEvaluator.calculate_coverage_score [] chunks = Err ZeroDivisionError /\
    (forall (name : string) (embeddings : list (list R)),
       exists e,
         StrategyEvaluator.evaluate_strategy name chunks embeddings [] = Err e) /\
    IndexDocuments.too_short [] = true /\
    (forall original_text : str,
       IndexDocuments.too_short original_text = false ->
       exists c,
         StrategyEvaluator.calculate_coverage_score original_text chunks
           = Ok (StrategyEvaluator.Fin c) /\
         (0 <= c <= 1)%R).
Proof.
  intros chunks. split; [reflexivity|]. split; [|split; [reflexivity|]].
  - intros name embeddings.
    destruct (StrategyEvaluator.calculate_embedding_similarity embeddings)
      as [s|e] eqn:H.
    + exists ZeroDivisionError. eapply evaluate_strategy_empty_text; exact H.
    + exists e. apply evaluate_strategy_similarity_error; exact H.
  - intros original_text Hgate.
    assert (Ht : original_text <> []).
    { intros ->. discriminate Hgate. }
    eexists. split; [apply calculate_coverage_score_value; exact Ht|].
    apply coverage_bounds. destruct original_text; [congruence|simpl; lia].
Qed.

Lemma coverage_guarded_upstream_only_witness :
  IndexDocuments.too_short (repeat 120%N 100) = false /\
  exists c,
    StrategyEvaluator.calculate_coverage_score (repeat 120%N 100) [str_of "xx"]
      = Ok (StrategyEvaluator.Fin c) /\
    (0 <= c <= 1)%R.
Proof.
  assert (H : IndexDocuments.too_short (repeat 120%N 100) = false)
    by (vm_compute; reflexivity).
  split; [exact H|].
  apply (coverage_guarded_upstream_only [str_of "xx"]). exact H.
Defined.

(** ** Selection of the best strategy *)

Section Selection.

Import TextSplitter StrategyEvaluator Aux.
Local Open Scope R_scope.

Lemma score_lt_le a b : score_lt a b -> score_le a b.
Proof. destruct a, b; simpl; try tauto. lra. Qed.

Lemma score_le_trans a b c : score_le a b -> score_le b c -> score_le a c.
Proof. destruct a, b, c; simpl; try tauto. lra. Qed.

Lemma score_le_lt_trans a b c : score_le a b -> score_lt b c -> score_lt a c.
Proof. destruct a, b, c; simpl; try tauto. lra. Qed.

Lemma score_le_refl x : score_le (Fin x) (Fin x).
Proof. simpl. lra. Qed.

(** [max] returns the first item whose key is maximal: every earlier
    item has a strictly smaller key, no later item has a greater one. *)
Lemma max_from_first_max {A : Type} (key : A -> pyfloat) (l : list A) :
  forall best,
    (forall x, In x (best :: l) -> exists t, key x = Fin t) ->
    exists pre post,
      best :: l = pre ++ max_from key best l :: post /\
      (forall x, In x pre -> score_lt (key x) (key (max_from key best l))) /\
      (forall x, In x post -> score_le (key x) (key (max_from key best l))) /\
      score_le (key best) (key (max_from key best l)).
Proof.
  induction l as [|y l IH]; intros best Hfin.
  - exists [], []. simpl. repeat split; try contradiction.
    destruct (Hfin best (or_introl eq_refl)) as [t ->]. apply score_le_refl.
  - cbn [max_from].
    destruct (Hfin best (or_introl eq_refl)) as [tb Hb].
    destruct (Hfin y (or_intror (or_introl eq_refl))) as [ty Hy].
    destruct (fgtb (key y) (key best)) eqn:Hgt.
    + destruct (IH y) as [pre [post [Heq [Hpre [Hpost Hle]]]]].
      { intros x Hx. apply Hfin. right. exact Hx. }
      assert (Hby : score_lt (key best) (key y)).
      { unfold fgtb in Hgt. rewrite Hb, Hy in *. apply fltb_fin in Hgt. exact Hgt. }
      exists (best :: pre), post. rewrite Heq at 1. split; [reflexivity|].
      split; [|split; [exact Hpost|]].
      * intros x [<-|Hx]; [|apply Hpre; exact Hx].
        destruct (key best), (key y), (key (max_from key y l));
          simpl in *; try tauto; lra.
      * apply score_lt_le.
        destruct (key best), (key y), (key (max_from key y l));
          simpl in *; try tauto; lra.
    + destruct (IH best) as [pre [post [Heq [Hpre [Hpost Hle]]]]].
      { intros x [<-|Hx]; apply Hfin; [left; reflexivity|right; right; exact Hx]. }
      assert (Hyb : score_le (key y) (key best)).
      { unfold fgtb in Hgt. rewrite Hb, Hy in *. apply fltb_fin_false in Hgt. exact Hgt. }
      destruct pre as [|p pre].
      * simpl in Heq. injection Heq as Hbest Hl.
        exists [], (y :: post). rewrite <- Hbest in *. simpl.
        split; [rewrite <- Hl; reflexivity|].
        split; [intros x []|]. split; [|exact Hle].
        intros x [<-|Hx]; [exact Hyb|apply Hpost; exact Hx].
      * simpl in Heq. injection Heq as Hp Hl. subst p.
        exists (best :: y :: pre), post. simpl.
        split; [do 2 f_equal; exact Hl|]. split; [|split; [exact Hpost|exact Hle]].
        intros x [<-|[<-|Hx]].
        -- apply Hpre. left. reflexivity.
        -- eapply score_le_lt_trans; [exact Hyb|]. apply Hpre. left. reflexivity.
        -- apply Hpre. right. exact Hx.
Qed.

(** ** The loop over the strategies *)

Lemma consecutive_similarities_length embeddings :
  forall sims, consecutive_similarities embeddings = Ok sims ->
    length sims = pred (length embeddings).
Proof.
  induction embeddings as [|e1 rest IH]; intros sims H.
  - inversion H. reflexivity.
  - destruct rest as [|e2 rest'].
    + inversion H. reflexivity.
    + rewrite consecutive_similarities_step in H.
      destruct (cosine_similarity e1 e2); [|discriminate].
      cbn [Py.bind] in H.
      destruct (consecutive_similarities (e2 :: rest')) as [sims'|] eqn:E; [|discriminate].
      inversion H. simpl. rewrite (IH sims' eq_refl). reflexivity.
Qed.

Lemma calculate_embedding_similarity_fin embeddings s :
  calculate_embedding_similarity embeddings = Ok s -> exists x, s = Fin x.
Proof.
  unfold calculate_embedding_similarity.
  destruct (Nat.ltb_spec (length embeddings) 2) as [Hshort|Hlong].
  - intros Hs. inversion Hs. eexists. reflexivity.
  - destruct (consecutive_similarities embeddings) as [sims|] eqn:E; [|discriminate].
    cbn [Py.bind]. intros Hs. inversion Hs.
    apply consecutive_similarities_length in E.
    destruct sims as [|x sims]; [simpl in E; lia|].
    eexists. apply np_mean_cons.
Qed.

(** A returned record was computed from a non-empty chunk list and a
    non-empty text, and its total score is a number. *)
Lemma evaluate_strategy_ok_inv name chunks embeddings original_text m :
  evaluate_strategy name chunks embeddings original_text = Ok m ->
  chunks <> [] /\ original_text <> [] /\
  strategy_name m = name /\ exists t, total_score m = Fin t.
Proof.
  intros H.
  destruct (calculate_embedding_similarity embeddings) as [s|e] eqn:Hs.
  2:{ rewrite (evaluate_strategy_similarity_error name chunks embeddings
                 original_text e Hs) in H. discriminate. }
  destruct (calculate_embedding_similarity_fin embeddings s Hs) as [x ->].
  assert (Hc : chunks <> []).
  { intros ->.
    rewrite (evaluate_strategy_empty_chunks name embeddings original_text _ Hs) in H.
    discriminate. }
  assert (Ht : original_text <> []).
  { intros ->.
    rewrite (evaluate_strategy_empty_text name chunks embeddings _ Hs) in H.
    discriminate. }
  destruct (evaluate_strategy_value name chunks embeddings original_text x Hc Ht Hs)
    as [avg [std [sc [cc [Hm _]]]]].
  cbn zeta in Hm. rewrite Hm in H. inversion H.
  split; [exact Hc|]. split; [exact Ht|]. split; [reflexivity|].
  eexists. reflexivity.
Qed.

(** The total score does not depend on the strategy name. *)
Lemma evaluate_strategy_score_name name1 name2 chunks embeddings original_text m1 m2 :
  evaluate_strategy name1 chunks embeddings original_text = Ok m1 ->
  evaluate_strategy name2 chunks embeddings original_text = Ok m2 ->
  total_score m1 = total_score m2.
Proof.
  unfold evaluate_strategy.
  destruct (calculate_chunk_statistics chunks) as [avg std].
  destruct (calculate_embedding_similarity embeddings); [|discriminate].
  cbn [Py.bind].
  destruct (calculate_coverage_score original_text chunks); [|discriminate].
  cbn [Py.bind].
  destruct (truediv 50 (Z.of_nat (length chunks))); [|discriminate].
  cbn [Py.bind]. intros H1 H2. inversion H1. inversion H2. reflexivity.
Qed.

End Selection.

Section SelectBest.

Import TextSplitter StrategyEvaluator Aux.
Local Open Scope R_scope.

Variables (strategy_results : dict ChunkResult)
          (embedding_results : dict EmbeddingGenerator.EmbeddingResult)
          (original_text : str).

Lemma select_step_inv all_metrics name d :
  select_step strategy_results embedding_results original_text all_metrics name = Ok d ->
  exists m,
    evaluated strategy_results embedding_results original_text name m /\
    d = dict_set all_metrics name m.
Proof.
  unfold select_step, evaluated.
  destruct (dict_get strategy_results name) as [cr|]; [|discriminate].
  destruct (dict_get embedding_results name) as [er|]; [|discriminate].
  cbn [Py.bind].
  destruct (evaluate_strategy name (chunks cr) (EmbeddingGenerator.embeddings er)
              original_text) as [m|] eqn:Hm; [|discriminate].
  cbn [Py.bind]. intros H. inversion H.
  exists m. split; [|reflexivity]. exists cr, er.
  split; [reflexivity|]. split; [reflexivity|exact Hm].
Qed.

Lemma select_step_ok all_metrics name m :
  evaluated strategy_results embedding_results original_text name m ->
  select_step strategy_results embedding_results original_text all_metrics name
  = Ok (dict_set all_metrics name m).
Proof.
  intros [cr [er [Hcr [Her Hm]]]]. unfold select_step.
  rewrite Hcr, Her. cbn [Py.bind]. rewrite Hm. reflexivity.
Qed.

(** Over the three strategy keys the loop builds the mapping with one
    record per key, in key order. *)
Lemma select_loop_inv all_metrics :
  for_each (select_step strategy_results embedding_results original_text)
           strategy_order [] = Ok all_metrics ->
  exists m1 m2 m3,
    all_metrics = [("fixed_size"%string, m1); ("sentence_based"%string, m2);
                   ("paragraph_based"%string, m3)] /\
    evaluated strategy_results embedding_results original_text "fixed_size" m1 /\
    evaluated strategy_results embedding_results original_text "sentence_based" m2 /\
    evaluated strategy_results embedding_results original_text "paragraph_based" m3.
Proof.
  unfold strategy_order. cbn [for_each].
  destruct (select_step _ _ _ [] "fixed_size") as [d1|] eqn:E1; [|discriminate].
  apply select_step_inv in E1. destruct E1 as [m1 [H1 ->]].
  cbn [Py.bind].
  destruct (select_step _ _ _ _ "sentence_based") as [d2|] eqn:E2; [|discriminate].
  apply select_step_inv in E2. destruct E2 as [m2 [H2 ->]].
  cbn [Py.bind].
  destruct (select_step _ _ _ _ "paragraph_based") as [d3|] eqn:E3; [|discriminate].
  apply select_step_inv in E3. destruct E3 as [m3 [H3 ->]].
  cbn [Py.bind]. intros H. inversion H.
  exists m1, m2, m3. repeat split; assumption.
Qed.

Lemma select_loop_ok m1 m2 m3 :
  evaluated strategy_results embedding_results original_text "fixed_size" m1 ->
  evaluated strategy_results embedding_results original_text "sentence_based" m2 ->
  evaluated strategy_results embedding_results original_text "paragraph_based" m3 ->
  for_each (select_step strategy_results embedding_results original_text)
           strategy_order [] =
  Ok [("fixed_size"%string, m1); ("sentence_based"%string, m2);
      ("paragraph_based"%string, m3)].
Proof.
  intros H1 H2 H3. unfold strategy_order. cbn [for_each].
  rewrite (select_step_ok _ _ _ H1). cbn [Py.bind].
  rewrite (select_step_ok _ _ _ H2). cbn [Py.bind].
  rewrite (select_step_ok _ _ _ H3). reflexivity.
Qed.

Lemma evaluated_fin name m :
  evaluated strategy_results embedding_results original_text name m ->
  exists t, total_score m = Fin t.
Proof.
  intros [cr [er [_ [_ Hm]]]].
  apply evaluate_strategy_ok_inv in Hm. apply Hm.
Qed.

(** When each of the three strategies evaluates to a record, the
    selection returns. *)
Lemma select_best_strategy_returns m1 m2 m3 :
  dict_keys strategy_results = strategy_order ->
  evaluated strategy_results embedding_results original_text "fixed_size" m1 ->
  evaluated strategy_results embedding_results original_text "sentence_based" m2 ->
  evaluated strategy_results embedding_results original_text "paragraph_based" m3 ->
  exists best_name best_metrics,
    select_best_strategy strategy_results embedding_results original_text
    = Ok (best_name, best_metrics,
          [("fixed_size"%string, m1); ("sentence_based"%string, m2);
           ("paragraph_based"%string, m3)]).
Proof.
  intros Hkeys H1 H2 H3. unfold select_best_strategy.
  rewrite Hkeys, (select_loop_ok _ _ _ H1 H2 H3). cbn [Py.bind py_max].
  destruct (max_from _ _ _) as [bn bm]. exists bn, bm. reflexivity.
Qed.

End SelectBest.

(** [split_all_strategies] returns for every text, and its mapping has
    the three strategy keys in the fixed order. *)
Lemma split_all_strategies_keys (text : str) :
  exists results,
    TextSplitter.split_all_strategies text = Some (Ok results) /\
    TextSplitter.dict_keys results = Aux.strategy_order.
Proof.
  unfold TextSplitter.split_all_strategies.
  destruct (fixed_size_with_overlap_returns text 500 50) as [r Hr]; [lia|].
  rewrite Hr. unfold TextSplitter.sentence_based_splitting, range.
  cbn [Z.eqb Py.bind].
  eexists. split; reflexivity.
Qed.

(** C1. Selection is a first-max over the fixed iteration order. For
    scores [0.9, 0.5, 0.9] in iteration order [A, B, C] the maximum
    taken by the selection is [A]. And whenever [select_best_strategy]
    returns for a mapping with the keys [fixed_size], [sentence_based],
    [paragraph_based] in this order, the metrics mapping has one
    evaluated record per strategy in the same order, the selected
    strategy is an entry of it, every entry before it has a strictly
    smaller total score and no entry after it has a greater one. *)
Theorem select_best_strategy_first_max :
  (forall (A B C : string) (mA mB mC : StrategyEvaluator.StrategyMetrics),
     StrategyEvaluator.total_score mA = StrategyEvaluator.Fin (9 / 10) ->
     StrategyEvaluator.total_score mB = StrategyEvaluator.Fin (5 / 10) ->
     StrategyEvaluator.total_score mC = StrategyEvaluator.Fin (9 / 10) ->
     StrategyEvaluator.py_max (fun x => StrategyEvaluator.total_score (snd x))
       [(A, mA); (B, mB); (C, mC)] = Ok (A, mA)) /\
  (forall (strategy_results : TextSplitter.dict TextSplitter.ChunkResult)
          (embedding_results : TextSplitter.dict EmbeddingGenerator.EmbeddingResult)
          (original_text : str)
          (best_name : string) (best_metrics : StrategyEvaluator.StrategyMetrics)
          (all_metrics : TextSplitter.dict StrategyEvaluator.StrategyMetrics),
     TextSplitter.dict_keys strategy_results = Aux.strategy_order ->
     StrategyEvaluator.select_best_strategy strategy_results embedding_results
       original_text = Ok (best_name, best_metrics, all_metrics) ->
     TextSplitter.dict_keys all_metrics = Aux.strategy_order /\
     (forall name m, In (name, m) all_metrics ->
        Aux.evaluated strategy_results embedding_results original_text name m) /\
     exists pre post,
       all_metrics = pre ++ (best_name, best_metrics) :: post /\
       (forall x, In x pre ->
          Aux.score_lt (StrategyEvaluator.total_score (snd x))
                       (StrategyEvaluator.total_score best_metrics)) /\
       (forall x, In x post ->
          Aux.score_le (StrategyEvaluator.total_score (snd x))
                       (StrategyEvaluator.total_score best_metrics))).
Proof.
  split.
  - intros A B C mA mB mC HA HB HC.
    unfold StrategyEvaluator.py_max, StrategyEvaluator.max_from,
      StrategyEvaluator.fgtb. cbn [snd].
    rewrite HA, HB, HC.
    assert (H1 : StrategyEvaluator.fltb (StrategyEvaluator.Fin (9 / 10))
                   (StrategyEvaluator.Fin (5 / 10)) = false)
      by (apply fltb_fin_false; lra).
    assert (H2 : StrategyEvaluator.fltb (StrategyEvaluator.Fin (9 / 10))
                   (StrategyEvaluator.Fin (9 / 10)) = false)
      by (apply fltb_fin_false; lra).
    rewrite H1, H2. reflexivity.
  - intros sr er text best_name best_metrics all_metrics Hkeys Hsel.
    unfold StrategyEvaluator.select_best_strategy in Hsel. rewrite Hkeys in Hsel.
    destruct (StrategyEvaluator.for_each _ _ _) as [am|] eqn:Hloop; [|discriminate].
    apply select_loop_inv in Hloop.
    destruct Hloop as [m1 [m2 [m3 [-> [H1 [H2 H3]]]]]].
    cbn [Py.bind StrategyEvaluator.py_max] in Hsel.
    destruct (max_from_first_max
                (fun x : string * StrategyEvaluator.StrategyMetrics =>
                   StrategyEvaluator.total_score (snd x))
                [("sentence_based"%string, m2); ("paragraph_based"%string, m3)]
                ("fixed_size"%string, m1))
      as [pre [post [Heq [Hpre [Hpost _]]]]].
    { intros x [<-|[<-|[<-|[]]]]; cbn [snd]; eapply evaluated_fin; eassumption. }
    destruct (StrategyEvaluator.max_from _ _ _) as [bn bm].
    inversion Hsel; subst.
    split; [reflexivity|]. split.
    + intros name m [Hin|[Hin|[Hin|[]]]]; inversion Hin; subst; assumption.
    + exists pre, post. split; [exact Heq|]. split; assumption.
Qed.

(** ** Range of the cosine similarity *)

Section CosineBounds.

Import StrategyEvaluator Aux.
Local Open Scope R_scope.

Lemma sum_squares_nonneg v : 0 <= Rsum (List.map Rsqr v).
Proof.
  apply Rsum_nonneg. apply Forall_forall. intros x Hx.
  apply in_map_iff in Hx. destruct Hx as [y [<- _]]. apply Rle_0_sqr.
Qed.

(** Cauchy-Schwarz on lists (the shorter list bounds the sum). *)
Lemma dot_sqr_le u :
  forall v, Rsqr (dot u v) <= Rsum (List.map Rsqr u) * Rsum (List.map Rsqr v).
Proof.
  induction u as [|x u IH]; intros v.
  - unfold dot. simpl. unfold Rsqr. lra.
  - destruct v as [|y v].
    + unfold dot. simpl. unfold Rsqr. lra.
    + specialize (IH v).
      pose proof (sum_squares_nonneg u) as HA.
      pose proof (sum_squares_nonneg v) as HB.
      change (dot (x :: u) (y :: v)) with (x * y + dot u v).
      cbn [List.map Rsum fold_right].
      fold (Rsum (List.map Rsqr u)). fold (Rsum (List.map Rsqr v)).
      set (A := Rsum (List.map Rsqr u)) in *.
      set (B := Rsum (List.map Rsqr v)) in *.
      set (d := dot u v) in *.
      unfold Rsqr in *.
      destruct (Req_dec A 0) as [HA0|HA0].
      * assert (Hd : d = 0) by nra.
        rewrite Hd, HA0. nra.
      * assert (HApos : 0 < A) by lra.
        assert (H2 : 2 * (x * y * d) * A <= (x * x * B + y * y * A) * A).
        { pose proof (Rle_0_sqr (x * d - y * A)) as Hsq. unfold Rsqr in Hsq.
          assert (Hxx : 0 <= x * x) by nra.
          assert (Hm : x * x * (d * d) <= x * x * (A * B))
            by (apply Rmult_le_compat_l; assumption).
          nra. }
        assert (H3 : 2 * (x * y * d) <= x * x * B + y * y * A).
        { apply (Rmult_le_reg_r A); assumption. }
        nra.
Qed.

Lemma dot_scale n m u :
  forall v,
    dot (List.map (fun x => x / n) u) (List.map (fun x => x / m) v)
    = dot u v / (n * m).
Proof.
  induction u as [|x u IH]; intros v.
  - unfold dot. simpl. lra.
  - destruct v as [|y v].
    + unfold dot. simpl. lra.
    + change (dot (List.map (fun x => x / n) (x :: u))
                  (List.map (fun x => x / m) (y :: v)))
        with (x / n * (y / m)
              + dot (List.map (fun x => x / n) u) (List.map (fun x => x / m) v)).
      change (dot (x :: u) (y :: v)) with (x * y + dot u v).
      rewrite IH. unfold Rdiv. rewrite Rinv_mult. ring.
Qed.

Lemma row_norm_nonneg v : 0 <= row_norm v.
Proof. apply sqrt_pos. Qed.

Lemma row_norm_sqr v : row_norm v * row_norm v = Rsum (List.map Rsqr v).
Proof. apply sqrt_sqrt. apply sum_squares_nonneg. Qed.

(** The cosine computed by the library model lies in [-1, 1]. *)
Lemma cosine_range u v : -1 <= dot (normalize u) (normalize v) <= 1.
Proof.
  unfold normalize. rewrite dot_scale.
  pose proof (dot_sqr_le u v) as Hcs.
  rewrite <- (row_norm_sqr u), <- (row_norm_sqr v) in Hcs.
  pose proof (row_norm_nonneg u) as Hu.
  pose proof (row_norm_nonneg v) as Hv.
  unfold Rsqr in Hcs.
  set (a := row_norm u) in *. set (b := row_norm v) in *. set (d := dot u v) in *.
  unfold handle_zeros_in_scale, eps.
  set (t := 10 * / 4503599627370496).
  assert (Ht : 0 < t < 1) by (unfold t; lra).
  assert (Hab0 : 0 <= a * b) by (apply Rmult_le_pos; assumption).
  assert (Hd : - (a * b) <= d <= a * b).
  { split.
    - destruct (Rle_dec (- (a * b)) d) as [H|H]; [exact H|exfalso].
      assert (0 < (- d - a * b) * (- d + a * b))
        by (apply Rmult_lt_0_compat; lra).
      nra.
    - destruct (Rle_dec d (a * b)) as [H|H]; [exact H|exfalso].
      assert (0 < (d - a * b) * (d + a * b))
        by (apply Rmult_lt_0_compat; lra).
      nra. }
  destruct (Rlt_dec a t) as [Ha|Ha]; destruct (Rlt_dec b t) as [Hb|Hb].
  - assert (Hab : a * b <= 1) by nra.
    unfold Rdiv. rewrite Rmult_1_l, Rinv_1, Rmult_1_r. lra.
  - assert (Hb0 : 0 < b) by lra.
    assert (Hab : a * b <= b) by nra.
    rewrite Rmult_1_l. split.
    + apply (Rmult_le_reg_r b); [exact Hb0|].
      unfold Rdiv. rewrite Rmult_assoc, Rinv_l by lra. lra.
    + apply (Rmult_le_reg_r b); [exact Hb0|].
      unfold Rdiv. rewrite Rmult_assoc, Rinv_l by lra. lra.
  - assert (Ha0 : 0 < a) by lra.
    assert (Hab : a * b <= a) by nra.
    rewrite Rmult_1_r. split.
    + apply (Rmult_le_reg_r a); [exact Ha0|].
      unfold Rdiv. rewrite Rmult_assoc, Rinv_l by lra. lra.
    + apply (Rmult_le_reg_r a); [exact Ha0|].
      unfold Rdiv. rewrite Rmult_assoc, Rinv_l by lra. lra.
  - assert (Hab : 0 < a * b) by nra.
    split.
    + apply (Rmult_le_reg_r (a * b)); [exact Hab|].
      unfold Rdiv. rewrite Rmult_assoc, Rinv_l by lra. lra.
    + apply (Rmult_le_reg_r (a * b)); [exact Hab|].
      unfold Rdiv. rewrite Rmult_assoc, Rinv_l by lra. lra.
Qed.

End CosineBounds.

(** ** Range of the total score *)

Section TotalScore.

Import TextSplitter StrategyEvaluator Aux.
Local Open Scope R_scope.

Lemma row_norm_unit x : x * x = 1 -> row_norm [x] = 1.
Proof.
  intros H. unfold row_norm. simpl. unfold Rsqr. rewrite H, Rplus_0_r.
  apply sqrt_1.
Qed.

(** Two opposite unit vectors have similarity -1. *)
Lemma opposite_embeddings_similarity :
  calculate_embedding_similarity [[1]; [-1]] = Ok (Fin (-1)).
Proof.
  unfold calculate_embedding_similarity. cbn [length Nat.ltb Nat.leb].
  rewrite consecutive_similarities_step.
  rewrite (cosine_similarity_shaped 1) by (simpl; lia).
  cbn [consecutive_similarities Py.bind]. rewrite np_mean_cons.
  do 2 f_equal. unfold normalize.
  rewrite (row_norm_unit 1) by lra. rewrite (row_norm_unit (-1)) by lra.
  unfold handle_zeros_in_scale, eps.
  destruct (Rlt_dec 1 (10 * / 4503599627370496)) as [H|_]; [lra|].
  unfold dot. simpl. lra.
Qed.

(** The total score, from the ranges of its four terms. *)
Lemma total_score_range cov s sc cc :
  0 <= cov <= 1 -> -1 <= s <= 1 -> 0 <= sc <= 1 -> 0 < cc <= 1 ->
  let t := 3 / 10 * cov + 3 / 10 * (1 - Rabs (s - 5 / 10) * 2)
           + 2 / 10 * sc + 2 / 10 * cc in
  - (6 / 10) < t <= 1 /\ (0 <= s <= 1 -> 0 < t).
Proof.
  intros Hcov Hs Hsc Hcc. cbn zeta.
  unfold Rabs. destruct (Rcase_abs (s - 5 / 10)); repeat split; intros; lra.
Qed.

End TotalScore.

(** C6, counterexample. Two sentence chunks of the text "A.   B." with
    opposite embedding vectors: the inputs are well formed (non-empty
    chunks and text, one vector of dimension 1 per chunk), and the total
    score is negative. *)
Lemma total_score_negative :
  length [[1%R]; [(-1)%R]] = length [str_of "A."; str_of "B."] /\
  exists m t,
    StrategyEvaluator.evaluate_strategy "sentence_based"
      [str_of "A."; str_of "B."] [[1%R]; [(-1)%R]] (str_of "A.   B.") = Ok m /\
    StrategyEvaluator.avg_similarity m = StrategyEvaluator.Fin (-1) /\
    StrategyEvaluator.total_score m = StrategyEvaluator.Fin t /\
    (t < 0)%R.
Proof.
  split; [reflexivity|].
  destruct (evaluate_strategy_value "sentence_based"
              [str_of "A."; str_of "B."] [[1%R]; [(-1)%R]] (str_of "A.   B.")
              (-1)%R)
    as [avg [std [sc [cc [Hm [_ [_ [Hsc Hcc]]]]]]]];
    [discriminate|discriminate|exact opposite_embeddings_similarity|].
  cbn zeta in Hm.
  eexists. eexists. split; [exact Hm|]. cbn.
  split; [reflexivity|]. split; [reflexivity|].
  assert (Hcov : (Rmin 1 (4 / 7) <= 4 / 7)%R) by apply Rmin_r.
  assert (Habs : Rabs (-1 - 5 / 10) = (15 / 10)%R).
  { rewrite Rabs_left by lra. lra. }
  rewrite Habs. lra.
Qed.

(** C6, amended. For a non-empty chunk list, a non-empty original text
    and one embedding vector of dimension [D >= 1] per chunk,
    [evaluate_strategy] returns a record whose total score [t] satisfies
    [-0.6 < t <= 1], and [t] is positive whenever the average similarity
    of the record lies in [0, 1]. *)
Theorem total_score_bounds :
  forall (D : nat) (name : string) (chunks : list str)
         (embeddings : list (list R)) (original_text : str),
    chunks <> [] -> original_text <> [] ->
    (0 < D)%nat -> Aux.well_shaped D embeddings ->
    length embeddings = length chunks ->
    exists m s t,
      StrategyEvaluator.evaluate_strategy name chunks embeddings original_text = Ok m /\
      StrategyEvaluator.avg_similarity m = StrategyEvaluator.Fin s /\
      StrategyEvaluator.total_score m = StrategyEvaluator.Fin t /\
      (- (6 / 10) < t <= 1)%R /\
      ((0 <= s <= 1)%R -> (0 < t)%R).
Proof.
  intros D name chunks embeddings original_text Hc Ht HD Hshape _.
  destruct (calculate_embedding_similarity_shaped D (-1)%R 1%R embeddings HD Hshape)
    as [s [Hs Hsb]]; [lra|intros; apply cosine_range|].
  destruct (evaluate_strategy_value name chunks embeddings original_text s Hc Ht Hs)
    as [avg [std [sc [cc [Hm [_ [Hcov [Hsc Hcc]]]]]]]].
  cbn zeta in Hm, Hcov.
  destruct (total_score_range _ s sc cc Hcov Hsb Hsc Hcc) as [Hrange Hpos].
  eexists. exists s. eexists. split; [exact Hm|]. cbn.
  split; [reflexivity|]. split; [reflexivity|].
  split; [exact Hrange|exact Hpos].
Qed.

Lemma total_score_bounds_witness :
  exists m s t,
    StrategyEvaluator.evaluate_strategy "sentence_based"
      [str_of "A."; str_of "B."] [[1%R; 0%R]; [1%R; 1%R]] (str_of "A.   B.") = Ok m /\
    StrategyEvaluator.avg_similarity m = StrategyEvaluator.Fin s /\
    StrategyEvaluator.total_score m = StrategyEvaluator.Fin t /\
    (- (6 / 10) < t <= 1)%R /\
    ((0 <= s <= 1)%R -> (0 < t)%R).
Proof.
  apply (total_score_bounds 2 "sentence_based"
           [str_of "A."; str_of "B."] [[1%R; 0%R]; [1%R; 1%R]] (str_of "A.   B.")).
  - discriminate.
  - discriminate.
  - lia.
  - repeat constructor.
  - reflexivity.
Defined.

Section SampleSelection.

Import TextSplitter StrategyEvaluator Aux.

Lemma sample_evaluated (name strategy : string) :
  dict_get Sample.strategy_results name = Ok (Sample.chunk_result strategy) ->
  dict_get Sample.embedding_results name = Ok (Sample.embedding_result strategy) ->
  exists m,
    evaluated Sample.strategy_results Sample.embedding_results Sample.text name m.
Proof.
  intros Hc He.
  destruct (calculate_embedding_similarity_shaped_ok 2 [[1; 0]; [0; 1]]%R)
    as [s Hs]; [lia|repeat constructor|].
  destruct (evaluate_strategy_value name [str_of "One."; str_of "Two."]
              [[1; 0]; [0; 1]]%R Sample.text s)
    as [avg [std [sc [cc [Hm _]]]]]; [discriminate|discriminate|exact Hs|].
  eexists. exists (Sample.chunk_result strategy), (Sample.embedding_result strategy).
  split; [exact Hc|]. split; [exact He|exact Hm].
Qed.

(** All records evaluated on the sample have the same total score. *)
Lemma sample_scores_tie name1 name2 m1 m2 :
  evaluated Sample.strategy_results Sample.embedding_results Sample.text name1 m1 ->
  evaluated Sample.strategy_results Sample.embedding_results Sample.text name2 m2 ->
  total_score m1 = total_score m2.
Proof.
  intros [c1 [e1 [Hc1 [He1 H1]]]] [c2 [e2 [Hc2 [He2 H2]]]].
  assert (Hc : forall name c, dict_get Sample.strategy_results name = Ok c ->
                 chunks c = [str_of "One."; str_of "Two."]).
  { intros name c. unfold Sample.strategy_results. cbn [dict_get].
    repeat (destruct (String.eqb _ name);
            [intros H; inversion H; reflexivity|]).
    discriminate. }
  assert (He : forall name e, dict_get Sample.embedding_results name = Ok e ->
                 EmbeddingGenerator.embeddings e = [[1; 0]; [0; 1]]%R).
  { intros name e. unfold Sample.embedding_results. cbn [dict_get].
    repeat (destruct (String.eqb _ name);
            [intros H; inversion H; reflexivity|]).
    discriminate. }
  rewrite (Hc _ _ Hc1), (He _ _ He1) in H1.
  rewrite (Hc _ _ Hc2), (He _ _ He2) in H2.
  eapply evaluate_strategy_score_name; eassumption.
Qed.

Lemma score_lt_irrefl a : ~ score_lt a a.
Proof. destruct a; simpl; [tauto|]. apply Rlt_irrefl. Qed.

End SampleSelection.

Lemma select_best_strategy_first_max_witness :
  exists best_metrics all_metrics,
    StrategyEvaluator.select_best_strategy
      Sample.strategy_results Sample.embedding_results Sample.text
    = Ok ("fixed_size"%string, best_metrics, all_metrics) /\
    TextSplitter.dict_keys all_metrics = Aux.strategy_order.
Proof.
  destruct (sample_evaluated "fixed_size" "fixed_size_with_overlap" eq_refl eq_refl)
    as [m1 H1].
  destruct (sample_evaluated "sentence_based" "sentence_based" eq_refl eq_refl)
    as [m2 H2].
  destruct (sample_evaluated "paragraph_based" "paragraph_based" eq_refl eq_refl)
    as [m3 H3].
  destruct (select_best_strategy_returns Sample.strategy_results
              Sample.embedding_results Sample.text m1 m2 m3 eq_refl H1 H2 H3)
    as [bn [bm Hsel]].
  destruct (proj2 select_best_strategy_first_max
              Sample.strategy_results Sample.embedding_results Sample.text
              bn bm _ eq_refl Hsel)
    as [Hkeys [Hall [pre [post [Heq [Hpre _]]]]]].
  destruct pre as [|x pre].
  - injection Heq as Hn Hm _. subst bn.
    exists bm. eexists. split; [exact Hsel|exact Hkeys].
  - exfalso.
    assert (Hbest : Aux.evaluated Sample.strategy_results Sample.embedding_results
                      Sample.text bn bm).
    { apply Hall. rewrite Heq. apply in_or_app. right. left. reflexivity. }
    injection Heq as Hx _. subst x.
    apply (score_lt_irrefl (StrategyEvaluator.total_score bm)).
    rewrite <- (sample_scores_tie "fixed_size" bn m1 bm H1 Hbest) at 1.
    apply (Hpre ("fixed_size"%string, m1)). left. reflexivity.
Defined.

(* ================================================================== *)
(** * Further properties of the splitter *)
(* ================================================================== *)

(** ** Slices, ranges and groups *)

Section Windows.

Import Shape.

Lemma firstn_min_length {A : Type} (k : nat) (l : list A) :
  firstn (Nat.min k (length l)) l = firstn k l.
Proof.
  destruct (Nat.le_gt_cases k (length l)) as [H|H].
  - rewrite Nat.min_l by exact H. reflexivity.
  - rewrite Nat.min_r by lia. rewrite firstn_all, firstn_all2 by lia. reflexivity.
Qed.

(** A slice with non-negative bounds is a window of the list. *)
Lemma slice_window {A : Type} (l : list A) (a w : Z) :
  (0 <= a)%Z -> (0 <= w)%Z ->
  slice l a (a + w) = firstn (Z.to_nat w) (skipn (Z.to_nat a) l).
Proof.
  intros Ha Hw. unfold slice, adjust_index.
  destruct (Z.ltb_spec a 0); [lia|].
  destruct (Z.ltb_spec (a + w) 0); [lia|].
  destruct (Z.le_gt_cases (Z.of_nat (length l)) a) as [Hout|Hin].
  - rewrite !skipn_all2 by lia. rewrite !firstn_nil. reflexivity.
  - replace (Z.to_nat (Z.min a (Z.of_nat (length l)))) with (Z.to_nat a) by lia.
    rewrite <- (firstn_min_length (Z.to_nat w)).
    f_equal. rewrite length_skipn. lia.
Qed.

Lemma range_len_pos (n : nat) (k : Z) :
  (0 < k)%Z -> range_len 0 (Z.of_nat n) k = num_groups n k.
Proof.
  intros Hk. unfold range_len, num_groups.
  destruct (Z.ltb_spec 0 k); [|lia].
  destruct (Z.ltb_spec 0 (Z.of_nat n)) as [Hn|Hn].
  - f_equal. replace (Z.of_nat n + k - 1)%Z with (Z.of_nat n - 0 - 1 + 1 * k)%Z by lia.
    rewrite Z.div_add by lia. reflexivity.
  - replace n with 0 by lia. simpl.
    rewrite Z.div_small by lia. reflexivity.
Qed.

Lemma num_groups_cover (n : nat) (k : Z) :
  (0 < k)%Z -> n <= num_groups n k * Z.to_nat k.
Proof.
  intros Hk. unfold num_groups.
  pose proof (Z.mul_succ_div_gt (Z.of_nat n + k - 1) k Hk) as H.
  assert (H0 : (0 <= (Z.of_nat n + k - 1) / k)%Z) by (apply Z.div_pos; lia).
  nia.
Qed.

Lemma num_groups_exact (n : nat) (k : Z) :
  (0 < k)%Z -> forall j, j < num_groups n k -> j * Z.to_nat k < n.
Proof.
  intros Hk j Hj. unfold num_groups in Hj.
  pose proof (Z.mul_div_le (Z.of_nat n + k - 1) k Hk) as H.
  assert (H0 : (0 <= (Z.of_nat n + k - 1) / k)%Z) by (apply Z.div_pos; lia).
  nia.
Qed.

(** The slices taken by a loop [for i in range(0, len(l), k)] are the
    groups of [k] items. *)
Lemma range_slices {A : Type} (l : list A) (k : Z) :
  (0 < k)%Z ->
  exists idx,
    range 0 (Z.of_nat (length l)) k = Ok idx /\
    List.map (fun i => slice l i (i + k)%Z) idx = groups k l.
Proof.
  intros Hk. unfold range.
  destruct (Z.eqb_spec k 0); [lia|].
  eexists. split; [reflexivity|].
  rewrite range_len_pos by exact Hk. unfold groups.
  rewrite map_map. apply map_ext. intros j.
  rewrite slice_window by lia. f_equal. f_equal. lia.
Qed.

Lemma groups_concat_upto {A : Type} (k : nat) (g : nat) :
  1 <= k ->
  forall l : list A, length l <= g * k ->
    concat (List.map (fun j => firstn k (skipn (j * k) l)) (seq 0 g)) = l.
Proof.
  intros Hk. induction g as [|g IH]; intros l Hl.
  - destruct l; [reflexivity|simpl in Hl; lia].
  - rewrite <- cons_seq, <- seq_shift, map_cons, map_map.
    cbn [concat]. rewrite Nat.mul_0_l, skipn_O.
    transitivity (firstn k l ++ skipn k l); [|apply firstn_skipn].
    f_equal.
    assert (H : length (skipn k l) <= g * k) by (rewrite length_skipn; lia).
    etransitivity; [|exact (IH (skipn k l) H)].
    f_equal. apply map_ext. intros j.
    rewrite skipn_skipn. do 2 f_equal. lia.
Qed.

(** The groups partition the list, in order, and none is empty. *)
Lemma groups_concat {A : Type} (k : Z) (l : list A) :
  (0 < k)%Z -> concat (groups k l) = l.
Proof.
  intros Hk. unfold groups. apply groups_concat_upto; [lia|].
  apply num_groups_cover. exact Hk.
Qed.

Lemma groups_nonempty {A : Type} (k : Z) (l : list A) :
  (0 < k)%Z -> Forall (fun g => g <> []) (groups k l).
Proof.
  intros Hk. unfold groups. apply Forall_forall. intros g Hg.
  apply in_map_iff in Hg. destruct Hg as [j [<- Hj]].
  apply in_seq in Hj.
  pose proof (num_groups_exact (length l) k Hk j ltac:(lia)) as Hlt.
  intros Hempty. apply (f_equal (@length A)) in Hempty.
  rewrite length_firstn, length_skipn in Hempty. simpl in Hempty. lia.
Qed.

Lemma groups_length {A : Type} (k : Z) (l : list A) :
  length (groups k l) = num_groups (length l) k.
Proof. unfold groups. rewrite length_map, length_seq. reflexivity. Qed.

Lemma groups_bound {A : Type} (k : Z) (l : list A) :
  Forall (fun g => length g <= Z.to_nat k) (groups k l).
Proof.
  unfold groups. apply Forall_forall. intros g Hg.
  apply in_map_iff in Hg. destruct Hg as [j [<- _]].
  rewrite length_firstn. lia.
Qed.

End Windows.

(** ** Fixed-size windows *)

Section FixedWindows.

Import TextSplitter Shape.

Lemma is_factor_trans (a b c : str) :
  is_factor a b -> is_factor b c -> is_factor a c.
Proof.
  intros [x [y ->]] [u [v ->]]. exists (u ++ x), (y ++ v).
  rewrite <- !app_assoc. reflexivity.
Qed.

Lemma strip_is_factor (s : str) : is_factor (strip s) s.
Proof. exact (strip_factor s). Qed.

Lemma window_is_factor (l : str) (a w : nat) :
  is_factor (firstn w (skipn a l)) l.
Proof.
  exists (firstn a l), (skipn w (skipn a l)).
  rewrite firstn_skipn, firstn_skipn. reflexivity.
Qed.

Lemma is_factor_length (c s : str) : is_factor c s -> length c <= length s.
Proof. intros [a [b ->]]. rewrite !length_app. lia. Qed.

Lemma is_factor_blank (c s : str) : is_factor c s -> blank s -> blank c.
Proof.
  intros [a [b ->]] H. unfold blank in *.
  apply Forall_app in H. destruct H as [_ H].
  apply Forall_app in H. apply H.
Qed.

(** A trimmed, non-empty string holds a character that is not
    whitespace. *)
Lemma stripped_not_blank (c : str) : c <> [] -> strip c = c -> ~ blank c.
Proof.
  intros Hne Hs Hb. apply strip_blank in Hb. congruence.
Qed.

Variables (text : str) (chunk_size overlap : Z).

(** Induction principle of the loop: an invariant of the body holds
    at the exit, where the window start has passed the end. *)
Lemma fixed_size_loop_invariant (I : Z -> list str -> Prop) :
  (forall start acc,
      (start < Z.of_nat (length text))%Z -> I start acc ->
      I (start + (chunk_size - overlap))%Z
        (append_if_truthy acc (strip (slice text start (start + chunk_size)%Z)))) ->
  forall fuel start acc out,
    I start acc ->
    fixed_size_loop fuel text chunk_size overlap start acc = Some out ->
    exists final, (Z.of_nat (length text) <= final)%Z /\ I final out.
Proof.
  intros Hbody. induction fuel as [|fuel IH]; intros start acc out HI;
    rewrite fixed_size_loop_unfold;
    destruct (Z.ltb_spec start (Z.of_nat (length text))) as [Hlt|Hge];
    intros H; try discriminate.
  - inversion H; subst. exists start. split; assumption.
  - eapply IH; [|exact H]. apply Hbody; assumption.
  - inversion H; subst. exists start. split; assumption.
Qed.

End FixedWindows.

Section FixedResults.

Import TextSplitter Shape.

Lemma fixed_size_with_overlap_loop (text : str) (chunk_size overlap : Z) :
  (overlap < chunk_size)%Z ->
  exists out,
    fixed_size_loop (length text) text chunk_size overlap 0%Z [] = Some out /\
    fixed_size_with_overlap text chunk_size overlap =
      Some (Ok {| chunks := out;
                  strategy := "fixed_size_with_overlap";
                  num_chunks := length out;
                  avg_chunk_size := avg_size out |}).
Proof.
  intros Hvalid.
  destruct (fixed_size_loop_enough text chunk_size overlap Hvalid (length text) 0%Z [])
    as [out Hout]; [unfold remaining; lia|].
  exists out. split; [exact Hout|].
  unfold fixed_size_with_overlap, fixed_size_with_overlap_fuel.
  destruct (Z.geb_spec overlap chunk_size); [lia|]. rewrite Hout. reflexivity.
Qed.

Lemma firstn_add_skipn {A : Type} (a w : nat) (l : list A) :
  firstn (a + w) l = firstn a l ++ firstn w (skipn a l).
Proof.
  revert l. induction a as [|a IH]; intros l; [reflexivity|].
  destruct l as [|x l]; simpl.
  - rewrite firstn_nil. reflexivity.
  - rewrite IH. reflexivity.
Qed.

Lemma blank_firstn (k : nat) (s : str) : blank s -> blank (firstn k s).
Proof.
  intros H. eapply is_factor_blank; [|exact H].
  exists [], (skipn k s). simpl. symmetry. apply firstn_skipn.
Qed.

Lemma append_if_truthy_nil (acc : list str) (c : str) :
  append_if_truthy acc c = [] -> acc = [] /\ c = [].
Proof.
  unfold append_if_truthy. destruct c as [|x c]; simpl.
  - intros ->. split; reflexivity.
  - intros H. destruct acc; discriminate.
Qed.

Lemma append_if_truthy_length (acc : list str) (c : str) :
  length (append_if_truthy acc c) <= S (length acc).
Proof.
  unfold append_if_truthy. destruct (truthy c); [rewrite length_app; simpl|]; lia.
Qed.

Lemma append_if_truthy_Forall (P : str -> Prop) (acc : list str) (c : str) :
  Forall P acc -> (c <> [] -> P c) -> Forall P (append_if_truthy acc c).
Proof.
  intros Hacc Hc. unfold append_if_truthy. destruct c as [|x c]; simpl; [exact Hacc|].
  apply Forall_app. split; [exact Hacc|]. constructor; [|constructor].
  apply Hc. discriminate.
Qed.

(** The chunks collected by the loop are non-empty, trimmed pieces of
    the text: the list is empty or has such an element. *)
Lemma fixed_size_chunks_shape_aux (text : str) (chunk_size overlap : Z)
    (out : list str) :
  (0 <= chunk_size)%Z -> (overlap < chunk_size)%Z ->
  fixed_size_loop (length text) text chunk_size overlap 0%Z [] = Some out ->
  out = [] \/ exists c, In c out /\ c <> [] /\ strip c = c /\ is_factor c text.
Proof.
  intros Hcs Hvalid Hloop.
  destruct (fixed_size_loop_invariant text chunk_size overlap
              (fun start acc =>
                 (0 <= start)%Z /\
                 Forall (fun c => c <> [] /\ strip c = c /\ is_factor c text) acc))
    with (fuel := length text) (start := 0%Z) (acc := @nil str) (out := out)
    as [final [_ [_ Hall]]]; [| |exact Hloop|].
  - intros start acc Hlt [Hstart Hacc]. split; [lia|].
    apply append_if_truthy_Forall; [exact Hacc|]. intros Hne.
    rewrite slice_window in * by lia.
    split; [exact Hne|]. split; [apply strip_idempotent|].
    eapply is_factor_trans; [apply strip_is_factor|apply window_is_factor].
  - split; [lia|constructor].
  - destruct out as [|c out]; [left; reflexivity|right].
    inversion Hall as [|? ? Hc _]; subst.
    exists c. split; [left; reflexivity|exact Hc].
Qed.

End FixedResults.

(** X1. For [0 <= chunk_size] and [overlap < chunk_size] the fixed-size
    strategy returns, and every chunk is non-empty, trimmed, at most
    [chunk_size] characters long and a contiguous piece of the text. *)
Theorem fixed_size_chunks_shape :
  forall (text : str) (chunk_size overlap : Z),
    (0 <= chunk_size)%Z -> (overlap < chunk_size)%Z ->
    exists r,
      TextSplitter.fixed_size_with_overlap text chunk_size overlap = Some (Ok r) /\
      TextSplitter.num_chunks r = length (TextSplitter.chunks r) /\
      Forall (fun c => c <> [] /\ strip c = c /\
                       (Z.of_nat (length c) <= chunk_size)%Z /\
                       Shape.is_factor c text)
             (TextSplitter.chunks r).
Proof.
  intros text chunk_size overlap Hcs Hvalid.
  destruct (fixed_size_with_overlap_loop text chunk_size overlap Hvalid)
    as [out [Hloop Hres]].
  eexists. split; [exact Hres|]. split; [reflexivity|]. cbn.
  destruct (fixed_size_loop_invariant text chunk_size overlap
              (fun start acc =>
                 (0 <= start)%Z /\
                 Forall (fun c => c <> [] /\ strip c = c /\
                                  (Z.of_nat (length c) <= chunk_size)%Z /\
                                  Shape.is_factor c text) acc))
    with (fuel := length text) (start := 0%Z) (acc := @nil str) (out := out)
    as [final [_ [_ Hall]]]; [| |exact Hloop|exact Hall].
  - intros start acc Hlt [Hstart Hacc]. split; [lia|].
    apply append_if_truthy_Forall; [exact Hacc|]. intros Hne.
    rewrite slice_window in * by lia.
    split; [exact Hne|]. split; [apply strip_idempotent|]. split.
    + pose proof (is_factor_length _ _ (strip_is_factor
                    (firstn (Z.to_nat chunk_size) (skipn (Z.to_nat start) text)))) as H.
      rewrite length_firstn in H. lia.
    + eapply is_factor_trans; [apply strip_is_factor|apply window_is_factor].
  - split; [lia|constructor].
Qed.

Lemma fixed_size_chunks_shape_witness :
  exists r,
    TextSplitter.fixed_size_with_overlap (str_of "abcdefghij klmnop") 5 2 = Some (Ok r) /\
    TextSplitter.num_chunks r = length (TextSplitter.chunks r) /\
    Forall (fun c => c <> [] /\ strip c = c /\
                     (Z.of_nat (length c) <= 5)%Z /\
                     Shape.is_factor c (str_of "abcdefghij klmnop"))
           (TextSplitter.chunks r).
Proof.
  apply (fixed_size_chunks_shape (str_of "abcdefghij klmnop") 5 2); lia.
Defined.

(** X2. With [overlap < chunk_size] the number of chunks is at most the
    number of windows, [ceil(len(text) / (chunk_size - overlap))]. *)
Theorem fixed_size_chunk_count :
  forall (text : str) (chunk_size overlap : Z),
    (overlap < chunk_size)%Z ->
    exists r,
      TextSplitter.fixed_size_with_overlap text chunk_size overlap = Some (Ok r) /\
      TextSplitter.num_chunks r
        <= Shape.num_groups (length text) (chunk_size - overlap).
Proof.
  intros text chunk_size overlap Hvalid.
  destruct (fixed_size_with_overlap_loop text chunk_size overlap Hvalid)
    as [out [Hloop Hres]].
  eexists. split; [exact Hres|]. cbn.
  set (step := (chunk_size - overlap)%Z).
  set (n := Z.of_nat (length text)).
  assert (Hstep : (0 < step)%Z) by (unfold step; lia).
  assert (HB : (0 <= (n + step - 1) / step)%Z) by (apply Z.div_pos; lia).
  destruct (fixed_size_loop_invariant text chunk_size overlap
              (fun start acc =>
                 (0 <= start)%Z /\
                 ((start < n)%Z ->
                  (Z.of_nat (length acc) + (n - start + step - 1) / step
                   <= (n + step - 1) / step)%Z) /\
                 ((n <= start)%Z ->
                  (Z.of_nat (length acc) <= (n + step - 1) / step)%Z)))
    with (fuel := length text) (start := 0%Z) (acc := @nil str) (out := out)
    as [final [Hfinal [Hpos [_ Hinv]]]]; [| |exact Hloop|].
  - intros start acc Hlt [Hstart [Hinv _]]. fold step. fold n in Hlt.
    specialize (Hinv Hlt). split; [lia|].
    pose proof (append_if_truthy_length acc
                  (strip (slice text start (start + chunk_size)%Z))) as Hlen.
    assert (Hdiv : ((n - start + step - 1) / step
                    = (n - (start + step) + step - 1) / step + 1)%Z).
    { replace (n - start + step - 1)%Z
        with (n - (start + step) + step - 1 + 1 * step)%Z by lia.
      apply Z.div_add. lia. }
    split; intros Hcase.
    + lia.
    + assert (1 <= (n - start + step - 1) / step)%Z.
      { apply Z.div_le_lower_bound; lia. }
      lia.
  - split; [lia|]. split; intros Hcase; simpl.
    + replace (n - 0 + step - 1)%Z with (n + step - 1)%Z by lia. lia.
    + lia.
  - unfold Shape.num_groups. fold n. fold step.
    specialize (Hinv Hfinal). lia.
Qed.

Lemma fixed_size_chunk_count_witness :
  exists r,
    TextSplitter.fixed_size_with_overlap (str_of "abcdefghij klmnop") 5 2 = Some (Ok r) /\
    TextSplitter.num_chunks r <= 6.
Proof.
  apply (fixed_size_chunk_count (str_of "abcdefghij klmnop") 5 2). lia.
Defined.

(** X3. A text that fits into one window and into one step
    ([len(text) <= chunk_size] and [len(text) <= chunk_size - overlap])
    gives the whole trimmed text as the only chunk, or no chunk when the
    text is whitespace only. *)
Theorem fixed_size_single_window :
  forall (text : str) (chunk_size overlap : Z),
    (overlap < chunk_size)%Z ->
    (Z.of_nat (length text) <= chunk_size)%Z ->
    (Z.of_nat (length text) <= chunk_size - overlap)%Z ->
    exists r,
      TextSplitter.fixed_size_with_overlap text chunk_size overlap = Some (Ok r) /\
      TextSplitter.chunks r = (if truthy (strip text) then [strip text] else []).
Proof.
  intros text chunk_size overlap Hvalid Hfit Hstep.
  destruct (fixed_size_with_overlap_loop text chunk_size overlap Hvalid)
    as [out [Hloop Hres]].
  eexists. split; [exact Hres|]. cbn.
  destruct text as [|c text].
  - simpl in Hloop. inversion Hloop. reflexivity.
  - rewrite fixed_size_loop_unfold in Hloop.
    destruct (Z.ltb_spec 0 (Z.of_nat (length (c :: text)))) as [_|Hbad];
      [|simpl in Hbad; lia].
    cbn [length] in Hloop. rewrite fixed_size_loop_unfold in Hloop.
    destruct (Z.ltb_spec (0 + (chunk_size - overlap))
                (Z.of_nat (length (c :: text)))) as [Hbad|_]; [lia|].
    rewrite slice_window in Hloop by lia.
    change (Z.to_nat 0) with 0 in Hloop.
    rewrite skipn_O, firstn_all2 in Hloop by lia.
    inversion Hloop as [Hout]. reflexivity.
Qed.

Lemma fixed_size_single_window_witness :
  exists r,
    TextSplitter.fixed_size_with_overlap (str_of "  short text ") 500 50
      = Some (Ok r) /\
    TextSplitter.chunks r = [str_of "short text"].
Proof.
  apply (fixed_size_single_window (str_of "  short text ") 500 50);
    simpl; lia.
Defined.

(** Coverage of the text by the windows when the overlap is not
    negative: the loop collects nothing exactly on whitespace-only
    texts. *)
Lemma fixed_size_loop_blank_iff (text : str) (chunk_size overlap : Z)
    (out : list str) :
  (0 <= overlap)%Z -> (overlap < chunk_size)%Z ->
  TextSplitter.fixed_size_loop (length text) text chunk_size overlap 0%Z []
    = Some out ->
  (out = [] <-> Shape.blank text).
Proof.
  intros Hov Hvalid Hloop. split.
  - intros Hempty. subst out.
    destruct (fixed_size_loop_invariant text chunk_size overlap
                (fun start acc =>
                   (0 <= start)%Z /\
                   (acc = [] -> Shape.blank (firstn (Z.to_nat start) text))))
      with (fuel := length text) (start := 0%Z) (acc := @nil str) (out := @nil str)
      as [final [Hfinal [_ Hblank]]]; [| |exact Hloop|].
    + intros start acc Hlt [Hstart Hinv]. split; [lia|]. intros Hnil.
      apply append_if_truthy_nil in Hnil. destruct Hnil as [Hacc Hchunk].
      rewrite slice_window in Hchunk by lia. apply strip_nil_blank in Hchunk.
      assert (Hcover : Shape.blank (firstn (Z.to_nat start + Z.to_nat chunk_size) text)).
      { rewrite firstn_add_skipn. apply Forall_app.
        split; [apply Hinv; exact Hacc|exact Hchunk]. }
      replace (firstn (Z.to_nat (start + (chunk_size - overlap))) text)
        with (firstn (Z.to_nat (start + (chunk_size - overlap)))
                     (firstn (Z.to_nat start + Z.to_nat chunk_size) text)).
      * apply blank_firstn. exact Hcover.
      * rewrite firstn_firstn. f_equal. lia.
    + split; [lia|]. intros _. constructor.
    + rewrite firstn_all2 in Hblank by lia. apply Hblank. reflexivity.
  - intros Hblank.
    destruct (fixed_size_chunks_shape_aux text chunk_size overlap out
                ltac:(lia) Hvalid Hloop) as [Hall|Hall].
    + exact Hall.
    + destruct Hall as [c [Hin [Hne [Hs Hf]]]].
      exfalso. apply (stripped_not_blank c Hne Hs).
      eapply is_factor_blank; eassumption.
Qed.

(** X4. With [0 <= overlap < chunk_size] the windows cover the text, so
    the fixed-size strategy returns no chunk exactly when the text is
    whitespace only (the empty text included). *)
Theorem fixed_size_no_chunk_iff_blank :
  forall (text : str) (chunk_size overlap : Z),
    (0 <= overlap)%Z -> (overlap < chunk_size)%Z ->
    exists r,
      TextSplitter.fixed_size_with_overlap text chunk_size overlap = Some (Ok r) /\
      (TextSplitter.chunks r = [] <-> Shape.blank text).
Proof.
  intros text chunk_size overlap Hov Hvalid.
  destruct (fixed_size_with_overlap_loop text chunk_size overlap Hvalid)
    as [out [Hloop Hres]].
  exists {| TextSplitter.chunks := out;
            TextSplitter.strategy := "fixed_size_with_overlap";
            TextSplitter.num_chunks := length out;
            TextSplitter.avg_chunk_size := TextSplitter.avg_size out |}.
  split; [exact Hres|]. cbn [TextSplitter.chunks].
  apply (fixed_size_loop_blank_iff text chunk_size overlap out Hov Hvalid Hloop).
Qed.

Lemma fixed_size_no_chunk_iff_blank_witness :
  exists r,
    TextSplitter.fixed_size_with_overlap (repeat SPACE 100) 500 50 = Some (Ok r) /\
    (TextSplitter.chunks r = [] <-> Shape.blank (repeat SPACE 100)).
Proof.
  apply (fixed_size_no_chunk_iff_blank (repeat SPACE 100) 500 50); lia.
Defined.

(** ** Grouping of sentences *)

Section SentenceGroups.

Import TextSplitter Aux Shape.

Lemma join_space_cons (s : str) (l : list str) :
  join_space (s :: l) = if truthy l then s ++ SPACE :: join_space l else s.
Proof. destruct l; reflexivity. Qed.

Lemma join_space_app (a b : list str) :
  a <> [] -> b <> [] ->
  join_space (a ++ b) = join_space a ++ SPACE :: join_space b.
Proof.
  intros Ha Hb. induction a as [|s a IH]; [congruence|].
  destruct a as [|s' a].
  - simpl app. rewrite join_space_cons.
    destruct b; [congruence|reflexivity].
  - change ((s :: s' :: a) ++ b) with (s :: (s' :: a) ++ b).
    rewrite (join_space_cons s ((s' :: a) ++ b)), (join_space_cons s (s' :: a)).
    rewrite IH by discriminate. cbn [truthy app].
    rewrite <- app_assoc. reflexivity.
Qed.

Lemma join_space_truthy (l : list str) :
  l <> [] -> Forall (fun s => truthy s = true) l -> truthy (join_space l) = true.
Proof.
  intros Hne Hall. destruct l as [|s l]; [congruence|].
  inversion Hall as [|? ? Hs _]; subst.
  rewrite join_space_cons. destruct s; [discriminate|].
  destruct (truthy l); reflexivity.
Qed.

Lemma join_space_groups (G : list (list str)) :
  Forall (fun g => g <> []) G ->
  join_space (List.map join_space G) = join_space (concat G).
Proof.
  induction 1 as [|g G Hg HG IH]; [reflexivity|].
  cbn [List.map concat]. rewrite join_space_cons.
  destruct G as [|g' G].
  - simpl. rewrite app_nil_r. reflexivity.
  - cbn [truthy List.map]. cbn [List.map] in IH. rewrite IH.
    rewrite join_space_app; [reflexivity|exact Hg|].
    inversion HG as [|? ? Hg' _]; subst.
    simpl. destruct g'; [congruence|discriminate].
Qed.

Lemma fold_append_if_truthy {A : Type} (f : A -> str) (idx : list A) :
  forall acc,
    fold_left (fun acc i => append_if_truthy acc (f i)) idx acc
    = acc ++ List.filter truthy (List.map f idx).
Proof.
  induction idx as [|i idx IH]; intros acc; simpl.
  - rewrite app_nil_r. reflexivity.
  - rewrite IH. unfold append_if_truthy.
    destruct (truthy (f i)); [rewrite <- app_assoc|]; reflexivity.
Qed.

Lemma filter_all {A : Type} (p : A -> bool) (l : list A) :
  Forall (fun x => p x = true) l -> List.filter p l = l.
Proof.
  induction 1 as [|x l Hx _ IH]; simpl; [reflexivity|]. rewrite Hx, IH. reflexivity.
Qed.

Lemma groups_members {A : Type} (k : Z) (l : list A) (g : list A) (x : A) :
  (0 < k)%Z -> In g (groups k l) -> In x g -> In x l.
Proof.
  intros Hk Hg Hx. rewrite <- (groups_concat k l Hk).
  apply in_concat. exists g. split; assumption.
Qed.

Lemma num_groups_zero (n : nat) (k : Z) :
  (0 < k)%Z -> (num_groups n k = 0 <-> n = 0).
Proof.
  intros Hk. split.
  - intros H. pose proof (num_groups_cover n k Hk). rewrite H in *. lia.
  - intros ->. unfold num_groups. simpl. rewrite Z.div_small by lia. reflexivity.
Qed.

(** The chunks of the sentence strategy for a positive group size. *)
Lemma sentence_based_groups (text : str) (k : Z) :
  (0 < k)%Z ->
  sentence_based_splitting text k =
  let sentences := clean_sentences (re_split sentence_pattern text) in
  let chunks := List.map join_space (groups k sentences) in
  Ok {| chunks := chunks;
        strategy := "sentence_based";
        num_chunks := length chunks;
        avg_chunk_size := avg_size chunks |}.
Proof.
  intros Hk. unfold sentence_based_splitting. cbn zeta.
  set (sentences := clean_sentences (re_split sentence_pattern text)).
  destruct (range_slices sentences k Hk) as [idx [Hidx Hsl]].
  rewrite Hidx. cbn [Py.bind].
  assert (Hchunks : fold_left (sentence_step sentences k) idx []
                    = List.map join_space (groups k sentences)).
  { unfold sentence_step.
    rewrite (fold_append_if_truthy
               (fun i => join_space (slice sentences i (i + k)%Z)) idx []).
    simpl app. rewrite <- Hsl, map_map. apply filter_all.
    apply Forall_forall. intros c Hc. apply in_map_iff in Hc.
    destruct Hc as [i [<- Hi]].
    assert (Hg : In (slice sentences i (i + k)%Z) (groups k sentences)).
    { rewrite <- Hsl. apply in_map_iff. exists i. split; [reflexivity|exact Hi]. }
    apply join_space_truthy.
    - pose proof (groups_nonempty k sentences Hk) as Hne.
      rewrite Forall_forall in Hne. apply Hne. exact Hg.
    - apply Forall_forall. intros s Hs.
      pose proof (clean_sentences_truthy (re_split sentence_pattern text)) as Ht.
      rewrite Forall_forall in Ht. apply Ht.
      eapply groups_members; eassumption. }
  rewrite Hchunks. reflexivity.
Qed.

(** Every character that is not whitespace lands in some piece of the
    sentence split. *)
Lemma re_split_sentence_covers (s : str) :
  forall skip prev cur c,
    Forall (fun x => is_space x = true) (firstn skip s) ->
    In c cur \/ In c s -> is_space c = false ->
    exists p, In p (re_split_aux sentence_pattern skip prev cur s) /\ In c p.
Proof.
  induction s as [|x s IH]; intros skip prev cur c Hskip Hin Hc.
  - exists (rev cur). split; [left; reflexivity|].
    destruct Hin as [Hin|[]]. apply in_rev in Hin. exact Hin.
  - cbn [re_split_aux]. destruct skip as [|k].
    + rewrite sentence_pattern_boundary.
      destruct (boundary prev x) eqn:Hb.
      * assert (Hx : is_space x = true).
        { destruct prev; simpl in Hb; [|discriminate].
          apply andb_prop in Hb. apply Hb. }
        destruct Hin as [Hin|[Heq|Hin]].
        -- exists (rev cur). split; [left; reflexivity|].
           apply in_rev in Hin. exact Hin.
        -- subst x. congruence.
        -- destruct (IH (length s - length (dropwhile is_space (x :: s)))
                        (Some x) [] c) as [p [Hp Hcp]];
             [|right; exact Hin|exact Hc|exists p; split; [right; exact Hp|exact Hcp]].
           simpl. rewrite Hx.
           destruct (dropwhile_suffix is_space s) as [a [Ha Hpa]].
           assert (Hlen : length s - length (dropwhile is_space s) = length a).
           { rewrite Ha at 1. rewrite length_app. lia. }
           rewrite Hlen. rewrite Ha at 1. rewrite firstn_app, Nat.sub_diag, firstn_O,
             app_nil_r, firstn_all.
           apply Forall_forall. apply forallb_forall. exact Hpa.
      * destruct (IH 0 (Some x) (x :: cur) c) as [p [Hp Hcp]];
          [constructor| |exact Hc|exists p; split; assumption].
        destruct Hin as [Hin|[Heq|Hin]];
          [left; right; exact Hin|left; left; exact Heq|right; exact Hin].
    + inversion Hskip as [|? ? Hx Hrest]; subst.
      destruct (IH k (Some x) cur c) as [p [Hp Hcp]];
        [exact Hrest| |exact Hc|exists p; split; assumption].
      destruct Hin as [Hin|[Heq|Hin]];
        [left; exact Hin|subst x; congruence|right; exact Hin].
Qed.

(** The text has a sentence exactly when it is not whitespace only. *)
Lemma clean_sentences_nil_iff_blank (text : str) :
  clean_sentences (re_split sentence_pattern text) = [] <-> blank text.
Proof.
  split.
  - intros Hnil. apply Forall_forall. intros c Hin.
    destruct (is_space c) eqn:Hc; [reflexivity|exfalso].
    destruct (re_split_sentence_covers text 0 None [] c) as [p [Hp Hcp]];
      [constructor|right; exact Hin|exact Hc|].
    assert (Hs : truthy (strip p) = true).
    { apply truthy_nonempty. intros Hstrip. apply strip_nil_blank in Hstrip.
      unfold blank in Hstrip. rewrite Forall_forall in Hstrip.
      rewrite (Hstrip c Hcp) in Hc. discriminate. }
    assert (Hmem : In (strip p) (clean_sentences (re_split sentence_pattern text))).
    { unfold clean_sentences. apply in_map. apply filter_In. split; assumption. }
    rewrite Hnil in Hmem. destruct Hmem.
  - intros Hblank. unfold clean_sentences.
    assert (Hpieces : Forall (Forall (fun c => is_space c = true))
                        (re_split sentence_pattern text))
      by (apply re_split_aux_chars; [constructor|exact Hblank]).
    induction Hpieces as [|p ps Hp _ IH]; [reflexivity|].
    simpl. rewrite (strip_blank p Hp). exact IH.
Qed.

End SentenceGroups.

(** X5. For a positive [sentences_per_chunk] the sentence strategy
    returns one chunk per group of consecutive sentences: the chunks are
    the space-joined groups, their number is
    [ceil(len(sentences) / sentences_per_chunk)], none is empty, and
    joining the chunks with spaces gives the same string as joining the
    sentences: no sentence is lost, duplicated or reordered. *)
Theorem sentence_based_grouping :
  forall (text : str) (sentences_per_chunk : Z),
    (0 < sentences_per_chunk)%Z ->
    exists r,
      TextSplitter.sentence_based_splitting text sentences_per_chunk = Ok r /\
      let sentences :=
        TextSplitter.clean_sentences (re_split TextSplitter.sentence_pattern text) in
      TextSplitter.chunks r
        = List.map join_space (Shape.groups sentences_per_chunk sentences) /\
      TextSplitter.num_chunks r
        = Shape.num_groups (length sentences) sentences_per_chunk /\
      Forall (fun c => c <> []) (TextSplitter.chunks r) /\
      join_space (TextSplitter.chunks r) = join_space sentences.
Proof.
  intros text k Hk. rewrite (sentence_based_groups text k Hk). cbn zeta.
  eexists. split; [reflexivity|]. cbn.
  set (sentences := TextSplitter.clean_sentences
                      (re_split TextSplitter.sentence_pattern text)).
  split; [reflexivity|]. split; [|split].
  - rewrite length_map. apply groups_length.
  - apply Forall_forall. intros c Hc. apply in_map_iff in Hc.
    destruct Hc as [g [<- Hg]]. apply truthy_nonempty. apply join_space_truthy.
    + pose proof (groups_nonempty k sentences Hk) as Hne.
      rewrite Forall_forall in Hne. apply Hne. exact Hg.
    + apply Forall_forall. intros s Hs.
      pose proof (clean_sentences_truthy
                    (re_split TextSplitter.sentence_pattern text)) as Ht.
      rewrite Forall_forall in Ht. apply Ht.
      eapply groups_members; eassumption.
  - rewrite join_space_groups by (apply groups_nonempty; exact Hk).
    rewrite groups_concat by exact Hk. reflexivity.
Qed.

Lemma sentence_based_grouping_witness :
  exists r,
    TextSplitter.sentence_based_splitting (str_of "A b. C d! E? F. G") 2 = Ok r /\
    TextSplitter.chunks r = [str_of "A b. C d!"; str_of "E? F."; str_of "G"] /\
    TextSplitter.num_chunks r = 3.
Proof.
  destruct (sentence_based_grouping (str_of "A b. C d! E? F. G") 2)
    as [r [Hr [Hc [Hn _]]]]; [lia|].
  exists r. split; [exact Hr|]. split.
  - rewrite Hc. vm_compute. reflexivity.
  - rewrite Hn. vm_compute. reflexivity.
Defined.

(** X6. For a positive [sentences_per_chunk] the sentence strategy
    returns no chunk exactly when the text is whitespace only. *)
Theorem sentence_based_no_chunk_iff_blank :
  forall (text : str) (sentences_per_chunk : Z),
    (0 < sentences_per_chunk)%Z ->
    exists r,
      TextSplitter.sentence_based_splitting text sentences_per_chunk = Ok r /\
      (TextSplitter.chunks r = [] <-> Shape.blank text).
Proof.
  intros text k Hk. rewrite (sentence_based_groups text k Hk). cbn zeta.
  eexists. split; [reflexivity|]. cbn.
  rewrite <- clean_sentences_nil_iff_blank.
  set (sentences := TextSplitter.clean_sentences
                      (re_split TextSplitter.sentence_pattern text)).
  split.
  - intros H. apply (f_equal (@length str)) in H.
    rewrite length_map, groups_length in H. simpl in H.
    apply (num_groups_zero (length sentences) k Hk) in H.
    destruct sentences; [reflexivity|discriminate].
  - intros ->. unfold Shape.groups. cbn [length].
    rewrite (proj2 (num_groups_zero 0 k Hk) eq_refl). reflexivity.
Qed.

Lemma sentence_based_no_chunk_iff_blank_witness :
  exists r,
    TextSplitter.sentence_based_splitting (repeat SPACE 100) 5 = Ok r /\
    (TextSplitter.chunks r = [] <-> Shape.blank (repeat SPACE 100)).
Proof.
  apply (sentence_based_no_chunk_iff_blank (repeat SPACE 100) 5). lia.
Defined.

(** X7. A text in which no whitespace follows [.], [!] or [?] is one
    sentence: for every positive [sentences_per_chunk] the result is the
    whole trimmed text as the only chunk (no chunk for a whitespace-only
    text). *)
Theorem sentence_based_single_sentence :
  forall (text : str) (sentences_per_chunk : Z),
    (0 < sentences_per_chunk)%Z ->
    Aux.no_boundary None text = true ->
    exists r,
      TextSplitter.sentence_based_splitting text sentences_per_chunk = Ok r /\
      TextSplitter.chunks r = (if truthy (strip text) then [strip text] else []).
Proof.
  intros text k Hk Hnb. rewrite (sentence_based_groups text k Hk). cbn zeta.
  eexists. split; [reflexivity|]. cbn.
  unfold re_split. rewrite (re_split_no_boundary text None [] Hnb). simpl app.
  unfold TextSplitter.clean_sentences. cbn [List.filter List.map].
  destruct (truthy (strip text)) eqn:Ht; cbn [List.map].
  - unfold Shape.groups. cbn [length].
    assert (Hone : Shape.num_groups 1 k = 1).
    { unfold Shape.num_groups. replace (Z.of_nat 1 + k - 1)%Z with k by lia.
      rewrite Z.div_same by lia. reflexivity. }
    rewrite Hone. cbn [seq List.map]. rewrite Nat.mul_0_l, skipn_O.
    rewrite firstn_all2 by (simpl; lia). reflexivity.
  - unfold Shape.groups. cbn [length].
    rewrite (proj2 (num_groups_zero 0 k Hk) eq_refl). reflexivity.
Qed.

Lemma sentence_based_single_sentence_witness :
  exists r,
    TextSplitter.sentence_based_splitting (str_of " version 3.14 released ") 5 = Ok r /\
    TextSplitter.chunks r = [str_of "version 3.14 released"].
Proof.
  apply (sentence_based_single_sentence (str_of " version 3.14 released ") 5).
  - lia.
  - vm_compute. reflexivity.
Defined.

(** ** Paragraphs *)

Section ParagraphResults.

Import TextSplitter Shape.

Lemma paragraph_pattern_prev (prev : option char) (s : str) :
  paragraph_pattern prev s = paragraph_pattern None s.
Proof. reflexivity. Qed.

(** A text without a blank line is a single paragraph. *)
Lemma re_split_no_blank_line (s : str) :
  no_blank_line s = true ->
  forall prev cur, re_split_aux paragraph_pattern 0 prev cur s = [rev cur ++ s].
Proof.
  induction s as [|c s IH]; intros H prev cur.
  - simpl. rewrite app_nil_r. reflexivity.
  - cbn [re_split_aux]. rewrite paragraph_pattern_prev.
    cbn [no_blank_line] in H.
    destruct (paragraph_pattern None (c :: s)); [discriminate|].
    rewrite (IH H). simpl. rewrite <- app_assoc. reflexivity.
Qed.

Lemma re_split_aux_nonempty m (s : str) :
  forall skip prev cur, 1 <= length (re_split_aux m skip prev cur s).
Proof.
  induction s as [|c s IH]; intros skip prev cur; [simpl; lia|].
  cbn [re_split_aux]. destruct skip; [destruct (m prev (c :: s))|];
    try apply IH. simpl. lia.
Qed.

Lemma append_to_last_length (chunks : list str) (para : str) :
  chunks <> [] -> length (append_to_last chunks para) = length chunks.
Proof.
  intros H. unfold append_to_last. rewrite length_app. simpl.
  destruct chunks as [|c cs]; [congruence|].
  rewrite removelast_firstn_len, length_firstn. simpl. lia.
Qed.

Lemma append_to_last_Forall (P : str -> Prop) (chunks : list str) (para : str) :
  chunks <> [] ->
  (forall c, P c -> P (c ++ SPACE :: para)) ->
  Forall P chunks -> Forall P (append_to_last chunks para).
Proof.
  intros Hne Hext Hall. unfold append_to_last.
  rewrite (app_removelast_last [] Hne) in Hall.
  apply Forall_app in Hall. destruct Hall as [Hinit Hlast].
  apply Forall_app. split; [exact Hinit|].
  inversion Hlast; subst. constructor; [|constructor]. apply Hext. assumption.
Qed.

(** Invariant of the paragraph loop: every collected chunk reaches the
    minimum length, and there are no more chunks than paragraphs. *)
Lemma paragraph_loop_invariant (min_paragraph_length : Z) (paragraphs : list str) :
  forall acc,
    Forall (fun c => (min_paragraph_length <= Z.of_nat (length c))%Z) acc ->
    let out := fold_left (paragraph_step min_paragraph_length) paragraphs acc in
    Forall (fun c => (min_paragraph_length <= Z.of_nat (length c))%Z) out /\
    length out <= length acc + length paragraphs.
Proof.
  induction paragraphs as [|p ps IH]; intros acc Hacc; cbn zeta.
  - simpl. split; [exact Hacc|]. unfold str. lia.
  - cbn [fold_left].
    assert (Hstep : Forall (fun c => (min_paragraph_length <= Z.of_nat (length c))%Z)
                      (paragraph_step min_paragraph_length acc p) /\
                    length (paragraph_step min_paragraph_length acc p)
                    <= S (length acc)).
    { unfold paragraph_step, str in *.
      destruct (Z.geb_spec (Z.of_nat (length (strip p))) min_paragraph_length).
      - split; [|rewrite length_app; simpl; lia].
        apply Forall_app. split; [exact Hacc|]. constructor; [lia|constructor].
      - destruct acc as [|c cs]; [split; [constructor|simpl; lia]|].
        cbn [truthy]. split.
        + apply append_to_last_Forall; [discriminate| |exact Hacc].
          intros x Hx. rewrite length_app. cbn [length]. lia.
        + rewrite append_to_last_length by discriminate. unfold str. lia. }
    destruct Hstep as [Hall Hlen].
    destruct (IH _ Hall) as [Hout Hcount]. cbn zeta in Hout, Hcount.
    unfold str in *.
    split; [exact Hout|]. unfold str in *. simpl. lia.
Qed.

(** The paragraph strategy returns a chunk whenever the trimmed text is
    not empty. *)
Lemma paragraph_based_not_blank (text : str) (min_paragraph_length : Z) :
  ~ blank text ->
  chunks (paragraph_based_splitting text min_paragraph_length) <> [].
Proof.
  intros Hnb. rewrite paragraph_chunks_unfold. cbn zeta.
  assert (Ht : truthy (strip text) = true).
  { apply truthy_nonempty. intros H. apply Hnb. apply strip_nil_blank. exact H. }
  destruct (fold_left _ _ _); simpl; [rewrite Ht|]; discriminate.
Qed.

End ParagraphResults.

(** X8. A text without a blank line (no newline followed, after optional
    whitespace, by a second newline) is one paragraph: for every minimum
    length the result is the whole trimmed text as the only chunk; only
    a whitespace-only text with a positive minimum gives no chunk. *)
Theorem paragraph_based_single_paragraph :
  forall (text : str) (min_paragraph_length : Z),
    Shape.no_blank_line text = true ->
    TextSplitter.chunks
      (TextSplitter.paragraph_based_splitting text min_paragraph_length)
    = (if truthy (strip text) || (0 >=? min_paragraph_length)%Z
       then [strip text] else []).
Proof.
  intros text mpl Hnb. rewrite paragraph_chunks_unfold. cbn zeta.
  unfold re_split. rewrite (re_split_no_blank_line text Hnb None []).
  simpl app. cbn [fold_left]. unfold TextSplitter.paragraph_step. cbn [truthy].
  destruct (strip text) as [|c s] eqn:Hs.
  - cbn [length truthy]. change (Z.of_nat 0) with 0%Z.
    destruct (0 >=? mpl)%Z; reflexivity.
  - cbn [truthy orb].
    destruct (Z.of_nat (length (c :: s)) >=? mpl)%Z; reflexivity.
Qed.

Lemma paragraph_based_single_paragraph_witness :
  TextSplitter.chunks
    (TextSplitter.paragraph_based_splitting (str_of " one line, no break ") 100)
  = [str_of "one line, no break"].
Proof.
  apply (paragraph_based_single_paragraph (str_of " one line, no break ") 100).
  vm_compute. reflexivity.
Defined.

(** X9. Every chunk of the paragraph strategy has at least
    [min_paragraph_length] characters, unless the result is the
    whole-text fallback; and there are never more chunks than
    paragraphs. *)
Theorem paragraph_based_min_length :
  forall (text : str) (min_paragraph_length : Z),
    let r := TextSplitter.paragraph_based_splitting text min_paragraph_length in
    (TextSplitter.chunks r = [strip text] \/
     Forall (fun c => (min_paragraph_length <= Z.of_nat (length c))%Z)
            (TextSplitter.chunks r)) /\
    TextSplitter.num_chunks r
      <= length (re_split TextSplitter.paragraph_pattern text).
Proof.
  intros text mpl. cbn zeta.
  change (TextSplitter.num_chunks (TextSplitter.paragraph_based_splitting text mpl))
    with (length (TextSplitter.chunks (TextSplitter.paragraph_based_splitting text mpl))).
  rewrite paragraph_chunks_unfold. cbn zeta.
  destruct (paragraph_loop_invariant mpl
              (re_split TextSplitter.paragraph_pattern text) [])
    as [Hall Hcount]; [constructor|]. cbn zeta in Hall, Hcount.
  pose proof (re_split_aux_nonempty TextSplitter.paragraph_pattern text 0 None [])
    as Hpieces. fold (re_split TextSplitter.paragraph_pattern text) in Hpieces.
  unfold str in *.
  destruct (negb (truthy (fold_left _ _ _)) && truthy (strip text)).
  - split; [left; reflexivity|simpl; lia].
  - split; [right; exact Hall|simpl in Hcount; lia].
Qed.

(** ** All strategies together *)

Section SplitAll.

Import TextSplitter Shape.

Lemma sentence_based_blank_iff (text : str) (k : Z) :
  (0 < k)%Z ->
  exists r,
    sentence_based_splitting text k = Ok r /\
    (chunks r = [] <-> blank text).
Proof.
  intros Hk. rewrite (sentence_based_groups text k Hk). cbn zeta.
  eexists. split; [reflexivity|]. cbn.
  rewrite <- clean_sentences_nil_iff_blank.
  set (sentences := clean_sentences (re_split sentence_pattern text)).
  split.
  - intros H. apply (f_equal (@length str)) in H.
    rewrite length_map, groups_length in H. simpl in H.
    apply (num_groups_zero (length sentences) k Hk) in H.
    destruct sentences; [reflexivity|discriminate].
  - intros ->. unfold groups. cbn [length].
    rewrite (proj2 (num_groups_zero 0 k Hk) eq_refl). reflexivity.
Qed.

Lemma split_all_strategies_unfold (text : str) fixed_result sentence_result :
  fixed_size_with_overlap text 500 50 = Some (Ok fixed_result) ->
  sentence_based_splitting text 5 = Ok sentence_result ->
  split_all_strategies text =
    Some (Ok [("fixed_size"%string, fixed_result);
              ("sentence_based"%string, sentence_result);
              ("paragraph_based"%string, paragraph_based_splitting text 100)]).
Proof.
  intros Hf Hs. unfold split_all_strategies. rewrite Hf, Hs. reflexivity.
Qed.

Lemma fixed_size_default_blank_iff (text : str) :
  exists r,
    fixed_size_with_overlap text 500 50 = Some (Ok r) /\
    (chunks r = [] <-> blank text).
Proof.
  destruct (fixed_size_with_overlap_loop text 500 50) as [out [Hloop Hres]]; [lia|].
  eexists. split; [exact Hres|]. cbn [chunks].
  apply (fixed_size_loop_blank_iff text 500 50 out); [lia|lia|exact Hloop].
Qed.

End SplitAll.

(** X10. [split_all_strategies] returns for every text (the default
    parameters raise nothing and the fixed-size loop terminates). Its
    mapping has the keys [fixed_size], [sentence_based],
    [paragraph_based] in this order, bound to the results of the three
    strategies with their defaults (500/50, 5, 100). For a
    whitespace-only text all three chunk lists are empty, for any other
    text all three are non-empty. *)
Theorem split_all_strategies_total :
  forall text : str,
    exists fixed_result sentence_result,
      TextSplitter.fixed_size_with_overlap text 500 50 = Some (Ok fixed_result) /\
      TextSplitter.sentence_based_splitting text 5 = Ok sentence_result /\
      TextSplitter.split_all_strategies text =
        Some (Ok [("fixed_size"%string, fixed_result);
                  ("sentence_based"%string, sentence_result);
                  ("paragraph_based"%string,
                   TextSplitter.paragraph_based_splitting text 100)]) /\
      (Shape.blank text ->
         TextSplitter.chunks fixed_result = [] /\
         TextSplitter.chunks sentence_result = [] /\
         TextSplitter.chunks (TextSplitter.paragraph_based_splitting text 100) = []) /\
      (~ Shape.blank text ->
         TextSplitter.chunks fixed_result <> [] /\
         TextSplitter.chunks sentence_result <> [] /\
         TextSplitter.chunks (TextSplitter.paragraph_based_splitting text 100) <> []).
Proof.
  intros text.
  destruct (fixed_size_default_blank_iff text) as [f [Hf Hfb]].
  destruct (sentence_based_blank_iff text 5) as [s [Hs Hsb]]; [lia|].
  exists f, s. split; [exact Hf|]. split; [exact Hs|]. split; [|split].
  - apply split_all_strategies_unfold; assumption.
  - intros Hb. split; [apply Hfb; exact Hb|]. split; [apply Hsb; exact Hb|].
    apply paragraph_based_blank; [exact Hb|lia].
  - intros Hnb. split; [|split].
    + intros H. apply Hnb. apply Hfb. exact H.
    + intros H. apply Hnb. apply Hsb. exact H.
    + apply paragraph_based_not_blank. exact Hnb.
Qed.

Lemma split_all_strategies_total_witness :
  exists fixed_result sentence_result,
    TextSplitter.split_all_strategies (repeat SPACE 3) =
      Some (Ok [("fixed_size"%string, fixed_result);
                ("sentence_based"%string, sentence_result);
                ("paragraph_based"%string,
                 TextSplitter.paragraph_based_splitting (repeat SPACE 3) 100)]) /\
    TextSplitter.chunks fixed_result = [] /\
    TextSplitter.chunks sentence_result = [].
Proof.
  destruct (split_all_strategies_total (repeat SPACE 3))
    as [f [s [_ [_ [Hall [Hblank _]]]]]].
  exists f, s. split; [exact Hall|].
  assert (Hb : Shape.blank (repeat SPACE 3)) by (repeat constructor).
  destruct (Hblank Hb) as [Hf [Hs _]]. split; assumption.
Defined.

(* ================================================================== *)
(** * Further properties of the evaluator *)
(* ================================================================== *)

Section EvaluatorMore.

Import TextSplitter StrategyEvaluator Aux.
Local Open Scope R_scope.

Lemma cosine_similarity_ok_inv emb1 emb2 x :
  cosine_similarity emb1 emb2 = Ok x ->
  (0 < length emb1)%nat /\ length emb2 = length emb1.
Proof.
  unfold cosine_similarity.
  destruct (Nat.eqb_spec (length emb1) 0) as [|H1]; [discriminate|].
  destruct (Nat.eqb_spec (length emb2) 0) as [|H2]; [discriminate|].
  destruct (Nat.eqb_spec (length emb1) (length emb2)) as [H12|]; [|discriminate].
  cbn [orb negb]. intros _. split; lia.
Qed.

Lemma cosine_similarity_err_inv emb1 emb2 e :
  cosine_similarity emb1 emb2 = Err e -> e = ValueError.
Proof.
  unfold cosine_similarity.
  destruct (_ || _); [intros H; inversion H; reflexivity|].
  destruct (negb _); intros H; inversion H; reflexivity.
Qed.

Lemma consecutive_similarities_err_inv embeddings e :
  consecutive_similarities embeddings = Err e -> e = ValueError.
Proof.
  induction embeddings as [|e1 rest IH]; [discriminate|].
  destruct rest as [|e2 rest']; [discriminate|].
  rewrite consecutive_similarities_step.
  destruct (cosine_similarity e1 e2) as [x|e'] eqn:Hc.
  - cbn [Py.bind].
    destruct (consecutive_similarities (e2 :: rest')) as [sims|e'']; [discriminate|].
    cbn [Py.bind]. intros H. inversion H; subst. apply IH. reflexivity.
  - cbn [Py.bind]. intros H. inversion H; subst.
    eapply cosine_similarity_err_inv; exact Hc.
Qed.

(** The loop over consecutive pairs succeeds only on a list with fewer
    than two vectors or on vectors of one positive dimension. *)
Lemma consecutive_similarities_ok_inv embeddings :
  forall sims, consecutive_similarities embeddings = Ok sims ->
    (length embeddings < 2)%nat \/
    exists D, (0 < D)%nat /\ well_shaped D embeddings.
Proof.
  induction embeddings as [|e1 rest IH]; intros sims H.
  - left; simpl; lia.
  - destruct rest as [|e2 rest'].
    + left; simpl; lia.
    + rewrite consecutive_similarities_step in H.
      destruct (cosine_similarity e1 e2) as [x|] eqn:Hc; [|discriminate].
      cbn [Py.bind] in H.
      destruct (consecutive_similarities (e2 :: rest')) as [sims'|] eqn:Hr;
        [|discriminate].
      cbn [Py.bind] in H. inversion H; subst.
      apply cosine_similarity_ok_inv in Hc. destruct Hc as [Hpos Hlen].
      pose proof (IH sims' eq_refl) as Hshape.
      right.
      exists (length e1). split; [exact Hpos|].
      constructor; [reflexivity|].
      destruct Hshape as [Hshort|[D [HD Hws]]].
      * destruct rest'; [|simpl in Hshort; lia].
        constructor; [exact Hlen|constructor].
      * inversion Hws as [|? ? He2 _].
        rewrite <- Hlen, He2. exact Hws.
Qed.

Lemma Rmin_one_iff (t n : R) : 0 < n -> (Rmin 1 (t / n) = 1 <-> n <= t).
Proof.
  intros Hn. unfold Rmin.
  assert (Hq : t / n * n = t) by (field; lra).
  destruct (Rle_dec 1 (t / n)) as [H|H]; split; intros H'.
  - nra.
  - reflexivity.
  - nra.
  - exfalso. apply H.
    apply (Rmult_le_reg_r n); [exact Hn|]. rewrite Hq. lra.
Qed.

Lemma Rsum_repeat (x : R) (k : nat) : Rsum (repeat x k) = INR k * x.
Proof.
  induction k as [|k IH].
  - simpl. lra.
  - rewrite S_INR. cbn [repeat]. cbn [Rsum fold_right]. fold (Rsum (repeat x k)).
    rewrite IH. ring.
Qed.

Lemma map_const_repeat {A B : Type} (f : A -> B) (y : B) (l : list A) :
  Forall (fun x => f x = y) l -> List.map f l = repeat y (length l).
Proof.
  induction 1 as [|x l Hx _ IH]; simpl; [reflexivity|]. rewrite Hx, IH. reflexivity.
Qed.

Lemma np_mean_repeat (x : R) (k : nat) : np_mean (repeat x (S k)) = Fin x.
Proof.
  cbn [repeat]. rewrite np_mean_cons. f_equal.
  change (x :: repeat x k) with (repeat x (S k)).
  rewrite Rsum_repeat, repeat_length. field.
  apply not_0_INR. discriminate.
Qed.

Lemma np_std_repeat (x : R) (k : nat) : np_std (repeat x (S k)) = Fin 0.
Proof.
  cbn [repeat]. unfold np_std. f_equal.
  change (x :: repeat x k) with (repeat x (S k)).
  assert (Hmean : Rsum (repeat x (S k)) / INR (length (repeat x (S k))) = x).
  { rewrite Rsum_repeat, repeat_length. field. apply not_0_INR. discriminate. }
  rewrite Hmean.
  rewrite (map_const_repeat (fun y : R => Rsqr (Rabs (y - x))) 0).
  - rewrite Rsum_repeat, Rmult_0_r. unfold Rdiv. rewrite Rmult_0_l. apply sqrt_0.
  - apply Forall_forall. intros y Hy. apply repeat_spec in Hy. subst y.
    rewrite Rminus_diag, Rabs_R0. apply Rsqr_0.
Qed.

End EvaluatorMore.

(** X11. For a non-empty original text [calculate_coverage_score]
    returns a number in [0, 1], and it is exactly 1 (the cap) when the
    chunks hold at least as many characters as the text. *)
Theorem coverage_score_range :
  forall (original_text : str) (chunks : list str),
    original_text <> [] ->
    exists c,
      StrategyEvaluator.calculate_coverage_score original_text chunks
        = Ok (StrategyEvaluator.Fin c) /\
      (0 <= c <= 1)%R /\
      (c = 1%R <-> length original_text <= total_len chunks).
Proof.
  intros original_text chunks Ht.
  assert (Hlen : 0 < length original_text)
    by (destruct original_text; [congruence|simpl; lia]).
  eexists. split; [apply calculate_coverage_score_value; exact Ht|].
  split; [apply coverage_bounds; exact Hlen|].
  rewrite Rmin_one_iff by (apply IZR_lt; lia).
  split; intros H.
  - apply le_IZR in H. lia.
  - apply IZR_le. lia.
Qed.

Lemma coverage_score_range_witness :
  exists c,
    StrategyEvaluator.calculate_coverage_score (str_of "One. Two.")
      [str_of "One."; str_of "Two."] = Ok (StrategyEvaluator.Fin c) /\
    (0 <= c <= 1)%R.
Proof.
  destruct (coverage_score_range (str_of "One. Two.") [str_of "One."; str_of "Two."])
    as [c [Hc [Hb _]]]; [discriminate|].
  exists c. split; assumption.
Defined.

(** X12. For vectors of finite numbers,
    [calculate_embedding_similarity] returns exactly when the list has
    fewer than two vectors (the result is then 0, whatever the vectors
    are, an empty or ragged list included) or all vectors share one
    dimension [D >= 1]; every other list raises, and the exception is
    the [ValueError] of the library's input validation. *)
Theorem embedding_similarity_domain :
  forall embeddings : list (list R),
    ((exists s, StrategyEvaluator.calculate_embedding_similarity embeddings = Ok s)
     <-> (length embeddings < 2 \/
          exists D, 0 < D /\ Aux.well_shaped D embeddings)) /\
    (forall e, StrategyEvaluator.calculate_embedding_similarity embeddings = Err e ->
       e = ValueError) /\
    (length embeddings < 2 ->
       StrategyEvaluator.calculate_embedding_similarity embeddings
       = Ok (StrategyEvaluator.Fin 0)).
Proof.
  intros embeddings.
  assert (Hshort : length embeddings < 2 ->
            StrategyEvaluator.calculate_embedding_similarity embeddings
            = Ok (StrategyEvaluator.Fin 0))
    by apply calculate_embedding_similarity_short.
  split; [|split; [|exact Hshort]].
  - split.
    + intros [s Hs].
      destruct (Nat.lt_ge_cases (length embeddings) 2) as [Hlt|Hge];
        [left; exact Hlt|].
      rewrite calculate_embedding_similarity_long in Hs by exact Hge.
      destruct (StrategyEvaluator.consecutive_similarities embeddings)
        as [sims|] eqn:Hc; [|discriminate].
      apply consecutive_similarities_ok_inv in Hc. exact Hc.
    + intros [Hlt|[D [HD Hws]]].
      * eexists. apply Hshort. exact Hlt.
      * destruct (calculate_embedding_similarity_shaped_ok D embeddings HD Hws)
          as [s Hs].
        eexists. exact Hs.
  - intros e He.
    destruct (Nat.lt_ge_cases (length embeddings) 2) as [Hlt|Hge].
    + rewrite (Hshort Hlt) in He. discriminate.
    + rewrite calculate_embedding_similarity_long in He by exact Hge.
      destruct (StrategyEvaluator.consecutive_similarities embeddings)
        as [sims|e'] eqn:Hc; [discriminate|].
      cbn [Py.bind] in He. inversion He; subst.
      eapply consecutive_similarities_err_inv; exact Hc.
Qed.

Lemma embedding_similarity_domain_witness :
  StrategyEvaluator.calculate_embedding_similarity [[]] = Ok (StrategyEvaluator.Fin 0) /\
  exists s, StrategyEvaluator.calculate_embedding_similarity [[1; 2]; [3; 4]]%R = Ok s.
Proof.
  destruct (embedding_similarity_domain [[]]) as [_ [_ Hshort]].
  destruct (embedding_similarity_domain [[1; 2]; [3; 4]]%R) as [[_ Hret] _].
  split.
  - apply Hshort. simpl. lia.
  - apply Hret. right. exists 2. split; [lia|repeat constructor].
Defined.

(** X13. [evaluate_strategy] returns a record exactly when the chunk
    list and the original text are non-empty and the similarity
    computation succeeds. An error of the similarity computation is
    raised first; otherwise an empty chunk list or an empty text raises
    [ZeroDivisionError]. The returned record carries the strategy name
    and the chunk count. *)
Theorem evaluate_strategy_returns_iff :
  forall (name : string) (chunks : list str) (embeddings : list (list R))
         (original_text : str),
    ((exists m, StrategyEvaluator.evaluate_strategy name chunks embeddings
                  original_text = Ok m)
     <-> (chunks <> [] /\ original_text <> [] /\
          exists s, StrategyEvaluator.calculate_embedding_similarity embeddings = Ok s)) /\
    (forall e,
       StrategyEvaluator.calculate_embedding_similarity embeddings = Err e ->
       StrategyEvaluator.evaluate_strategy name chunks embeddings original_text = Err e) /\
    (forall s,
       StrategyEvaluator.calculate_embedding_similarity embeddings = Ok s ->
       chunks = [] \/ original_text = [] ->
       StrategyEvaluator.evaluate_strategy name chunks embeddings original_text
       = Err ZeroDivisionError) /\
    (forall m,
       StrategyEvaluator.evaluate_strategy name chunks embeddings original_text = Ok m ->
       StrategyEvaluator.strategy_name m = name /\
       StrategyEvaluator.num_chunks m = length chunks).
Proof.
  intros name chunks embeddings original_text.
  split; [|split; [|split]].
  - split.
    + intros [m Hm]. pose proof (evaluate_strategy_ok_inv _ _ _ _ _ Hm) as [Hc [Ht _]].
      split; [exact Hc|]. split; [exact Ht|].
      destruct (StrategyEvaluator.calculate_embedding_similarity embeddings)
        as [s|e] eqn:Hs; [eexists; reflexivity|].
      rewrite (evaluate_strategy_similarity_error _ _ _ _ _ Hs) in Hm. discriminate.
    + intros [Hc [Ht [s Hs]]].
      destruct (calculate_embedding_similarity_fin embeddings s Hs) as [x ->].
      destruct (evaluate_strategy_value name chunks embeddings original_text x Hc Ht Hs)
        as [avg [std [sc [cc [Hm _]]]]].
      eexists. exact Hm.
  - intros e He. apply evaluate_strategy_similarity_error. exact He.
  - intros s Hs [->| ->].
    + eapply evaluate_strategy_empty_chunks. exact Hs.
    + eapply evaluate_strategy_empty_text. exact Hs.
  - intros m Hm.
    pose proof (evaluate_strategy_ok_inv _ _ _ _ _ Hm) as [Hc [Ht [Hn _]]].
    split; [exact Hn|].
    destruct (StrategyEvaluator.calculate_embedding_similarity embeddings)
      as [s|e] eqn:Hs.
    + destruct (calculate_embedding_similarity_fin embeddings s Hs) as [x ->].
      destruct (evaluate_strategy_value name chunks embeddings original_text x Hc Ht Hs)
        as [avg [std [sc [cc [Hm' _]]]]].
      cbn zeta in Hm'. rewrite Hm' in Hm. inversion Hm. reflexivity.
    + rewrite (evaluate_strategy_similarity_error _ _ _ _ _ Hs) in Hm. discriminate.
Qed.

Lemma evaluate_strategy_returns_iff_witness :
  StrategyEvaluator.evaluate_strategy "fixed_size" [str_of "a"] [[]; [1%R]] (str_of "a")
  = Err ValueError.
Proof.
  destruct (evaluate_strategy_returns_iff "fixed_size" [str_of "a"] [[]; [1%R]]
              (str_of "a")) as [_ [Herr _]].
  apply Herr. reflexivity.
Defined.

(** X14. When all chunks have the same length [n], the size statistics
    are mean [n] and standard deviation 0. *)
Theorem chunk_statistics_equal_sizes :
  forall (chunks : list str) (n : nat),
    chunks <> [] ->
    Forall (fun c => length c = n) chunks ->
    StrategyEvaluator.calculate_chunk_statistics chunks
    = (StrategyEvaluator.Fin (INR n), StrategyEvaluator.Fin 0).
Proof.
  intros chunks n Hne Hall.
  unfold StrategyEvaluator.calculate_chunk_statistics. cbn zeta.
  assert (Hmap : List.map (fun chunk : list char => INR (length chunk)) chunks
                 = repeat (INR n) (length chunks)).
  { apply map_const_repeat. eapply Forall_impl; [|exact Hall].
    intros c Hc. simpl. rewrite Hc. reflexivity. }
  unfold str in *. rewrite Hmap.
  destruct chunks as [|c chunks]; [congruence|].
  cbn [length]. rewrite np_mean_repeat, np_std_repeat. reflexivity.
Qed.

Lemma chunk_statistics_equal_sizes_witness :
  StrategyEvaluator.calculate_chunk_statistics [str_of "One."; str_of "Two."]
  = (StrategyEvaluator.Fin (INR 4), StrategyEvaluator.Fin 0).
Proof.
  apply (chunk_statistics_equal_sizes [str_of "One."; str_of "Two."] 4).
  - discriminate.
  - repeat constructor.
Defined.

(** ** Selection over an arbitrary mapping *)

Section SelectionGeneral.

Import TextSplitter StrategyEvaluator Aux Outcome.

Lemma dict_get_in {V : Type} (d : dict V) (k : string) :
  In k (dict_keys d) -> exists v, dict_get d k = Ok v /\ In (k, v) d.
Proof.
  induction d as [|[k' v'] d IH]; intros Hin; [destruct Hin|].
  cbn [dict_get]. destruct (String.eqb_spec k' k) as [->|Hne].
  - exists v'. split; [reflexivity|left; reflexivity].
  - destruct Hin as [Heq|Hin]; [simpl in Heq; congruence|].
    destruct (IH Hin) as [v [Hv Hm]]. exists v. split; [exact Hv|right; exact Hm].
Qed.

Lemma dict_get_ok_in {V : Type} (d : dict V) (k : string) (v : V) :
  dict_get d k = Ok v -> In (k, v) d.
Proof.
  induction d as [|[k' v'] d IH]; [discriminate|].
  cbn [dict_get]. destruct (String.eqb_spec k' k) as [->|Hne].
  - intros H. inversion H. left. reflexivity.
  - intros H. right. apply IH. exact H.
Qed.

Lemma dict_get_err {V : Type} (d : dict V) (k : string) (e : exn) :
  dict_get d k = Err e -> e = KeyError /\ ~ In k (dict_keys d).
Proof.
  induction d as [|[k' v'] d IH]; cbn [dict_get].
  - intros H. inversion H. split; [reflexivity|intros []].
  - destruct (String.eqb_spec k' k) as [->|Hne]; [discriminate|].
    intros H. destruct (IH H) as [He Hn]. split; [exact He|].
    intros [Heq|Hin]; [simpl in Heq; congruence|contradiction].
Qed.

Lemma dict_set_in {V : Type} (d : dict V) (k : string) (v : V) n m :
  In (n, m) (dict_set d k v) -> (n, m) = (k, v) \/ In (n, m) d.
Proof.
  induction d as [|[k' v'] d IH]; cbn [dict_set].
  - intros [H|[]]. left. symmetry. exact H.
  - destruct (String.eqb_spec k' k) as [->|Hne].
    + intros [H|H]; [left; symmetry; exact H|right; right; exact H].
    + intros [H|H]; [right; left; exact H|].
      destruct (IH H) as [Heq|Hin]; [left; exact Heq|right; right; exact Hin].
Qed.

Lemma dict_set_nonempty {V : Type} (d : dict V) (k : string) (v : V) :
  dict_set d k v <> [].
Proof.
  destruct d as [|[k' v'] d]; cbn [dict_set]; [discriminate|].
  destruct (String.eqb k' k); discriminate.
Qed.

(** After [d[k] = v] the key is bound to [v]. *)
Lemma dict_get_set_same {V : Type} (d : dict V) (k : string) (v : V) :
  dict_get (dict_set d k v) k = Ok v.
Proof.
  induction d as [|[k' v'] d IH]; cbn [dict_set dict_get].
  - rewrite String.eqb_refl. reflexivity.
  - destruct (String.eqb k' k) eqn:E; cbn [dict_get]; rewrite E; [reflexivity|exact IH].
Qed.

Lemma dict_get_set_other {V : Type} (d : dict V) (k k0 : string) (v : V) :
  k0 <> k -> dict_get (dict_set d k v) k0 = dict_get d k0.
Proof.
  intros Hne. induction d as [|[k' v'] d IH]; cbn [dict_set dict_get].
  - destruct (String.eqb_spec k k0); [congruence|reflexivity].
  - destruct (String.eqb_spec k' k) as [->|Hk]; cbn [dict_get].
    + destruct (String.eqb_spec k k0); [congruence|reflexivity].
    + destruct (String.eqb k' k0); [reflexivity|exact IH].
Qed.

Lemma dict_set_keys {V : Type} (d : dict V) (k : string) (v : V) :
  dict_keys (dict_set d k v) =
  if existsb (String.eqb k) (dict_keys d) then dict_keys d else dict_keys d ++ [k].
Proof.
  induction d as [|[k' v'] d IH]; cbn [dict_set]; [reflexivity|].
  unfold dict_keys in *. cbn [List.map fst existsb].
  rewrite (String.eqb_sym k k').
  destruct (String.eqb k' k); cbn [List.map fst orb]; [reflexivity|].
  rewrite IH. destruct (existsb _ _); reflexivity.
Qed.

Variables (strategy_results : dict ChunkResult)
          (embedding_results : dict EmbeddingGenerator.EmbeddingResult)
          (original_text : str).

Lemma select_step_err_inv all_metrics name e :
  In name (dict_keys strategy_results) ->
  ((select_step strategy_results embedding_results original_text) all_metrics name = Err e <->
   step_fails strategy_results embedding_results original_text name e).
Proof.
  intros Hin. destruct (dict_get_in strategy_results name Hin) as [cr [Hcr _]].
  unfold select_step, step_fails. rewrite Hcr. cbn [Py.bind].
  split.
  - intros H. exists cr. split; [reflexivity|].
    destruct (dict_get embedding_results name) as [er|e'] eqn:Her.
    + right. exists er. split; [reflexivity|]. cbn [Py.bind] in H.
      destruct (evaluate_strategy _ _ _ _) as [m|e'']; [discriminate|].
      cbn [Py.bind] in H. inversion H. reflexivity.
    + left. cbn [Py.bind] in H. inversion H. reflexivity.
  - intros [cr' [Hcr' H]]. inversion Hcr'; subst cr'.
    destruct H as [H|[er [Her Hev]]].
    + rewrite H. reflexivity.
    + rewrite Her. cbn [Py.bind]. rewrite Hev. reflexivity.
Qed.

(** The loop succeeds exactly when every strategy evaluates; its
    mapping then holds evaluated records only, under keys of the
    strategy mapping. *)
Lemma select_loop_general keys :
  forall acc,
    (forall n m, In (n, m) acc -> (evaluated strategy_results embedding_results original_text) n m) ->
    ((exists d, for_each (select_step strategy_results embedding_results original_text) keys acc = Ok d)
     <-> (forall k, In k keys -> exists m, (evaluated strategy_results embedding_results original_text) k m)) /\
    (forall d, for_each (select_step strategy_results embedding_results original_text) keys acc = Ok d ->
       (forall n m, In (n, m) d -> (evaluated strategy_results embedding_results original_text) n m) /\
       (forall n m, In (n, m) d -> In (n, m) acc \/ In n keys) /\
       (keys <> [] \/ acc <> [] -> d <> [])).
Proof.
  induction keys as [|k keys IH]; intros acc Hacc.
  - split.
    + split; [intros _ k []|intros _; eexists; reflexivity].
    + intros d H. inversion H; subst. split; [exact Hacc|]. split.
      * intros n m Hin. left. exact Hin.
      * intros [H0|H0]; [congruence|exact H0].
  - cbn [for_each]. destruct ((select_step strategy_results embedding_results original_text) acc k) as [acc'|e] eqn:Hstep; cbn [Py.bind].
    + apply select_step_inv in Hstep. destruct Hstep as [m0 [Hm0 ->]].
      assert (Hacc' : forall n m, In (n, m) (dict_set acc k m0) -> (evaluated strategy_results embedding_results original_text) n m).
      { intros n m Hin. apply dict_set_in in Hin. destruct Hin as [Heq|Hin].
        - inversion Heq; subst. exact Hm0.
        - apply Hacc. exact Hin. }
      destruct (IH (dict_set acc k m0) Hacc') as [Hiff Hinv].
      split.
      * split.
        -- intros Hex k' [<-|Hin]; [exists m0; exact Hm0|].
           apply (proj1 Hiff Hex). exact Hin.
        -- intros Hall. apply (proj2 Hiff). intros k' Hin. apply Hall. right. exact Hin.
      * intros d Hd. destruct (Hinv d Hd) as [H1 [H2 H3]].
        split; [exact H1|]. split.
        -- intros n m Hin. destruct (H2 n m Hin) as [Hs|Hk]; [|right; right; exact Hk].
           apply dict_set_in in Hs. destruct Hs as [Heq|Hs].
           ++ inversion Heq; subst. right. left. reflexivity.
           ++ left. exact Hs.
        -- intros _. apply H3. right. apply dict_set_nonempty.
    + split; [|intros d H; discriminate].
      split; [intros [d H]; discriminate|].
      intros Hall. exfalso. destruct (Hall k (or_introl eq_refl)) as [m Hm].
      rewrite (select_step_ok strategy_results embedding_results original_text acc k m Hm)
        in Hstep. discriminate.
Qed.

(** The first key whose iteration raises decides the error of the
    loop. *)
Lemma select_loop_first_failure pre k post e :
  (forall k', In k' pre -> exists m, (evaluated strategy_results embedding_results original_text) k' m) ->
  (forall acc, (select_step strategy_results embedding_results original_text) acc k = Err e) ->
  forall acc, for_each (select_step strategy_results embedding_results original_text) (pre ++ k :: post) acc = Err e.
Proof.
  intros Hpre Hfail. induction pre as [|k0 pre IH]; intros acc.
  - cbn [app for_each]. rewrite Hfail. reflexivity.
  - cbn [app for_each]. destruct (Hpre k0 (or_introl eq_refl)) as [m Hm].
    rewrite (select_step_ok strategy_results embedding_results original_text acc k0 m Hm).
    cbn [Py.bind]. apply IH. intros k' Hin. apply Hpre. right. exact Hin.
Qed.

Lemma max_from_in {A : Type} (key : A -> pyfloat) (l : list A) :
  forall best, In (max_from key best l) (best :: l).
Proof.
  induction l as [|x l IH]; intros best; [left; reflexivity|].
  cbn [max_from]. destruct (fgtb (key x) (key best)).
  - right. apply IH.
  - destruct (IH best) as [H|H]; [left; exact H|right; right; exact H].
Qed.

End SelectionGeneral.

(** X16. For any strategy mapping, [select_best_strategy] returns
    exactly when the mapping is not empty and every strategy in it
    evaluates to a record; on an empty mapping it raises the
    [ValueError] of [max]. *)
Theorem select_best_strategy_returns_iff :
  forall (strategy_results : TextSplitter.dict TextSplitter.ChunkResult)
         (embedding_results : TextSplitter.dict EmbeddingGenerator.EmbeddingResult)
         (original_text : str),
    ((exists result,
        StrategyEvaluator.select_best_strategy strategy_results embedding_results
          original_text = Ok result)
     <-> (strategy_results <> [] /\
          forall name, In name (TextSplitter.dict_keys strategy_results) ->
            exists m, Aux.evaluated strategy_results embedding_results
                        original_text name m)) /\
    (strategy_results = [] ->
     StrategyEvaluator.select_best_strategy strategy_results embedding_results
       original_text = Err ValueError).
Proof.
  intros sr er text. split; [|intros ->; reflexivity].
  destruct (select_loop_general sr er text (TextSplitter.dict_keys sr) [])
    as [Hiff Hinv]; [intros n m []|].
  unfold StrategyEvaluator.select_best_strategy. split.
  - intros [res Hres].
    destruct (StrategyEvaluator.for_each _ _ _) as [d|] eqn:Hloop; [|discriminate].
    split.
    + intros ->. cbn in Hloop. inversion Hloop; subst. discriminate.
    + apply (proj1 Hiff). eexists. reflexivity.
  - intros [Hne Hall]. destruct (proj2 Hiff Hall) as [d Hd]. rewrite Hd.
    cbn [Py.bind].
    destruct (Hinv d Hd) as [_ [_ Hd_ne]].
    destruct d as [|x d].
    + exfalso. apply Hd_ne; [|reflexivity]. left.
      destruct sr; [congruence|discriminate].
    + cbn [StrategyEvaluator.py_max Py.bind].
      destruct (StrategyEvaluator.max_from _ _ _) as [bn bm]. eexists. reflexivity.
Qed.

Lemma select_best_strategy_returns_iff_witness :
  StrategyEvaluator.select_best_strategy [] Sample.embedding_results Sample.text
  = Err ValueError.
Proof.
  apply (select_best_strategy_returns_iff [] Sample.embedding_results Sample.text).
  reflexivity.
Defined.

(** X17. Whatever the strategy mapping, a returned winner is a key of
    that mapping, its record is what [evaluate_strategy] returns for the
    chunks and embeddings stored under that key (so both lookups by the
    winner's name succeed), every record of the returned mapping is such
    an evaluation, and none has a greater total score than the
    winner. *)
Theorem select_best_strategy_winner :
  forall (strategy_results : TextSplitter.dict TextSplitter.ChunkResult)
         (embedding_results : TextSplitter.dict EmbeddingGenerator.EmbeddingResult)
         (original_text : str)
         (best_name : string) (best_metrics : StrategyEvaluator.StrategyMetrics)
         (all_metrics : TextSplitter.dict StrategyEvaluator.StrategyMetrics),
    StrategyEvaluator.select_best_strategy strategy_results embedding_results
      original_text = Ok (best_name, best_metrics, all_metrics) ->
    In best_name (TextSplitter.dict_keys strategy_results) /\
    In (best_name, best_metrics) all_metrics /\
    Aux.evaluated strategy_results embedding_results original_text
      best_name best_metrics /\
    (forall name m, In (name, m) all_metrics ->
       Aux.evaluated strategy_results embedding_results original_text name m /\
       Aux.score_le (StrategyEvaluator.total_score m)
                    (StrategyEvaluator.total_score best_metrics)).
Proof.
  intros sr er text bn bm am Hsel.
  unfold StrategyEvaluator.select_best_strategy in Hsel.
  destruct (StrategyEvaluator.for_each _ _ _) as [d|] eqn:Hloop; [|discriminate].
  cbn [Py.bind] in Hsel.
  destruct (select_loop_general sr er text (TextSplitter.dict_keys sr) [])
    as [_ Hinv]; [intros n m []|].
  destruct (Hinv d Hloop) as [Hev [Hkeys _]].
  destruct d as [|x d]; [discriminate|].
  cbn [StrategyEvaluator.py_max Py.bind] in Hsel.
  pose proof (max_from_in (fun y : string * StrategyEvaluator.StrategyMetrics =>
                             StrategyEvaluator.total_score (snd y)) d x) as Hin.
  destruct (max_from_first_max
              (fun y : string * StrategyEvaluator.StrategyMetrics =>
                 StrategyEvaluator.total_score (snd y)) d x)
    as [pre [post [Heq [Hpre [Hpost Hle]]]]].
  { intros [n m] Hy. cbn [snd].
    eapply evaluated_fin. apply Hev. exact Hy. }
  destruct (StrategyEvaluator.max_from _ _ _) as [bn' bm'].
  injection Hsel as Hn Hm Ha. subst bn' bm' am. cbn [snd] in *.
  assert (Hbest : Aux.evaluated sr er text bn bm) by (apply Hev; exact Hin).
  split; [|split; [exact Hin|split; [exact Hbest|]]].
  - destruct (Hkeys bn bm Hin) as [[]|Hk]. exact Hk.
  - intros n m Hnm. split; [apply Hev; exact Hnm|].
    rewrite Heq in Hnm. apply in_app_or in Hnm.
    destruct Hnm as [Hp|[Hb|Hp]].
    + apply score_lt_le. apply (Hpre (n, m) Hp).
    + injection Hb as Hbn Hbm. subst n m.
      destruct (evaluated_fin sr er text bn bm Hbest) as [t ->]. apply score_le_refl.
    + apply (Hpost (n, m) Hp).
Qed.

Lemma select_best_strategy_winner_witness :
  exists best_name best_metrics all_metrics,
    StrategyEvaluator.select_best_strategy
      Sample.strategy_results Sample.embedding_results Sample.text
    = Ok (best_name, best_metrics, all_metrics) /\
    In best_name (TextSplitter.dict_keys Sample.strategy_results) /\
    Aux.evaluated Sample.strategy_results Sample.embedding_results Sample.text
      best_name best_metrics.
Proof.
  destruct (sample_evaluated "fixed_size" "fixed_size_with_overlap" eq_refl eq_refl)
    as [m1 H1].
  destruct (sample_evaluated "sentence_based" "sentence_based" eq_refl eq_refl)
    as [m2 H2].
  destruct (sample_evaluated "paragraph_based" "paragraph_based" eq_refl eq_refl)
    as [m3 H3].
  destruct (select_best_strategy_returns Sample.strategy_results
              Sample.embedding_results Sample.text m1 m2 m3 eq_refl H1 H2 H3)
    as [bn [bm Hsel]].
  destruct (select_best_strategy_winner _ _ _ _ _ _ Hsel) as [Hk [_ [Hev _]]].
  exists bn, bm. eexists. split; [exact Hsel|]. split; assumption.
Defined.

(** X18. Evaluation stops at the first strategy that fails: if the
    strategies before a key all evaluate and the iteration for that key
    raises (its embeddings are missing, which is a [KeyError], or
    [evaluate_strategy] raises), then [select_best_strategy] raises the
    same error and evaluates no later strategy. *)
Theorem select_best_strategy_first_failure :
  forall (strategy_results : TextSplitter.dict TextSplitter.ChunkResult)
         (embedding_results : TextSplitter.dict EmbeddingGenerator.EmbeddingResult)
         (original_text : str)
         (pre : list string) (name : string) (post : list string) (e : exn),
    TextSplitter.dict_keys strategy_results = pre ++ name :: post ->
    (forall k, In k pre ->
       exists m, Aux.evaluated strategy_results embedding_results original_text k m) ->
    Outcome.step_fails strategy_results embedding_results original_text name e ->
    StrategyEvaluator.select_best_strategy strategy_results embedding_results
      original_text = Err e.
Proof.
  intros sr er text pre name post e Hkeys Hpre Hfail.
  unfold StrategyEvaluator.select_best_strategy. rewrite Hkeys.
  rewrite (select_loop_first_failure sr er text pre name post e Hpre); [reflexivity|].
  intros acc. apply select_step_err_inv; [|exact Hfail].
  rewrite Hkeys. apply in_or_app. right. left. reflexivity.
Qed.

Lemma select_best_strategy_first_failure_witness :
  StrategyEvaluator.select_best_strategy Sample.strategy_results
    [("fixed_size"%string, Sample.embedding_result "fixed_size_with_overlap")]
    Sample.text = Err KeyError.
Proof.
  destruct (calculate_embedding_similarity_shaped_ok 2 [[1; 0]; [0; 1]]%R)
    as [s Hs]; [lia|repeat constructor|].
  destruct (evaluate_strategy_value "fixed_size" [str_of "One."; str_of "Two."]
              [[1; 0]; [0; 1]]%R Sample.text s)
    as [avg [std [sc [cc [Hm _]]]]]; [discriminate|discriminate|exact Hs|].
  apply (select_best_strategy_first_failure Sample.strategy_results
           [("fixed_size"%string, Sample.embedding_result "fixed_size_with_overlap")]
           Sample.text ["fixed_size"%string] "sentence_based"
           ["paragraph_based"%string] KeyError).
  - reflexivity.
  - intros k [<-|[]]. eexists.
    exists (Sample.chunk_result "fixed_size_with_overlap"),
           (Sample.embedding_result "fixed_size_with_overlap").
    split; [reflexivity|]. split; [reflexivity|exact Hm].
  - exists (Sample.chunk_result "sentence_based"). split; [reflexivity|].
    left. reflexivity.
Defined.

(* ================================================================== *)
(** * Properties of the embedding generator *)
(* ================================================================== *)

Section EmbedderProps.

Import TextSplitter Embedder Shape.

Variable service : api.

Lemma embed_chunks_fold (chunks : list str) :
  forall acc calls,
    fold_left (embed_chunk service) chunks (acc, calls)
    = (acc ++ embeddings_from service calls chunks, calls + length chunks).
Proof.
  induction chunks as [|chunk rest IH]; intros acc calls.
  - simpl. rewrite app_nil_r, Nat.add_0_r. reflexivity.
  - cbn [fold_left embeddings_from length].
    assert (Hstep : embed_chunk service (acc, calls) chunk
                    = (acc ++ [embedding_of service calls 0 chunk], S calls)).
    { unfold embed_chunk, generate_embedding, embedding_of. rewrite Nat.add_0_r.
      destruct (service calls chunk); reflexivity. }
    rewrite Hstep, IH, <- app_assoc. f_equal. lia.
Qed.

Lemma embeddings_from_length calls (chunks : list str) :
  length (embeddings_from service calls chunks) = length chunks.
Proof.
  revert calls. induction chunks as [|c rest IH]; intros calls; simpl;
    [reflexivity|]. rewrite IH. reflexivity.
Qed.

(** The [j]-th stored vector is the service's answer to call
    [calls + j] on the [j]-th chunk, or the zero vector. *)
Lemma embeddings_from_nth calls (chunks : list str) :
  forall j d, j < length chunks ->
    nth j (embeddings_from service calls chunks) d
    = embedding_of service calls j (nth j chunks []).
Proof.
  revert calls. induction chunks as [|c rest IH]; intros calls j d Hj;
    [simpl in Hj; lia|].
  destruct j as [|j]; [reflexivity|].
  cbn [embeddings_from nth]. rewrite IH by (simpl in Hj; lia).
  unfold embedding_of. replace (S calls + j) with (calls + S j) by lia. reflexivity.
Qed.

Lemma embeddings_from_shape calls (chunks : list str) (D : nat) :
  D = 768 ->
  (forall n text v, service n text = Some v -> length v = D) ->
  Aux.well_shaped D (embeddings_from service calls chunks).
Proof.
  intros HD Hdim. revert calls.
  induction chunks as [|c rest IH]; intros calls; [constructor|].
  cbn [embeddings_from]. constructor; [|apply IH].
  unfold embedding_of. destruct (service (calls + 0) c) as [v|] eqn:Hv.
  - eapply Hdim. exact Hv.
  - unfold zero_vector. rewrite repeat_length. symmetry. exact HD.
Qed.

(** The three outcomes of [sleep], away from the limits of the
    nanosecond counter. *)
Lemma sleep_ok (delay : Q) :
  (0 <= delay)%Q -> (delay <= 9000000000)%Q -> sleep delay = Ok tt.
Proof.
  intros Hlo Hhi. unfold sleep. cbn zeta.
  assert (H1 : Qle_bool (- 9223372036854775808) (delay * 1000000000) = true).
  { apply Qle_bool_iff. destruct delay as [n d].
    unfold Qle in *. cbn [Qnum Qden Qmult Qopp] in *. lia. }
  assert (H2 : Qle_bool (delay * 1000000000) 9223372036854775807 = true).
  { apply Qle_bool_iff. destruct delay as [n d].
    unfold Qle in *. cbn [Qnum Qden Qmult] in *. lia. }
  rewrite H1, H2. cbn [negb orb].
  apply Qle_bool_iff in Hlo. rewrite Hlo. reflexivity.
Qed.

Lemma sleep_negative (delay : Q) :
  (- 9000000000 <= delay)%Q -> (delay < 0)%Q -> sleep delay = Err ValueError.
Proof.
  intros Hlo Hhi. unfold sleep. cbn zeta.
  assert (H1 : Qle_bool (- 9223372036854775808) (delay * 1000000000) = true).
  { apply Qle_bool_iff. destruct delay as [n d].
    unfold Qle in *. cbn [Qnum Qden Qmult Qopp] in *. lia. }
  assert (H2 : Qle_bool (delay * 1000000000) 9223372036854775807 = true).
  { apply Qle_bool_iff. destruct delay as [n d].
    unfold Qle, Qlt in *. cbn [Qnum Qden Qmult] in *. lia. }
  rewrite H1, H2. cbn [negb orb].
  destruct (Qle_bool 0 delay) eqn:E; [|reflexivity].
  apply Qle_bool_iff in E. exfalso. apply (Qlt_not_le _ _ Hhi). exact E.
Qed.

Lemma sleep_overflow (delay : Q) :
  (delay < - 10000000000)%Q \/ (10000000000 < delay)%Q ->
  sleep delay = Err OverflowError.
Proof.
  intros H. unfold sleep. cbn zeta.
  destruct H as [H|H].
  - destruct (Qle_bool (- 9223372036854775808) (delay * 1000000000)) eqn:E;
      [|reflexivity].
    exfalso. apply Qle_bool_iff in E. destruct delay as [n d].
    unfold Qle, Qlt in *. cbn [Qnum Qden Qmult Qopp] in *. lia.
  - destruct (Qle_bool (delay * 1000000000) 9223372036854775807) eqn:E;
      [|rewrite orb_true_r; reflexivity].
    exfalso. apply Qle_bool_iff in E. destruct delay as [n d].
    unfold Qle, Qlt in *. cbn [Qnum Qden Qmult] in *. lia.
Qed.

Lemma batches_fold (chunks : list str) (batch_size : Z) (delay : Q) idx :
  (0 <= delay)%Q -> (delay <= 9000000000)%Q ->
  forall st,
    StrategyEvaluator.for_each (batch_step service chunks batch_size delay) idx st
    = Ok (fold_left (embed_chunk service)
            (concat (List.map (fun i => slice chunks i (i + batch_size)%Z) idx)) st).
Proof.
  intros Hlo Hhi. induction idx as [|i idx IH]; intros st; [reflexivity|].
  cbn [StrategyEvaluator.for_each List.map concat]. rewrite fold_left_app.
  unfold batch_step at 1. rewrite (sleep_ok delay Hlo Hhi).
  destruct (_ <? _)%Z; cbn [Py.bind]; apply IH.
Qed.

(** With more chunks than one batch holds, a delay that [sleep] rejects
    ends the loop after the first batch. *)
Lemma first_sleep_raises calls (chunks : list str) (strategy : string)
    (batch_size : Z) (delay : Q) (e : exn) :
  (0 < batch_size < Z.of_nat (length chunks))%Z ->
  sleep delay = Err e ->
  generate_embeddings_batch service calls chunks strategy batch_size delay = Err e.
Proof.
  intros [Hpos Hlt] Hsleep.
  unfold generate_embeddings_batch, range. cbn zeta.
  destruct (Z.eqb_spec batch_size 0); [lia|].
  rewrite range_len_pos by exact Hpos.
  assert (Hgroups : exists g, Shape.num_groups (length chunks) batch_size = S g).
  { destruct (Shape.num_groups (length chunks) batch_size) eqn:E; [|eexists; reflexivity].
    apply num_groups_zero in E; [lia|exact Hpos]. }
  destruct Hgroups as [g ->].
  cbn [seq List.map Py.bind StrategyEvaluator.for_each].
  unfold batch_step at 1.
  replace (0 + Z.of_nat 0 * batch_size + batch_size <? Z.of_nat (length chunks))%Z
    with true by (symmetry; apply Z.ltb_lt; lia).
  rewrite Hsleep. reflexivity.
Qed.

(** The batch loop embeds every chunk once, in order. *)
Lemma generate_embeddings_batch_value calls (chunks : list str) (strategy : string)
    (batch_size : Z) (delay : Q) :
  (0 < batch_size)%Z -> (0 <= delay)%Q -> (delay <= 9000000000)%Q ->
  generate_embeddings_batch service calls chunks strategy batch_size delay =
  let embeddings := embeddings_from service calls chunks in
  Ok ({| EmbeddingGenerator.embeddings := embeddings;
         EmbeddingGenerator.chunks := chunks;
         EmbeddingGenerator.strategy := strategy;
         EmbeddingGenerator.dimension :=
           match embeddings with e :: _ => length e | [] => 0 end;
         EmbeddingGenerator.total_chunks := length chunks |},
      calls + length chunks).
Proof.
  intros Hbs Hlo Hhi. unfold generate_embeddings_batch. cbn zeta.
  destruct (range_slices chunks batch_size Hbs) as [idx [Hidx Hsl]].
  rewrite Hidx. cbn [Py.bind].
  rewrite (batches_fold chunks batch_size delay idx Hlo Hhi). cbn [Py.bind].
  rewrite Hsl, (groups_concat batch_size chunks Hbs), embed_chunks_fold.
  reflexivity.
Qed.

End EmbedderProps.

(** X19. For [batch_size >= 1] and a delay between 0 and 9 * 10^9
    seconds (which [time.sleep] accepts),
    [generate_embeddings_batch] returns exactly one vector per chunk, in
    chunk order: the [j]-th vector is the service's answer to the [j]-th
    call on the [j]-th chunk, or 768 zeros when that call failed; the
    result also carries the chunks, the given strategy label and
    [total_chunks = len(chunks)]. *)
Theorem generate_embeddings_batch_one_per_chunk :
  forall (service : Embedder.api) (calls : nat) (chunks : list str)
         (strategy : string) (batch_size : Z) (delay : Q),
    (0 < batch_size)%Z -> (0 <= delay)%Q -> (delay <= 9000000000)%Q ->
    exists r,
      Embedder.generate_embeddings_batch service calls chunks strategy
        batch_size delay = Ok (r, calls + length chunks) /\
      length (EmbeddingGenerator.embeddings r) = length chunks /\
      (forall j, j < length chunks ->
         nth j (EmbeddingGenerator.embeddings r) [] =
         match service (calls + j) (nth j chunks []) with
         | Some embedding => embedding
         | None => repeat 0%R 768
         end) /\
      EmbeddingGenerator.chunks r = chunks /\
      EmbeddingGenerator.strategy r = strategy /\
      EmbeddingGenerator.total_chunks r = length chunks.
Proof.
  intros service calls chunks strategy batch_size delay Hbs Hlo Hhi.
  rewrite (generate_embeddings_batch_value service calls chunks strategy
             batch_size delay Hbs Hlo Hhi). cbn zeta.
  eexists. split; [reflexivity|]. cbn.
  split; [apply embeddings_from_length|].
  split; [|repeat split].
  intros j Hj. apply embeddings_from_nth. exact Hj.
Qed.

Lemma generate_embeddings_batch_one_per_chunk_witness :
  exists r,
    Embedder.generate_embeddings_batch (fun _ _ => None) 0
      [str_of "One."; str_of "Two."; str_of "Three."] "sentence_based" 2 (1 # 2)
    = Ok (r, 3) /\
    length (EmbeddingGenerator.embeddings r) = 3.
Proof.
  destruct (generate_embeddings_batch_one_per_chunk (fun _ _ => None) 0
              [str_of "One."; str_of "Two."; str_of "Three."] "sentence_based"
              2 (1 # 2))
    as [r [Hr [Hl _]]].
  - lia.
  - discriminate.
  - discriminate.
  - exists r. split; [exact Hr|exact Hl].
Defined.

(** X20. [generate_embeddings_batch] does not validate its parameters:
    [batch_size = 0] raises the [ValueError] of [range] for every chunk
    list; a negative [batch_size] calls the service for no chunk and
    returns an empty embedding list whatever the chunks are. The delay
    reaches [time.sleep] unchecked as soon as the chunks do not fit into
    one batch: a negative delay down to -9 * 10^9 seconds raises
    [ValueError], and a delay beyond 10^10 seconds in either direction
    raises [OverflowError]. *)
Theorem generate_embeddings_batch_unvalidated :
  forall (service : Embedder.api) (calls : nat) (chunks : list str)
         (strategy : string),
    (forall delay,
       Embedder.generate_embeddings_batch service calls chunks strategy 0 delay
       = Err ValueError) /\
    (forall batch_size delay,
       (batch_size < 0)%Z ->
       Embedder.generate_embeddings_batch service calls chunks strategy
         batch_size delay
       = Ok ({| EmbeddingGenerator.embeddings := [];
                EmbeddingGenerator.chunks := chunks;
                EmbeddingGenerator.strategy := strategy;
                EmbeddingGenerator.dimension := 0;
                EmbeddingGenerator.total_chunks := length chunks |}, calls)) /\
    (forall batch_size delay,
       (0 < batch_size < Z.of_nat (length chunks))%Z ->
       (- 9000000000 <= delay)%Q -> (delay < 0)%Q ->
       Embedder.generate_embeddings_batch service calls chunks strategy
         batch_size delay = Err ValueError) /\
    (forall batch_size delay,
       (0 < batch_size < Z.of_nat (length chunks))%Z ->
       (delay < - 10000000000)%Q \/ (10000000000 < delay)%Q ->
       Embedder.generate_embeddings_batch service calls chunks strategy
         batch_size delay = Err OverflowError).
Proof.
  intros service calls chunks strategy. split; [|split; [|split]].
  - intros delay. reflexivity.
  - intros batch_size delay Hneg. unfold Embedder.generate_embeddings_batch, range.
    destruct (Z.eqb_spec batch_size 0); [lia|].
    assert (Hlen : range_len 0 (Z.of_nat (length chunks)) batch_size = 0).
    { unfold range_len. destruct (Z.ltb_spec 0 batch_size); [lia|].
      destruct (Z.ltb_spec (Z.of_nat (length chunks)) 0); [lia|reflexivity]. }
    cbn zeta. rewrite Hlen. reflexivity.
  - intros batch_size delay Hbs Hlo Hneg.
    apply first_sleep_raises; [exact Hbs|].
    apply sleep_negative; assumption.
  - intros batch_size delay Hbs Hbig.
    apply first_sleep_raises; [exact Hbs|].
    apply sleep_overflow. exact Hbig.
Qed.

Lemma generate_embeddings_batch_unvalidated_witness :
  Embedder.generate_embeddings_batch (fun _ _ => Some [1%R]) 0
    [str_of "One."; str_of "Two."] "sentence_based" (-1) (1 # 2)
  = Ok ({| EmbeddingGenerator.embeddings := [];
           EmbeddingGenerator.chunks := [str_of "One."; str_of "Two."];
           EmbeddingGenerator.strategy := "sentence_based";
           EmbeddingGenerator.dimension := 0;
           EmbeddingGenerator.total_chunks := 2 |}, 0) /\
  Embedder.generate_embeddings_batch (fun _ _ => Some [1%R]) 0
    [str_of "One."; str_of "Two."] "sentence_based" 1 (- (1 # 2))
  = Err ValueError /\
  Embedder.generate_embeddings_batch (fun _ _ => Some [1%R]) 0
    [str_of "One."; str_of "Two."] "sentence_based" 1 100000000000000000000
  = Err OverflowError.
Proof.
  destruct (generate_embeddings_batch_unvalidated (fun _ _ => Some [1%R]) 0
              [str_of "One."; str_of "Two."] "sentence_based")
    as [_ [Hneg [Hdelay Hover]]].
  split; [apply Hneg; lia|]. split.
  - apply Hdelay; [simpl; lia|discriminate|reflexivity].
  - apply Hover; [simpl; lia|]. right. reflexivity.
Defined.

Section EmbedAll.

Import TextSplitter Embedder.

Variable service : api.

Lemma existsb_eqb_false (k : string) (keys : list string) :
  ~ In k keys -> existsb (String.eqb k) keys = false.
Proof.
  intros Hn. induction keys as [|k' keys IH]; [reflexivity|].
  cbn [existsb]. destruct (String.eqb_spec k k') as [->|_].
  - exfalso. apply Hn. left. reflexivity.
  - apply IH. intros Hin. apply Hn. right. exact Hin.
Qed.

Lemma dict_keys_app {V : Type} (a b : dict V) :
  dict_keys (a ++ b) = dict_keys a ++ dict_keys b.
Proof. unfold dict_keys. apply map_app. Qed.

(** The loop over the strategies never raises; it binds every strategy
    name to the embeddings of that strategy's chunks and keeps the
    bindings made before. *)
Lemma generate_all_loop (items : dict ChunkResult) :
  forall acc calls,
    NoDup (dict_keys acc ++ dict_keys items) ->
    exists all_embeddings calls',
      StrategyEvaluator.for_each (strategy_step service) items (acc, calls)
      = Ok (all_embeddings, calls') /\
      dict_keys all_embeddings = dict_keys acc ++ dict_keys items /\
      (forall name e, dict_get acc name = Ok e ->
         dict_get all_embeddings name = Ok e) /\
      (forall name chunk_result, In (name, chunk_result) items ->
         exists c,
           dict_get all_embeddings name =
           Ok {| EmbeddingGenerator.embeddings :=
                   embeddings_from service c (chunks chunk_result);
                 EmbeddingGenerator.chunks := chunks chunk_result;
                 EmbeddingGenerator.strategy := strategy chunk_result;
                 EmbeddingGenerator.dimension :=
                   match embeddings_from service c (chunks chunk_result) with
                   | e :: _ => length e
                   | [] => 0
                   end;
                 EmbeddingGenerator.total_chunks := length (chunks chunk_result) |}).
Proof.
  induction items as [|[name cr] items IH]; intros acc calls Hnodup.
  - exists acc, calls. split; [reflexivity|]. split.
    + simpl. rewrite app_nil_r. reflexivity.
    + split; [intros name e H; exact H|intros name cr []].
  - cbn [StrategyEvaluator.for_each]. unfold strategy_step at 1.
    rewrite (generate_embeddings_batch_value service calls (chunks cr) (strategy cr)
               10 (1 # 2)) by (try lia; discriminate).
    cbn zeta. cbn [Py.bind].
    set (e0 := {| EmbeddingGenerator.embeddings :=
                    embeddings_from service calls (chunks cr);
                  EmbeddingGenerator.chunks := chunks cr;
                  EmbeddingGenerator.strategy := strategy cr;
                  EmbeddingGenerator.dimension :=
                    match embeddings_from service calls (chunks cr) with
                    | e :: _ => length e
                    | [] => 0
                    end;
                  EmbeddingGenerator.total_chunks := length (chunks cr) |}).
    assert (Hfresh : ~ In name (dict_keys acc)).
    { cbn [dict_keys List.map fst] in Hnodup. apply NoDup_remove_2 in Hnodup.
      intros Hin. apply Hnodup. apply in_or_app. left. exact Hin. }
    assert (Hkeys : dict_keys (dict_set acc name e0) = dict_keys acc ++ [name]).
    { rewrite dict_set_keys, existsb_eqb_false by exact Hfresh. reflexivity. }
    destruct (IH (dict_set acc name e0) (calls + length (chunks cr)))
      as [all [calls' [Hrun [Hk [Hold Hnew]]]]].
    { rewrite Hkeys, <- app_assoc. exact Hnodup. }
    exists all, calls'. split; [exact Hrun|]. split.
    + rewrite Hk, Hkeys, <- app_assoc. reflexivity.
    + split.
      * intros n e Hget. apply Hold. rewrite dict_get_set_other; [exact Hget|].
        intros ->. apply Hfresh.
        apply dict_get_ok_in in Hget. unfold dict_keys.
        apply in_map_iff. exists (name, e). split; [reflexivity|exact Hget].
      * intros n c [Heq|Hin].
        -- inversion Heq; subst. exists calls. apply Hold. apply dict_get_set_same.
        -- apply Hnew. exact Hin.
Qed.

End EmbedAll.

(** X21. For a strategy mapping with distinct keys,
    [generate_for_all_strategies] never raises: it returns a mapping
    with the same keys in the same order, in which every strategy is
    bound to one embedding vector per chunk of that strategy, together
    with those chunks and the strategy label of the chunk result. *)
Theorem generate_for_all_strategies_complete :
  forall (service : Embedder.api) (calls : nat)
         (strategy_results : TextSplitter.dict TextSplitter.ChunkResult),
    NoDup (TextSplitter.dict_keys strategy_results) ->
    exists all_embeddings calls',
      Embedder.generate_for_all_strategies service calls strategy_results
      = Ok (all_embeddings, calls') /\
      TextSplitter.dict_keys all_embeddings
      = TextSplitter.dict_keys strategy_results /\
      (forall name chunk_result,
         In (name, chunk_result) strategy_results ->
         exists e,
           TextSplitter.dict_get all_embeddings name = Ok e /\
           length (EmbeddingGenerator.embeddings e)
           = length (TextSplitter.chunks chunk_result) /\
           EmbeddingGenerator.chunks e = TextSplitter.chunks chunk_result /\
           EmbeddingGenerator.strategy e = TextSplitter.strategy chunk_result /\
           EmbeddingGenerator.total_chunks e
           = length (TextSplitter.chunks chunk_result)).
Proof.
  intros service calls sr Hnodup.
  destruct (generate_all_loop service sr [] calls Hnodup)
    as [all [calls' [Hrun [Hkeys [_ Hnew]]]]].
  exists all, calls'. split; [exact Hrun|]. split; [exact Hkeys|].
  intros name cr Hin. destruct (Hnew name cr Hin) as [c Hget].
  eexists. split; [exact Hget|]. cbn.
  split; [apply embeddings_from_length|]. repeat split.
Qed.

Lemma generate_for_all_strategies_complete_witness :
  exists all_embeddings calls',
    Embedder.generate_for_all_strategies (fun _ _ => None) 0 Sample.strategy_results
    = Ok (all_embeddings, calls') /\
    TextSplitter.dict_keys all_embeddings = Aux.strategy_order.
Proof.
  destruct (generate_for_all_strategies_complete (fun _ _ => None) 0
              Sample.strategy_results)
    as [all [calls' [Hrun [Hkeys _]]]].
  - repeat constructor; simpl; intuition discriminate.
  - exists all, calls'. split; [exact Hrun|exact Hkeys].
Defined.

(** X22. The embedding generator and the evaluator fit together when
    the service answers with vectors of dimension 768 (the dimension of
    the zero vector substituted for a failed call): the embeddings of a
    batch then all have dimension 768, however many calls fail, so
    [evaluate_strategy] on these chunks and embeddings returns a record
    exactly when the chunk list and the text are non-empty. *)
Theorem embeddings_always_evaluate :
  forall (service : Embedder.api) (calls : nat) (chunks : list str)
         (strategy name : string) (original_text : str),
    (forall n text v, service n text = Some v -> length v = 768) ->
    exists r,
      Embedder.generate_embeddings_batch service calls chunks strategy 10 (1 # 2)
      = Ok (r, calls + length chunks) /\
      Aux.well_shaped 768 (EmbeddingGenerator.embeddings r) /\
      ((exists m,
          StrategyEvaluator.evaluate_strategy name chunks
            (EmbeddingGenerator.embeddings r) original_text = Ok m)
       <-> (chunks <> [] /\ original_text <> [])).
Proof.
  intros service calls chunks strategy name text Hdim.
  rewrite (generate_embeddings_batch_value service calls chunks strategy 10 (1 # 2))
    by (try lia; discriminate).
  cbn zeta. eexists. split; [reflexivity|]. cbn.
  pose proof (embeddings_from_shape service calls chunks 768 eq_refl Hdim) as Hshape.
  split; [exact Hshape|].
  destruct (calculate_embedding_similarity_shaped_ok 768 _ ltac:(lia) Hshape)
    as [s Hs].
  split.
  - intros [m Hm]. apply evaluate_strategy_ok_inv in Hm.
    split; apply Hm.
  - intros [Hc Ht].
    destruct (evaluate_strategy_value name chunks _ text s Hc Ht Hs)
      as [avg [std [sc [cc [Hm _]]]]].
    eexists. exact Hm.
Qed.

Lemma embeddings_always_evaluate_witness :
  exists r,
    Embedder.generate_embeddings_batch (fun _ _ => None) 0
      [str_of "One."; str_of "Two."] "sentence_based" 10 (1 # 2) = Ok (r, 2) /\
    Aux.well_shaped 768 (EmbeddingGenerator.embeddings r).
Proof.
  destruct (embeddings_always_evaluate (fun _ _ => None) 0
              [str_of "One."; str_of "Two."] "sentence_based" "sentence_based"
              (str_of "One. Two."))
    as [r [Hr [Hs _]]].
  - intros n text v H. discriminate H.
  - exists r. split; [exact Hr|exact Hs].
Defined.

(* ================================================================== *)
(** * Properties of save_chunks and of the pipeline *)
(* ================================================================== *)

Section SaveChunks.

Import Database.

Lemma rows_from_length idx filename strategy (chunks : list str) :
  forall embeddings,
    length chunks = length embeddings ->
    length (rows_from idx filename strategy chunks embeddings) = length chunks.
Proof.
  revert idx. induction chunks as [|c chunks IH]; intros idx embeddings Hlen.
  - reflexivity.
  - destruct embeddings as [|e embeddings]; [discriminate|].
    cbn [rows_from length]. rewrite IH by (simpl in Hlen; lia). reflexivity.
Qed.

Lemma rows_from_nth idx filename strategy (chunks : list str) :
  forall embeddings i d,
    length chunks = length embeddings -> i < length chunks ->
    nth i (rows_from idx filename strategy chunks embeddings) d =
    {| filename := filename;
       chunk_text := nth i chunks [];
       chunk_index := idx + i;
       embedding_vector := nth i embeddings [];
       split_strategy := strategy;
       chunk_size := length (nth i chunks []) |}.
Proof.
  revert idx. induction chunks as [|c chunks IH]; intros idx embeddings i d Hlen Hi.
  - simpl in Hi. lia.
  - destruct embeddings as [|e embeddings]; [discriminate|].
    destruct i as [|i].
    + cbn [rows_from nth]. rewrite Nat.add_0_r. reflexivity.
    + cbn [rows_from nth]. rewrite IH by (simpl in *; lia).
      f_equal. lia.
Qed.

Lemma accepted_test server rows :
  accepted server rows <->
  connects server && forallb (executes server) rows && commits server = true.
Proof.
  unfold accepted. rewrite !andb_true_iff, forallb_forall, Forall_forall.
  tauto.
Qed.

Lemma save_chunks_accepting server table filename (chunks : list str)
    embeddings strategy :
  length chunks = length embeddings ->
  connects server = true -> (forall row, executes server row = true) ->
  commits server = true ->
  save_chunks server true table filename chunks embeddings strategy
  = (inl (length chunks),
     table ++ rows_from 0 filename strategy chunks embeddings).
Proof.
  intros Hlen Hc He Hm. unfold save_chunks.
  rewrite Hlen, Nat.eqb_refl. cbn [negb].
  rewrite Hc, Hm.
  assert (Hall : forallb (executes server)
                   (rows_from 0 filename strategy chunks embeddings) = true)
    by (apply forallb_forall; intros row _; apply He).
  rewrite Hall. cbn [andb].
  rewrite <- Hlen, rows_from_length by exact Hlen. reflexivity.
Qed.

(** A returned count means that the counts agreed, that the server
    accepted every step, and that the rows are stored. *)
Lemma save_chunks_returned server finishes table filename (chunks : list str)
    embeddings strategy n table' :
  save_chunks server finishes table filename chunks embeddings strategy
  = (inl n, table') ->
  length chunks = length embeddings /\
  accepted server (rows_from 0 filename strategy chunks embeddings) /\
  table' = table ++ rows_from 0 filename strategy chunks embeddings.
Proof.
  unfold save_chunks.
  destruct (Nat.eqb_spec (length chunks) (length embeddings)) as [Hlen|];
    cbn [negb]; [|discriminate].
  destruct (connects server && _ && commits server) eqn:Hacc; [|discriminate].
  destruct finishes; [|discriminate].
  intros H. injection H as _ <-.
  split; [exact Hlen|]. split; [|reflexivity].
  apply accepted_test. exact Hacc.
Qed.

End SaveChunks.

(** X23. [save_chunks] compares the two counts before it touches the
    database: unequal counts give the error that reports both counts
    and leave the table unchanged, whatever the server does. With equal
    counts there is exactly one row per chunk, in order (row [i] holds
    the file name, chunk [i], index [i], embedding [i], the strategy and
    the length of the chunk). If the server accepts the connection,
    every insert and the commit, these rows are stored, and the call
    returns the number of chunks unless a step after the commit fails:
    then [RuntimeError] is raised although the rows are stored. If the
    server refuses one of the steps, [RuntimeError] is raised and the
    table is unchanged. *)
Theorem save_chunks_outcomes :
  forall (server : Database.Server) (finishes : bool) (table : list Database.Row)
         (filename : string) (chunks : list str) (embeddings : list (list R))
         (strategy : string),
    (length chunks <> length embeddings ->
     Database.save_chunks server finishes table filename chunks embeddings strategy
     = (inr (Database.CountMismatch (length chunks) (length embeddings)), table)) /\
    (length chunks = length embeddings ->
     exists rows,
       length rows = length chunks /\
       (forall i d, i < length chunks ->
          nth i rows d =
          {| Database.filename := filename;
             Database.chunk_text := nth i chunks [];
             Database.chunk_index := i;
             Database.embedding_vector := nth i embeddings [];
             Database.split_strategy := strategy;
             Database.chunk_size := length (nth i chunks []) |}) /\
       (Database.accepted server rows ->
        Database.save_chunks server finishes table filename chunks embeddings strategy
        = (if finishes then inl (length chunks) else inr Database.RuntimeError,
           table ++ rows)) /\
       (~ Database.accepted server rows ->
        Database.save_chunks server finishes table filename chunks embeddings strategy
        = (inr Database.RuntimeError, table))).
Proof.
  intros server finishes table filename chunks embeddings strategy. split.
  - intros Hne. unfold Database.save_chunks.
    apply Nat.eqb_neq in Hne. rewrite Hne. reflexivity.
  - intros Hlen.
    exists (Database.rows_from 0 filename strategy chunks embeddings).
    split; [apply rows_from_length; exact Hlen|].
    split; [intros i d Hi; rewrite rows_from_nth by assumption; reflexivity|].
    unfold Database.save_chunks. rewrite Hlen, Nat.eqb_refl. cbn [negb].
    rewrite <- Hlen, rows_from_length by exact Hlen.
    split; intros Hacc.
    + apply accepted_test in Hacc. rewrite Hacc. destruct finishes; reflexivity.
    + destruct (Database.connects server && _ && Database.commits server) eqn:E;
        [|reflexivity].
      exfalso. apply Hacc. apply accepted_test. exact E.
Qed.

Lemma save_chunks_outcomes_witness :
  Database.save_chunks
    {| Database.connects := true;
       Database.executes := fun _ => true;
       Database.commits := true |}
    true [] "report.pdf" [str_of "One."; str_of "Two."] [[1%R]] "sentence_based"
  = (inr (Database.CountMismatch 2 1), []) /\
  exists rows,
    length rows = 1 /\
    Database.save_chunks
      {| Database.connects := true;
         Database.executes := fun _ => true;
         Database.commits := true |}
      false [] "report.pdf" [str_of "One."] [[1%R]] "sentence_based"
    = (inr Database.RuntimeError, [] ++ rows).
Proof.
  split.
  - apply (save_chunks_outcomes
             {| Database.connects := true;
                Database.executes := fun _ => true;
                Database.commits := true |}
             true [] "report.pdf" [str_of "One."; str_of "Two."] [[1%R]]
             "sentence_based").
    simpl. lia.
  - destruct (save_chunks_outcomes
                {| Database.connects := true;
                   Database.executes := fun _ => true;
                   Database.commits := true |}
                false [] "report.pdf" [str_of "One."] [[1%R]] "sentence_based")
      as [_ Heq].
    destruct (Heq eq_refl) as [rows [Hlen [_ [Hacc _]]]].
    exists rows. split; [exact Hlen|]. apply Hacc.
    split; [reflexivity|]. split; [|reflexivity].
    apply Forall_forall. intros row _. reflexivity.
Defined.

Section Pipeline.

Import TextSplitter Shape.

Lemma rows_from_chunk_text idx filename strategy (chunks : list str) :
  forall embeddings,
    length chunks = length embeddings ->
    List.map Database.chunk_text
      (Database.rows_from idx filename strategy chunks embeddings) = chunks.
Proof.
  revert idx. induction chunks as [|c chunks IH]; intros idx embeddings Hlen.
  - reflexivity.
  - destruct embeddings as [|e embeddings]; [discriminate|].
    cbn [Database.rows_from List.map Database.chunk_text].
    rewrite IH by (simpl in Hlen; lia). reflexivity.
Qed.

Lemma rows_from_labels idx filename strategy (chunks : list str) :
  forall embeddings,
    Forall (fun row => Database.filename row = filename /\
                       Database.split_strategy row = strategy)
           (Database.rows_from idx filename strategy chunks embeddings).
Proof.
  revert idx. induction chunks as [|c chunks IH]; intros idx embeddings.
  - constructor.
  - destruct embeddings as [|e embeddings]; [constructor|].
    cbn [Database.rows_from]. constructor; [split; reflexivity|apply IH].
Qed.

(** The winner of a selection is an evaluated key of the strategy
    mapping. *)
Lemma select_best_strategy_winner_evaluated sr er text bn bm am :
  StrategyEvaluator.select_best_strategy sr er text = Ok (bn, bm, am) ->
  Aux.evaluated sr er text bn bm.
Proof.
  intros Hsel. unfold StrategyEvaluator.select_best_strategy in Hsel.
  destruct (StrategyEvaluator.for_each _ _ _) as [d|] eqn:Hloop; [|discriminate].
  cbn [Py.bind] in Hsel.
  destruct (select_loop_general sr er text (dict_keys sr) [])
    as [_ Hinv]; [intros n m []|].
  destruct (Hinv d Hloop) as [Hev _].
  destruct d as [|x d]; [discriminate|].
  cbn [StrategyEvaluator.py_max Py.bind] in Hsel.
  pose proof (max_from_in (fun y : string * StrategyEvaluator.StrategyMetrics =>
                             StrategyEvaluator.total_score (snd y)) d x) as Hin.
  destruct (StrategyEvaluator.max_from _ _ _) as [bn' bm'].
  injection Hsel as Hn Hm Ha. subst bn' bm' am.
  apply Hev. exact Hin.
Qed.

(** On a mapping whose first strategy has no chunks the selection
    raises. *)
Lemma select_best_strategy_empty_first name cr rest er text :
  chunks cr = [] ->
  exists e,
    StrategyEvaluator.select_best_strategy ((name, cr) :: rest) er text = Err e.
Proof.
  intros Hempty.
  destruct (StrategyEvaluator.select_best_strategy ((name, cr) :: rest) er text)
    as [[[bn bm] am]|e] eqn:Hsel; [exfalso|eexists; reflexivity].
  unfold StrategyEvaluator.select_best_strategy in Hsel.
  destruct (StrategyEvaluator.for_each _ _ _) as [d|] eqn:Hloop; [|discriminate].
  destruct (select_loop_general ((name, cr) :: rest) er text
              (dict_keys ((name, cr) :: rest)) [])
    as [Hiff _]; [intros n m []|].
  destruct (proj1 Hiff (ex_intro _ d Hloop) name (or_introl eq_refl))
    as [m [cr' [e' [Hcr [_ Hm]]]]].
  cbn [dict_get] in Hcr. rewrite String.eqb_refl in Hcr. inversion Hcr; subst cr'.
  rewrite Hempty in Hm.
  apply evaluate_strategy_ok_inv in Hm. destruct Hm as [Hne _]. congruence.
Qed.

(** A run in a world where the reader, the key, the service
    (dimension 768) and the database all work, on a text that is not
    blank: [main] exits with code 0 after storing the rows of the
    winning strategy. *)
Lemma main_stores_winner (world : Main.World) (table : list Database.Row)
    (filepath : string) (text : str) (filename : string) :
  Main.read_file world filepath = Some (text, filename) ->
  IndexDocuments.too_short text = false ->
  Main.api_key_set world = true ->
  (forall n t v, Main.service world n t = Some v -> length v = 768) ->
  Main.database_reachable world = true ->
  Database.connects (Main.server world) = true ->
  (forall row, Database.executes (Main.server world) row = true) ->
  Database.commits (Main.server world) = true ->
  ~ Shape.blank text ->
  exists strategy_results best_strategy chunk_result embeddings,
    split_all_strategies text = Some (Ok strategy_results) /\
    dict_get strategy_results best_strategy = Ok chunk_result /\
    chunks chunk_result <> [] /\
    length (chunks chunk_result) = length embeddings /\
    Main.main world table filepath
    = Some (0%Z, table ++ Database.rows_from 0 filename best_strategy
                            (chunks chunk_result) embeddings).
Proof.
  intros Hread Hgate Hkey Hdim Hdb Hc He Hm Hnb.
  destruct (fixed_size_default_blank_iff text) as [f [Hf Hfb]].
  destruct (sentence_based_blank_iff text 5) as [s [Hs Hsb]]; [lia|].
  pose proof (split_all_strategies_unfold text f s Hf Hs) as Hsplit.
  set (sr := [("fixed_size"%string, f); ("sentence_based"%string, s);
              ("paragraph_based"%string, paragraph_based_splitting text 100)]) in *.
  assert (Hnodup : NoDup (dict_keys (@nil (string * EmbeddingGenerator.EmbeddingResult))
                          ++ dict_keys sr)).
  { repeat constructor; simpl; intuition discriminate. }
  destruct (generate_all_loop (Main.service world) sr [] 0 Hnodup)
    as [er [calls' [Hrun [_ [_ Hnew]]]]].
  assert (Heval : forall name cr, In (name, cr) sr ->
            dict_get sr name = Ok cr ->
            chunks cr <> [] ->
            exists m, Aux.evaluated sr er text name m).
  { intros name cr Hin Hget Hne.
    destruct (Hnew name cr Hin) as [c Hc'].
    pose proof (embeddings_from_shape (Main.service world) c
                  (chunks cr) 768 eq_refl Hdim) as Hshape.
    destruct (calculate_embedding_similarity_shaped_ok 768 _ ltac:(lia) Hshape)
      as [x Hx].
    assert (Htext : text <> []) by (intros ->; discriminate Hgate).
    destruct (evaluate_strategy_value name (chunks cr) _ text x
                Hne Htext Hx) as [avg [std [sc [cc [Hev _]]]]].
    eexists. eexists. eexists. split; [exact Hget|]. split; [exact Hc'|].
    exact Hev. }
  destruct (Heval "fixed_size"%string f) as [m1 H1];
    [left; reflexivity|reflexivity|intros H; apply Hnb; apply Hfb; exact H|].
  destruct (Heval "sentence_based"%string s) as [m2 H2];
    [right; left; reflexivity|reflexivity|intros H; apply Hnb; apply Hsb; exact H|].
  destruct (Heval "paragraph_based"%string (paragraph_based_splitting text 100))
    as [m3 H3];
    [right; right; left; reflexivity|reflexivity|
     apply paragraph_based_not_blank; exact Hnb|].
  destruct (select_best_strategy_returns sr er text m1 m2 m3 eq_refl H1 H2 H3)
    as [bn [bm Hsel]].
  pose proof (select_best_strategy_winner_evaluated _ _ _ _ _ _ Hsel)
    as [cr [e [Hcr [Her Hev]]]].
  assert (Hne : chunks cr <> [])
    by (apply evaluate_strategy_ok_inv in Hev; apply Hev).
  destruct (Hnew bn cr (dict_get_ok_in sr bn cr Hcr)) as [c Hc'].
  rewrite Hc' in Her. injection Her as Her. subst e.
  cbn [EmbeddingGenerator.embeddings] in *.
  assert (Hlen : length (chunks cr)
                 = length (Embedder.embeddings_from (Main.service world) c (chunks cr)))
    by (symmetry; apply embeddings_from_length).
  exists sr, bn, cr, (Embedder.embeddings_from (Main.service world) c (chunks cr)).
  split; [exact Hsplit|]. split; [exact Hcr|]. split; [exact Hne|].
  split; [exact Hlen|].
  unfold Main.main. rewrite Hread. cbv beta iota.
  rewrite Hgate. cbv beta iota. rewrite Hsplit. cbv beta iota.
  rewrite Hkey. cbn [negb]. cbv beta iota.
  unfold Embedder.generate_for_all_strategies.
  unfold dict in *. rewrite Hrun. cbv beta iota.
  rewrite Hsel. cbv beta iota. rewrite Hdb. cbn [negb].
  rewrite Hcr, Hc'. cbn [EmbeddingGenerator.embeddings].
  rewrite (save_chunks_accepting _ _ _ _ _ _ Hlen Hc He Hm). reflexivity.
Qed.

End Pipeline.

(** X24. The pipeline end to end, for a document that the reader
    extracts and that passes the length gate, with the API key set, a
    service whose vectors have dimension 768 (any of its calls may
    fail), and a reachable database that accepts every statement.
    If the text is whitespace only, [main] exits with code 1 and stores
    nothing. Otherwise it exits with code 0 and appends exactly the
    chunks of one strategy of [split_all_strategies], in order, each row
    labelled with the file name and the key of that strategy. *)
Theorem main_end_to_end :
  forall (world : Main.World) (table : list Database.Row) (filepath : string)
         (text : str) (filename : string),
    Main.read_file world filepath = Some (text, filename) ->
    IndexDocuments.too_short text = false ->
    Main.api_key_set world = true ->
    (forall n t v, Main.service world n t = Some v -> length v = 768) ->
    Main.database_reachable world = true ->
    Database.connects (Main.server world) = true ->
    (forall row, Database.executes (Main.server world) row = true) ->
    Database.commits (Main.server world) = true ->
    (Shape.blank text -> Main.main world table filepath = Some (1%Z, table)) /\
    (~ Shape.blank text ->
     exists strategy_results best_strategy chunk_result rows,
       TextSplitter.split_all_strategies text = Some (Ok strategy_results) /\
       TextSplitter.dict_get strategy_results best_strategy = Ok chunk_result /\
       TextSplitter.chunks chunk_result <> [] /\
       Main.main world table filepath = Some (0%Z, table ++ rows) /\
       List.map Database.chunk_text rows = TextSplitter.chunks chunk_result /\
       Forall (fun row => Database.filename row = filename /\
                          Database.split_strategy row = best_strategy) rows).
Proof.
  intros world table filepath text filename Hread Hgate Hkey Hdim Hdb Hc He Hm.
  destruct (fixed_size_default_blank_iff text) as [f [Hf Hfb]].
  destruct (sentence_based_blank_iff text 5) as [s [Hs Hsb]]; [lia|].
  pose proof (split_all_strategies_unfold text f s Hf Hs) as Hsplit.
  set (sr := [("fixed_size"%string, f); ("sentence_based"%string, s);
              ("paragraph_based"%string,
               TextSplitter.paragraph_based_splitting text 100)]) in *.
  assert (Hnodup : NoDup (TextSplitter.dict_keys (@nil (string * EmbeddingGenerator.EmbeddingResult))
                          ++ TextSplitter.dict_keys sr)).
  { repeat constructor; simpl; intuition discriminate. }
  destruct (generate_all_loop (Main.service world) sr [] 0 Hnodup)
    as [er [calls' [Hrun [_ [_ Hnew]]]]].
  assert (Hmain_pre :
    Main.main world table filepath =
    match StrategyEvaluator.select_best_strategy sr er text with
    | Err _ => Some (1%Z, table)
    | Ok (best_strategy, best_metrics, all_metrics) =>
      match TextSplitter.dict_get sr best_strategy,
            TextSplitter.dict_get er best_strategy with
      | Ok chunk_result, Ok embedding_result =>
        match Database.save_chunks (Main.server world) true table filename
                (TextSplitter.chunks chunk_result)
                (EmbeddingGenerator.embeddings embedding_result) best_strategy with
        | (inl _, table') => Some (0%Z, table')
        | (inr _, table') => Some (1%Z, table')
        end
      | _, _ => Some (1%Z, table)
      end
    end).
  { unfold Main.main. rewrite Hread. cbv beta iota.
    rewrite Hgate. cbv beta iota. rewrite Hsplit. cbv beta iota.
    rewrite Hkey. cbn [negb]. cbv beta iota.
    unfold Embedder.generate_for_all_strategies.
    unfold TextSplitter.dict in *. rewrite Hrun. cbv beta iota.
    rewrite Hdb. cbn [negb].
    destruct (StrategyEvaluator.select_best_strategy sr er text) as [[[bn bm] am]|];
      reflexivity. }
  split.
  - intros Hblank.
    destruct (select_best_strategy_empty_first "fixed_size" f
                [("sentence_based"%string, s);
                 ("paragraph_based"%string,
                  TextSplitter.paragraph_based_splitting text 100)] er text)
      as [e Hsel]; [apply Hfb; exact Hblank|].
    fold sr in Hsel. rewrite Hmain_pre, Hsel. reflexivity.
  - intros Hnb.
    destruct (main_stores_winner world table filepath text filename
                Hread Hgate Hkey Hdim Hdb Hc He Hm Hnb)
      as [sr' [bn [cr [embs [Hsplit' [Hcr [Hne [Hlen Hmain]]]]]]]].
    exists sr', bn, cr,
      (Database.rows_from 0 filename bn (TextSplitter.chunks cr) embs).
    split; [exact Hsplit'|]. split; [exact Hcr|]. split; [exact Hne|].
    split; [exact Hmain|]. split.
    + apply rows_from_chunk_text. exact Hlen.
    + apply rows_from_labels.
Qed.

Lemma main_end_to_end_witness :
  exists rows,
    Main.main SampleWorld.world [] "doc.pdf" = Some (0%Z, [] ++ rows) /\
    Forall (fun row => Database.filename row = "doc.pdf"%string) rows.
Proof.
  destruct (main_end_to_end SampleWorld.world [] "doc.pdf" SampleWorld.text "doc.pdf")
    as [_ Hok].
  - reflexivity.
  - vm_compute. reflexivity.
  - reflexivity.
  - intros n t v H. discriminate H.
  - reflexivity.
  - reflexivity.
  - intros row. reflexivity.
  - reflexivity.
  - destruct Hok as [sr [bs [cr [rows [_ [_ [_ [Hmain [_ Hlabels]]]]]]]]].
    + intros Hblank. inversion Hblank as [|? ? Hx _]. discriminate Hx.
    + exists rows. split; [exact Hmain|].
      eapply Forall_impl; [|exact Hlabels]. intros row [Hf _]. exact Hf.
Defined.

(** X25. [main] reports success only after the chunks are stored: a
    run that exits with code 0 has read a text that passes the length
    gate and is not whitespace only, with the API key set and the
    database reachable; the server has accepted the connection, every
    insert and the commit; and the table has grown by exactly the
    chunks of one strategy of [split_all_strategies], in order, each row
    labelled with the file name and the key of that strategy. *)
Theorem main_success_means_stored :
  forall (world : Main.World) (table table' : list Database.Row)
         (filepath : string),
    Main.main world table filepath = Some (0%Z, table') ->
    exists text filename strategy_results best_strategy chunk_result rows,
      Main.read_file world filepath = Some (text, filename) /\
      IndexDocuments.too_short text = false /\
      ~ Shape.blank text /\
      Main.api_key_set world = true /\
      Main.database_reachable world = true /\
      Database.accepted (Main.server world) rows /\
      TextSplitter.split_all_strategies text = Some (Ok strategy_results) /\
      TextSplitter.dict_get strategy_results best_strategy = Ok chunk_result /\
      TextSplitter.chunks chunk_result <> [] /\
      table' = table ++ rows /\
      List.map Database.chunk_text rows = TextSplitter.chunks chunk_result /\
      Forall (fun row => Database.filename row = filename /\
                         Database.split_strategy row = best_strategy) rows.
Proof.
  intros world table table' filepath Hmain.
  unfold Main.main in Hmain.
  destruct (Main.read_file world filepath) as [[text filename]|] eqn:Hread;
    [|discriminate].
  destruct (IndexDocuments.too_short text) eqn:Hgate; [discriminate|].
  destruct (fixed_size_default_blank_iff text) as [f [Hf Hfb]].
  destruct (sentence_based_blank_iff text 5) as [s [Hs Hsb]]; [lia|].
  pose proof (split_all_strategies_unfold text f s Hf Hs) as Hsplit.
  rewrite Hsplit in Hmain.
  destruct (Main.api_key_set world) eqn:Hkey; cbn [negb] in Hmain; [|discriminate].
  set (sr := [("fixed_size"%string, f); ("sentence_based"%string, s);
              ("paragraph_based"%string,
               TextSplitter.paragraph_based_splitting text 100)]) in *.
  assert (Hnodup : NoDup (TextSplitter.dict_keys
                            (@nil (string * EmbeddingGenerator.EmbeddingResult))
                          ++ TextSplitter.dict_keys sr)).
  { repeat constructor; simpl; intuition discriminate. }
  destruct (generate_all_loop (Main.service world) sr [] 0 Hnodup)
    as [er [calls' [Hrun _]]].
  unfold Embedder.generate_for_all_strategies in Hmain.
  unfold TextSplitter.dict in *. rewrite Hrun in Hmain.
  destruct (StrategyEvaluator.select_best_strategy sr er text)
    as [[[bn bm] am]|e] eqn:Hsel; [|discriminate].
  assert (Hnb : ~ Shape.blank text).
  { intros Hblank.
    destruct (select_best_strategy_empty_first "fixed_size" f
                [("sentence_based"%string, s);
                 ("paragraph_based"%string,
                  TextSplitter.paragraph_based_splitting text 100)] er text)
      as [e He]; [apply Hfb; exact Hblank|].
    fold sr in He. rewrite He in Hsel. discriminate. }
  destruct (Main.database_reachable world) eqn:Hdb; cbn [negb] in Hmain;
    [|discriminate].
  pose proof (select_best_strategy_winner_evaluated _ _ _ _ _ _ Hsel)
    as [cr [e [Hcr [Her Hev]]]].
  unfold TextSplitter.dict in *. rewrite Hcr, Her in Hmain.
  destruct (Database.save_chunks _ _ _ _ _ _ _) as [[n|err] t] eqn:Hsave;
    [|discriminate].
  injection Hmain as <-.
  apply save_chunks_returned in Hsave. destruct Hsave as [Hlen [Hacc ->]].
  exists text, filename, sr, bn, cr,
    (Database.rows_from 0 filename bn (TextSplitter.chunks cr)
       (EmbeddingGenerator.embeddings e)).
  repeat split; try assumption; try reflexivity.
  - apply Hacc.
  - apply Hacc.
  - apply Hacc.
  - apply evaluate_strategy_ok_inv in Hev. apply Hev.
  - apply rows_from_chunk_text. exact Hlen.
  - apply rows_from_labels.
Qed.

Lemma main_success_means_stored_witness :
  exists table',
    Main.main SampleWorld.world [] "doc.pdf" = Some (0%Z, table') /\
    Forall (fun row => Database.filename row = "doc.pdf"%string) table'.
Proof.
  assert (Hnb : ~ Shape.blank SampleWorld.text).
  { intros Hblank. inversion Hblank as [|? ? Hx _]. discriminate Hx. }
  assert (Hdim : forall n t v,
            Main.service SampleWorld.world n t = Some v -> length v = 768)
    by (intros n t v H; discriminate H).
  destruct (main_stores_winner SampleWorld.world [] "doc.pdf" SampleWorld.text
              "doc.pdf" eq_refl eq_refl eq_refl Hdim eq_refl eq_refl
              (fun _ => eq_refl) eq_refl Hnb)
    as [sr [bn [cr [embs [_ [_ [_ [_ Hmain]]]]]]]].
  eexists. split; [exact Hmain|].
  destruct (main_success_means_stored SampleWorld.world [] _ "doc.pdf" Hmain)
    as [text [filename [sr' [bn' [cr' [rows
         [Hread [_ [_ [_ [_ [_ [_ [_ [_ [Ht [_ Hl]]]]]]]]]]]]]]]]].
  injection Hread as _ <-. rewrite Ht.
  eapply Forall_impl; [|exact Hl]. intros row [Hf _]. exact Hf.
Defined.

(* ================================================================== *)
(** * Properties of the text assembled by the file reader *)
(* ================================================================== *)

Section Reader.

Import TextSplitter Shape FileReader.

Lemma join_cons (sep s : str) (rest : list str) :
  join sep (s :: rest) = if truthy rest then s ++ sep ++ join sep rest else s.
Proof. destruct rest; reflexivity. Qed.

Lemma join_head (sep s : str) (rest : list str) :
  exists tail, join sep (s :: rest) = s ++ tail.
Proof.
  rewrite join_cons. destruct (truthy rest).
  - eexists. reflexivity.
  - exists []. rewrite app_nil_r. reflexivity.
Qed.

Lemma not_blank_split (p : str) :
  ~ blank p ->
  exists a x rest, p = a ++ x :: rest /\ blank a /\ is_space x = false.
Proof.
  intros Hnb. destruct (dropwhile_suffix is_space p) as [a [Ha Hpa]].
  destruct (dropwhile is_space p) as [|x rest] eqn:E.
  - exfalso. apply Hnb. apply dropwhile_nil_blank. exact E.
  - exists a, x, rest. split; [exact Ha|]. split.
    + apply Forall_forall. apply forallb_forall. exact Hpa.
    + eapply dropwhile_head. exact E.
Qed.

Lemma after_last_newline_none (a : str) (x : char) (tail : str) :
  blank a -> ~ In NEWLINE a -> is_space x = false ->
  after_last_newline (a ++ x :: tail) = None.
Proof.
  intros Hblank Hnl Hx. induction Hblank as [|c a Hc _ IH].
  - simpl. rewrite Hx. reflexivity.
  - cbn [app after_last_newline]. rewrite Hc.
    rewrite IH by (intros Hin; apply Hnl; right; exact Hin).
    destruct (N.eqb_spec c NEWLINE) as [->|_]; [|reflexivity].
    exfalso. apply Hnl. left. reflexivity.
Qed.

Lemma no_blank_line_part (p tail : str) :
  ~ In NEWLINE p -> no_blank_line tail = true -> no_blank_line (p ++ tail) = true.
Proof.
  intros Hnl Htail. induction p as [|c p IH]; [exact Htail|].
  cbn [app no_blank_line paragraph_pattern].
  destruct (N.eqb_spec c NEWLINE) as [->|_].
  - exfalso. apply Hnl. left. reflexivity.
  - apply IH. intros Hin. apply Hnl. right. exact Hin.
Qed.

(** Newline-free parts that are not blank, joined by single newlines,
    contain no blank line. *)
Lemma no_blank_line_join (parts : list str) :
  Forall (fun p => ~ In NEWLINE p /\ ~ blank p) parts ->
  no_blank_line (join [NEWLINE] parts) = true.
Proof.
  induction 1 as [|p parts [Hnl Hnb] Hrest IH]; [reflexivity|].
  rewrite join_cons. destruct parts as [|q parts]; cbn [truthy].
  - rewrite <- (app_nil_r p). apply no_blank_line_part; [exact Hnl|reflexivity].
  - apply no_blank_line_part; [exact Hnl|].
    change ([NEWLINE] ++ join [NEWLINE] (q :: parts))
      with (NEWLINE :: join [NEWLINE] (q :: parts)).
    cbn [no_blank_line paragraph_pattern]. rewrite N.eqb_refl.
    inversion Hrest as [|? ? [Hqnl Hqnb] _]; subst.
    destruct (not_blank_split q Hqnb) as [a [x [rest [Hq [Ha Hx]]]]].
    destruct (join_head [NEWLINE] q parts) as [tail Htail].
    rewrite Htail at 1. rewrite Hq at 1. rewrite <- app_assoc. cbn [app].
    rewrite after_last_newline_none; [exact IH|exact Ha| |exact Hx].
    intros Hin. apply Hqnl. rewrite Hq. apply in_or_app. left. exact Hin.
Qed.

Lemma join_not_blank (sep : str) (parts : list str) :
  Exists (fun p => ~ blank p) parts -> ~ blank (join sep parts).
Proof.
  induction 1 as [p parts Hp|p parts Hex IH]; rewrite join_cons; intros Hb.
  - apply Hp. destruct (truthy parts); [|exact Hb].
    unfold blank in *. apply Forall_app in Hb. apply Hb.
  - destruct parts as [|q parts]; [inversion Hex|]. cbn [truthy] in Hb.
    apply IH. unfold blank in *.
    apply Forall_app in Hb. destruct Hb as [_ Hb].
    apply Forall_app in Hb. apply Hb.
Qed.

Lemma join_blank (sep : str) (parts : list str) :
  blank sep -> Forall blank parts -> blank (join sep parts).
Proof.
  intros Hsep. induction 1 as [|p parts Hp _ IH]; [constructor|].
  rewrite join_cons. destruct (truthy parts); [|exact Hp].
  unfold blank in *. apply Forall_app. split; [exact Hp|].
  apply Forall_app. split; [exact Hsep|exact IH].
Qed.

Lemma truthy_strip_not_blank (p : str) :
  truthy (strip p) = true <-> ~ blank p.
Proof.
  rewrite truthy_nonempty. split; intros H Hb; apply H.
  - apply strip_blank. exact Hb.
  - apply strip_nil_blank. exact Hb.
Qed.

Lemma docx_parts (paragraph_texts : list str) :
  Forall (fun p => ~ blank p)
         (List.filter (fun text => truthy (strip text)) paragraph_texts).
Proof.
  apply Forall_forall. intros p Hp. apply filter_In in Hp.
  apply truthy_strip_not_blank. apply Hp.
Qed.

End Reader.

(** X26. The text that [read_docx] assembles is never a non-empty
    whitespace-only string: it is empty when every paragraph is blank,
    and otherwise it contains a character that is not whitespace. The
    text that [read_pdf] assembles is whitespace only exactly when every
    page text is, so pages of blanks survive into the text. *)
Theorem reader_blank_text :
  forall parts : list str,
    (Forall Shape.blank parts -> FileReader.read_docx parts = []) /\
    (~ Forall Shape.blank parts -> ~ Shape.blank (FileReader.read_docx parts)) /\
    (Shape.blank (FileReader.read_pdf parts) <-> Forall Shape.blank parts).
Proof.
  intros parts. split; [|split].
  - intros Hall. unfold FileReader.read_docx. cbn zeta.
    induction Hall as [|p parts Hp _ IH]; [reflexivity|].
    cbn [List.filter]. rewrite (strip_blank p Hp). exact IH.
  - intros Hnot. unfold FileReader.read_docx. cbn zeta.
    apply join_not_blank.
    induction parts as [|p parts IH]; [exfalso; apply Hnot; constructor|].
    cbn [List.filter]. destruct (truthy (strip p)) eqn:Hp.
    + left. apply truthy_strip_not_blank. exact Hp.
    + apply IH. intros Hall. apply Hnot. constructor; [|exact Hall].
      apply strip_nil_blank. destruct (strip p); [reflexivity|discriminate].
  - unfold FileReader.read_pdf. cbn zeta. split.
    + intros Hb. apply Forall_forall. intros p Hp.
      destruct p as [|c p]; [constructor|].
      assert (Hin : In (c :: p)
                       (List.filter (fun t : list char => truthy t) parts))
        by (apply filter_In; split; [exact Hp|reflexivity]).
      clear Hp.
      set (qs := List.filter (fun t : list char => truthy t) parts) in *.
      clearbody qs. revert Hb Hin.
      induction qs as [|q qs IH]; intros Hb Hin; [destruct Hin|].
      rewrite join_cons in Hb. destruct Hin as [->|Hin].
      * destruct qs as [|q' qs]; cbn [truthy] in Hb; [exact Hb|].
        unfold Shape.blank in *. apply Forall_app in Hb. apply Hb.
      * destruct qs as [|q' qs]; [destruct Hin|]. cbn [truthy] in Hb.
        apply IH; [|exact Hin]. unfold Shape.blank in *.
        apply Forall_app in Hb. destruct Hb as [_ Hb].
        apply Forall_app in Hb. apply Hb.
    + intros Hall. apply join_blank; [repeat constructor|].
      apply Forall_forall. intros p Hp. apply filter_In in Hp.
      rewrite Forall_forall in Hall. apply Hall. apply Hp.
Qed.

Lemma reader_blank_text_witness :
  FileReader.read_docx [str_of "  "; []] = [] /\
  Shape.blank (FileReader.read_pdf [str_of "  "; []]).
Proof.
  assert (Hb : Forall Shape.blank [str_of "  "; []]) by (repeat constructor).
  destruct (reader_blank_text [str_of "  "; []]) as [Hdocx [_ Hpdf]].
  split; [apply Hdocx; exact Hb|apply Hpdf; exact Hb].
Defined.

(** X27. For a document whose paragraphs contain no newline, the text
    assembled by [read_docx] has no blank line, so the paragraph
    strategy cannot split it: for every minimum length the result is the
    whole trimmed text as the only chunk (no chunk when every paragraph
    is blank and the minimum is positive). *)
Theorem docx_text_single_paragraph :
  forall (paragraph_texts : list str) (min_paragraph_length : Z),
    Forall (fun p => ~ In NEWLINE p) paragraph_texts ->
    let text := FileReader.read_docx paragraph_texts in
    Shape.no_blank_line text = true /\
    TextSplitter.chunks
      (TextSplitter.paragraph_based_splitting text min_paragraph_length)
    = (if truthy (strip text) || (0 >=? min_paragraph_length)%Z
       then [strip text] else []).
Proof.
  intros ps mpl Hnl. cbn zeta.
  assert (Hnb : Shape.no_blank_line (FileReader.read_docx ps) = true).
  { unfold FileReader.read_docx. cbn zeta. apply no_blank_line_join.
    apply Forall_forall. intros p Hp. split.
    - apply filter_In in Hp. rewrite Forall_forall in Hnl. apply Hnl. apply Hp.
    - pose proof (docx_parts ps) as Hparts. rewrite Forall_forall in Hparts.
      apply Hparts. exact Hp. }
  split; [exact Hnb|].
  rewrite paragraph_chunks_unfold. cbn zeta.
  unfold re_split. rewrite (re_split_no_blank_line _ Hnb None []).
  simpl app. cbn [fold_left]. unfold TextSplitter.paragraph_step. cbn [truthy].
  destruct (strip (FileReader.read_docx ps)) as [|c s] eqn:Hs.
  - cbn [length truthy]. change (Z.of_nat 0) with 0%Z.
    destruct (0 >=? mpl)%Z; reflexivity.
  - cbn [truthy orb].
    destruct (Z.of_nat (length (c :: s)) >=? mpl)%Z; reflexivity.
Qed.

Lemma docx_text_single_paragraph_witness :
  TextSplitter.chunks
    (TextSplitter.paragraph_based_splitting
       (FileReader.read_docx [str_of "First paragraph."; str_of " "; str_of "Second."])
       10)
  = [strip (FileReader.read_docx
              [str_of "First paragraph."; str_of " "; str_of "Second."])].
Proof.
  apply (docx_text_single_paragraph
           [str_of "First paragraph."; str_of " "; str_of "Second."] 10).
  repeat constructor; vm_compute; intuition discriminate.
Defined.
